(** * hugolib/site.go: the build and render orchestration of a static site

    A shallow embedding of [Site] and its methods ([Build], [Process],
    [Render] and the render sub-stages), together with the statements
    made about them.  The Go heap of [*Page] values is a list indexed by
    address, the [Site] is threaded through a small state monad whose
    abnormal outcomes are the Go run-time panics, and everything the file
    imports from other packages is a field of the record [Env]. *)

From Stdlib Require Import ZArith Ascii String.
From stdpp Require Import base option list gmap strings.

Local Open Scope string_scope.

(** ** Values of the Go program *)

(** A Go [error]: [None] is [nil], [Some msg] carries [Error()]. *)
Abbreviation error := (option string).

(** [time.Time], counted from the zero instant; the zero value is the
    time of a field that was never assigned. *)
Abbreviation Time := Z.
Definition zeroTime : Time := 0%Z.

(** A [*Page]: an address in the page heap. *)
Abbreviation ptr := nat.

(** [Index] is [map[string]Pages], [IndexList] is [map[string]Index]. *)
Abbreviation Index := (gmap string (list ptr)).
Abbreviation IndexList := (gmap string (gmap string (list ptr))).
Abbreviation OrderedIndex := (list (string * list ptr)).
Abbreviation OrderedIndexList := (gmap string (list (string * list ptr))).

(** The template set of [bundle.Template]: template name to template text. *)
Abbreviation Templates := (gmap string string).

Definition nl : string := String (ascii_of_nat 10) "".
Definition tab : string := String (ascii_of_nat 9) "".

(** What a front-matter parameter can hold ([interface{}] in [Params]). *)
Inductive ParamValue :=
| VStrings (l : list string)
| VString (s : string)
| VInt (z : Z)
| VBool (b : bool).

Module Config.
Record t := mk {
  BaseUrl : string;
  Title : string;
  LayoutDir : string;
  ContentDir : string;
  PublishDir : string;
  StaticDir : string;
  Indexes : gmap string string;
  BuildDrafts : bool;
  Verbose : bool;
  UglyUrls : bool
}.
End Config.

(** [SiteInfo].  [Recent] and [Config] point back into the [Site] they
    come from and are read through it. *)
Module SiteInfo.
Record t := mk {
  BaseUrl : string;
  Indexes : OrderedIndexList;
  LastChange : Time;
  Title : string
}.
Definition zero : t := mk "" ∅ zeroTime "".
Definition with_Indexes (o : OrderedIndexList) (i : t) : t :=
  mk (BaseUrl i) o (LastChange i) (Title i).
Definition with_LastChange (d : Time) (i : t) : t :=
  mk (BaseUrl i) (Indexes i) d (Title i).
End SiteInfo.

(** A record of [source.Input.Files()]. *)
Module File.
Record t := mk {
  Contents : string;
  LogicalName : string;
  Section_ : string;
  Dir : string
}.
End File.

(** The fields of [Page] that site.go reads or writes.  [Tmpl] is the
    site's own template set (the same reference) and is read through the
    site. *)
Module Page.
Record t := mk {
  FileName : string;
  Description : string;
  Content : string;
  Summary : string;
  Section_ : string;
  Dir : string;
  Draft : bool;
  Date : Time;
  Params : gmap string ParamValue;
  Aliases : list string;
  Next : option ptr;
  Prev : option ptr;
  Site : SiteInfo.t
}.
Definition with_Next (q : option ptr) (p : t) : t :=
  mk (FileName p) (Description p) (Content p) (Summary p) (Section_ p) (Dir p)
     (Draft p) (Date p) (Params p) (Aliases p) q (Prev p) (Site p).
Definition with_Prev (q : option ptr) (p : t) : t :=
  mk (FileName p) (Description p) (Content p) (Summary p) (Section_ p) (Dir p)
     (Draft p) (Date p) (Params p) (Aliases p) (Next p) q (Site p).
Definition with_Site (i : SiteInfo.t) (p : t) : t :=
  mk (FileName p) (Description p) (Content p) (Summary p) (Section_ p) (Dir p)
     (Draft p) (Date p) (Params p) (Aliases p) (Next p) (Prev p) i.
Definition with_Content (c : string) (p : t) : t :=
  mk (FileName p) (Description p) c (Summary p) (Section_ p) (Dir p)
     (Draft p) (Date p) (Params p) (Aliases p) (Next p) (Prev p) (Site p).
Definition with_Summary (c : string) (p : t) : t :=
  mk (FileName p) (Description p) (Content p) c (Section_ p) (Dir p)
     (Draft p) (Date p) (Params p) (Aliases p) (Next p) (Prev p) (Site p).
Definition with_file (sec dir : string) (p : t) : t :=
  mk (FileName p) (Description p) (Content p) (Summary p) sec dir
     (Draft p) (Date p) (Params p) (Aliases p) (Next p) (Prev p) (Site p).
End Page.

(** What [Node.Data] holds ([map[string]interface{}]). *)
Inductive DataValue :=
| DPages (ps : list ptr)
| DString (s : string)
| DIndex (i : gmap string (list ptr))
| DOrdered (o : list (string * list ptr)).

Module Node.
Record t := mk {
  Title : string;
  Url : string;
  Permalink : string;
  RSSlink : string;
  Date : Time;
  Data : gmap string DataValue;
  Site : SiteInfo.t
}.
Definition with_Title (x : string) (n : t) : t :=
  mk x (Url n) (Permalink n) (RSSlink n) (Date n) (Data n) (Site n).
Definition with_Url (x : string) (n : t) : t :=
  mk (Title n) x (Permalink n) (RSSlink n) (Date n) (Data n) (Site n).
Definition with_Permalink (x : string) (n : t) : t :=
  mk (Title n) (Url n) x (RSSlink n) (Date n) (Data n) (Site n).
Definition with_RSSlink (x : string) (n : t) : t :=
  mk (Title n) (Url n) (Permalink n) x (Date n) (Data n) (Site n).
Definition with_Date (x : Time) (n : t) : t :=
  mk (Title n) (Url n) (Permalink n) (RSSlink n) x (Data n) (Site n).
Definition set_Data (k : string) (v : DataValue) (n : t) : t :=
  mk (Title n) (Url n) (Permalink n) (RSSlink n) (Date n) (<[k:=v]> (Data n)) (Site n).
End Node.

(** The [d interface{}] handed to [render]: a [*Page] or a [*Node]. *)
Inductive Renderable :=
| RPage (p : ptr)
| RNode (n : Node.t).

(** [source.Input]: the file system source that [initialize] installs, or
    whatever implementation the caller put in [Site.Source]. *)
Inductive Input :=
| Filesystem (AvoidPaths : list string) (Base : string)
| SuppliedInput (files : list File.t).

(** [target.Output] and [target.AliasPublisher]. *)
Inductive Output :=
| FilesystemTarget (PublishDir : string) (UglyUrls : bool)
| SuppliedTarget (name : string).

Inductive AliasPublisher :=
| HTMLRedirectAlias (PublishDir : string)
| SuppliedAlias (name : string).

(** [Site].  [Shortcodes], [timer], [Transformer] and [Completed] are
    written or never touched by the methods below, and never read. *)
Module Site.
Record t := mk {
  Config : Config.t;
  Pages : list ptr;
  Tmpl : Templates;
  Indexes : IndexList;
  Source : option Input;
  Sections : Index;
  Info : SiteInfo.t;
  Target : option Output;
  Alias : option AliasPublisher
}.
Definition with_Pages (x : list ptr) (s : t) : t :=
  mk (Config s) x (Tmpl s) (Indexes s) (Source s) (Sections s) (Info s) (Target s) (Alias s).
Definition with_Tmpl (x : Templates) (s : t) : t :=
  mk (Config s) (Pages s) x (Indexes s) (Source s) (Sections s) (Info s) (Target s) (Alias s).
Definition with_Indexes (x : IndexList) (s : t) : t :=
  mk (Config s) (Pages s) (Tmpl s) x (Source s) (Sections s) (Info s) (Target s) (Alias s).
Definition with_Source (x : option Input) (s : t) : t :=
  mk (Config s) (Pages s) (Tmpl s) (Indexes s) x (Sections s) (Info s) (Target s) (Alias s).
Definition with_Sections (x : Index) (s : t) : t :=
  mk (Config s) (Pages s) (Tmpl s) (Indexes s) (Source s) x (Info s) (Target s) (Alias s).
Definition with_Info (x : SiteInfo.t) (s : t) : t :=
  mk (Config s) (Pages s) (Tmpl s) (Indexes s) (Source s) (Sections s) x (Target s) (Alias s).
Definition with_Target (x : option Output) (s : t) : t :=
  mk (Config s) (Pages s) (Tmpl s) (Indexes s) (Source s) (Sections s) (Info s) x (Alias s).
Definition with_Alias (x : option AliasPublisher) (s : t) : t :=
  mk (Config s) (Pages s) (Tmpl s) (Indexes s) (Source s) (Sections s) (Info s) (Target s) x.
End Site.

(** ** What the build does to the outside *)

Inductive Event :=
| EvStdout (text : string)
| EvStderr (text : string)
| EvTimer (step : string)
| EvExec (layout : string) (d : Renderable)
| EvPublish (path : string) (content : string)
| EvAlias (path : string) (permalink : string).

(** The program state: the site, the heap of pages and the trace of
    effects, oldest first. *)
Record World := mkWorld {
  site : Site.t;
  heap : list Page.t;
  log : list Event
}.

Definition set_site (f : Site.t → Site.t) (w : World) : World :=
  mkWorld (f (site w)) (heap w) (log w).
Definition set_heap (f : list Page.t → list Page.t) (w : World) : World :=
  mkWorld (site w) (f (heap w)) (log w).
Definition emit (e : Event) (w : World) : World :=
  mkWorld (site w) (heap w) (log w ++ [e]).

(** ** The collaborators

    Everything site.go calls in other files and packages; each field
    stands for the behaviour of that call.
    - [GetAbsPath], [dirExists]: the configuration and the file system.
    - [FilesystemFiles avoid base]: [Files()] of [source.Filesystem]; it
      is called twice by [CreatePages] and taken to answer the same.
    - [LoadTemplates dir]: the template set after [bundle.NewTemplate()]
      and [LoadTemplates(dir)]; [ParseTemplate name text]: the error of
      [Tmpl.New(name).Parse(text)]; [ExecuteTemplate]: the bytes
      [Tmpl.ExecuteTemplate] writes and its error.
    - [ApplyChain base section input]: the chain of [transform.AbsURL] and
      [transform.NavActive], its output and its error.
    - [TargetPublish], [AliasPublish]: the errors of the two [Publish].
    - [ReadFrom], [SortPages], [GetParam], [IsRenderable], [TargetPath],
      [Layout], [PagePermalink], [RelPermalink]: page.go.
    - [ShortcodesHandle], [Urlize], [TitleCase] ([strings.Title]),
      [Pluralize], [UrlParse] (the error of [url.Parse]),
      [ResolveReference], [BuildOrderedIndexList].
    - [mapOrder]: the order in which a [range] over a map visits its
      keys. *)
Record Env := mkEnv {
  GetAbsPath : Config.t → string → string;
  dirExists : string → bool;
  FilesystemFiles : list string → string → list File.t;
  LoadTemplates : string → Templates;
  ParseTemplate : string → string → error;
  ExecuteTemplate : Templates → list Page.t → string → Renderable → string * error;
  ApplyChain : string → string → string → string * error;
  TargetPublish : Output → string → string → error;
  AliasPublish : AliasPublisher → string → string → error;
  ReadFrom : string → string → Page.t + string;
  SortPages : list Page.t → list ptr → list ptr;
  GetParam : Page.t → string → option ParamValue;
  IsRenderable : Page.t → bool;
  TargetPath : Page.t → string;
  Layout : Page.t → list string;
  PagePermalink : Page.t → string * error;
  RelPermalink : Page.t → string * error;
  ShortcodesHandle : string → Page.t → Templates → string;
  Urlize : string → string;
  TitleCase : string → string;
  Pluralize : string → string;
  UrlParse : string → error;
  ResolveReference : string → string → string;
  BuildOrderedIndexList : IndexList → OrderedIndexList;
  mapOrder : list string → list string
}.

(** ** Outcomes *)

(** The ways the Go process stops instead of returning. *)
Inductive Panic :=
| IndexOutOfRange
| NilDereference
| PanicErr (msg : string)
| Deadlock.

Inductive Res (A : Type) :=
| Ret (a : A) (w : World)
| Crash (p : Panic) (w : World).
Arguments Ret {A} a w.
Arguments Crash {A} p w.

Definition M (A : Type) := World → Res A.

Definition ret {A} (a : A) : M A := λ w, Ret a w.
Definition bind {A B} (m : M A) (k : A → M B) : M B :=
  λ w, match m w with
       | Ret a w' => k a w'
       | Crash p w' => Crash p w'
       end.
Definition panic {A} (p : Panic) : M A := λ w, Crash p w.
Definition get : M World := λ w, Ret w w.
Definition modify (f : World → World) : M unit := λ w, Ret tt (f w).

Notation "'do' x <- m ; k" := (bind m (λ x, k))
  (at level 10, x name, m at level 100, k at level 200, only parsing).
Notation "'run' m ; k" := (bind m (λ _, k))
  (at level 10, m at level 100, k at level 200, only parsing).

Definition say (e : Event) : M unit := modify (emit e).

(** [for _, x := range xs { if err := body(x); err != nil { return err } }] *)
Fixpoint forErr {X} (body : X → M error) (xs : list X) : M error :=
  match xs with
  | [] => ret None
  | x :: rest =>
      do e <- body x;
      match e with
      | Some msg => ret (Some msg)
      | None => forErr body rest
      end
  end.

(** [for _, x := range xs { body(x) }] *)
Fixpoint forEach {X} (body : X → M unit) (xs : list X) : M unit :=
  match xs with
  | [] => ret tt
  | x :: rest => run body x; forEach body rest
  end.

(** [*p]: a page pointer outside the heap is a nil dereference. *)
Definition deref (p : ptr) : M Page.t :=
  λ w, match heap w !! p with
       | Some pg => Ret pg w
       | None => Crash NilDereference w
       end.

(** A write through [p]: the page at [p] becomes [f] of itself. *)
Definition update (p : ptr) (f : Page.t → Page.t) : M unit :=
  do pg <- deref p; modify (set_heap (λ h, <[p := f pg]> h)).

(** [for k, v := range m]: Go visits the entries of a map in an order it
    does not specify; [mapOrder] is the order the run time picks. *)
Definition rangeMap {V} (E : Env) (m : gmap string V) : list (string * V) :=
  omap (λ k, pair k <$> m !! k) (mapOrder E (fst <$> map_to_list m)).

Definition when (b : bool) (m : M unit) : M unit := if b then m else ret tt.

(** [if err = m; err != nil { return err }] followed by [k]. *)
Definition orReturn (m : M error) (k : M error) : M error :=
  do e <- m;
  match e with
  | Some msg => ret (Some msg)
  | None => k
  end.

Notation "'check' m ; k" := (orReturn m k)
  (at level 10, m at level 100, k at level 200, only parsing).

(** [fmt]'s rendering of a [[]string] under [%s]. *)
Definition showStrings (l : list string) : string :=
  "[" ++ String.concat " " l ++ "]".

(** [fmt.Errorf(msg, arg)] where [msg] has no verb for [arg]. *)
Definition errorfExtra (msg arg : string) : string :=
  msg ++ "%!(EXTRA string=" ++ arg ++ ")".

(** ** Index.Add *)

(** Modelled from the spec: [Index.Add] lives in a file of the package
    that is not part of the sources at hand.  "add the Page to the Index
    entry keyed by each string ... one add per tag occurrence": the page
    is appended to the collection under its key, which is created when
    absent. *)
Definition IndexAdd (key : string) (p : ptr) (i : Index) : Index :=
  <[key := (default [] (i !! key) ++ [p])%list]> i.

(** ** The methods of Site *)

Section Methods.
Context (E : Env).

Definition absLayoutDir (s : Site.t) : string :=
  GetAbsPath E (Site.Config s) (Config.LayoutDir (Site.Config s)).

Definition absContentDir (s : Site.t) : string :=
  GetAbsPath E (Site.Config s) (Config.ContentDir (Site.Config s)).

Definition absPublishDir (s : Site.t) : string :=
  GetAbsPath E (Site.Config s) (Config.PublishDir (Site.Config s)).

Definition verbose (w : World) : bool := Config.Verbose (Site.Config (site w)).

Definition timerStep (step : string) : M unit := say (EvTimer step).

Definition prepTemplates : M unit :=
  modify (set_site (λ s, Site.with_Tmpl (LoadTemplates E (absLayoutDir s)) s)).

Definition checkDirectories (s : Site.t) : error :=
  if negb (dirExists E (absLayoutDir s)) then
    Some ("No layout directory found, expecting to find it at " ++ absLayoutDir s)
  else if negb (dirExists E (absContentDir s)) then
    Some ("No source directory found, expecting to find it at " ++ absContentDir s)
  else None.

Definition initializeSiteInfo : M unit :=
  modify (set_site (λ s,
    Site.with_Info
      (SiteInfo.mk (Config.BaseUrl (Site.Config s)) ∅ zeroTime
                   (Config.Title (Site.Config s))) s)).

Definition initialize : M error :=
  do w <- get;
  match checkDirectories (site w) with
  | Some msg => ret (Some msg)
  | None =>
      let cfg := Site.Config (site w) in
      let staticDir := GetAbsPath E cfg (Config.StaticDir cfg ++ "/") in
      run modify (set_site
            (Site.with_Source (Some (Filesystem [staticDir] (absContentDir (site w))))));
      run initializeSiteInfo;
      ret None
  end.

(** [s.Source.Files()] *)
Definition Files (src : Input) : list File.t :=
  match src with
  | Filesystem avoid base => FilesystemFiles E avoid base
  | SuppliedInput fs => fs
  end.

(** The body of the loop of [CreatePages]. *)
Definition createPage (file : File.t) : M error :=
  match ReadFrom E (File.Contents file) (File.LogicalName file) with
  | inr msg => ret (Some msg)
  | inl pg =>
      do w <- get;
      let page := length (heap w) in
      let pg' := Page.with_file (File.Section_ file) (File.Dir file)
                   (Page.with_Site (Site.Info (site w)) pg) in
      run modify (set_heap (λ h, (h ++ [pg'])%list));
      run when (Config.BuildDrafts (Site.Config (site w)) || negb (Page.Draft pg'))
            (modify (set_site (λ s, Site.with_Pages (Site.Pages s ++ [page])%list s)));
      ret None
  end.

Definition sortSitePages (w : World) : World :=
  set_site (Site.with_Pages (SortPages E (heap w) (Site.Pages (site w)))) w.

Definition CreatePages : M error :=
  do w <- get;
  match Site.Source (site w) with
  | None => ret (Some (errorfExtra "No source files found in" (absContentDir (site w))))
  | Some src =>
      if (length (Files src) <? 1)%nat then
        ret (Some (errorfExtra "No source files found in" (absContentDir (site w))))
      else
        check forErr createPage (Files src);
        run modify sortSitePages;
        ret None
  end.

(** The body of the loop of [setupPrevNext], at index [i] with [page]
    the [i]-th element of [pages]. *)
Definition linkPage (pages : list ptr) (ip : nat * ptr) : M unit :=
  let '(i, page) := ip in
  run (if (i <? length pages - 1)%nat then
         match pages !! (i + 1) with
         | Some q => update page (Page.with_Next (Some q))
         | None => panic IndexOutOfRange
         end
       else ret tt);
  if (0 <? i)%nat then
    match pages !! (i - 1) with
    | Some q => update page (Page.with_Prev (Some q))
    | None => panic IndexOutOfRange
    end
  else ret tt.

Definition setupPrevNext : M unit :=
  do w <- get;
  forEach (linkPage (Site.Pages (site w))) (imap pair (Site.Pages (site w))).

(** [for k, _ := range idx { idx[k].Sort() }] *)
Definition sortIndex (h : list Page.t) (idx : Index) : Index :=
  foldl (λ acc kv, alter (SortPages E h) (fst kv) acc) idx (rangeMap E idx).

(** The body of the inner loop of [BuildSiteMeta] for one field and page. *)
Definition indexPage (plural : string) (p : ptr) : M unit :=
  do pg <- deref p;
  match GetParam E pg plural with
  | None => ret tt
  | Some (VStrings v) =>
      modify (set_site (λ s,
        Site.with_Indexes
          (alter (λ idx, foldl (λ acc key, IndexAdd key p acc) idx v) plural
                 (Site.Indexes s)) s))
  | Some _ =>
      do w <- get;
      when (verbose w)
        (say (EvStderr ("Invalid " ++ plural ++ " in " ++ Page.FileName pg ++ nl)))
  end.

(** The body of the outer loop of [BuildSiteMeta]. *)
Definition buildIndex (entry : string * string) : M unit :=
  let plural := snd entry in
  run modify (set_site (λ s, Site.with_Indexes (<[plural := ∅]> (Site.Indexes s)) s));
  do w <- get;
  run forEach (indexPage plural) (Site.Pages (site w));
  modify (λ w, set_site (λ s,
    Site.with_Indexes (alter (sortIndex (heap w)) plural (Site.Indexes s)) s) w).

Definition addSection (p : ptr) : M unit :=
  do pg <- deref p;
  modify (set_site (λ s,
    Site.with_Sections (IndexAdd (Page.Section_ pg) p (Site.Sections s)) s)).

Definition BuildSiteMeta : M error :=
  run modify (set_site (λ s, Site.with_Sections ∅ (Site.with_Indexes ∅ s)));
  do w <- get;
  run forEach buildIndex (rangeMap E (Config.Indexes (Site.Config (site w))));
  run forEach addSection (Site.Pages (site w));
  run modify (λ w, set_site (λ s,
        Site.with_Sections (sortIndex (heap w) (Site.Sections s)) s) w);
  run modify (set_site (λ s,
        Site.with_Info
          (SiteInfo.with_Indexes (BuildOrderedIndexList E (Site.Indexes s)) (Site.Info s)) s));
  match Site.Pages (site w) with
  | [] => ret None
  | first :: _ =>
      do pg <- deref first;
      run modify (set_site (λ s,
            Site.with_Info (SiteInfo.with_LastChange (Page.Date pg) (Site.Info s)) s));
      do w' <- get;
      run forEach (λ p, update p (Page.with_Site (Site.Info (site w'))))
            (Site.Pages (site w));
      ret None
  end.

Definition Process : M error :=
  do _ <- initialize;
  run prepTemplates;
  run timerStep "initialize & template prep";
  check CreatePages;
  run setupPrevNext;
  run timerStep "import pages";
  check BuildSiteMeta;
  run timerStep "build indexes";
  ret None.

End Methods.

(** ** Rendering *)

(** What the template worker of [render] leaves behind: the bytes it
    wrote into the pipe, whether it closed its end, and its error. *)
Record Stage := mkStage {
  written : string;
  closed : bool;
  failure : error
}.

Fixpoint findFirstLayout (tm : Templates) (layouts : list string) : string :=
  match layouts with
  | [] => ""
  | layout :: rest =>
      match tm !! layout with
      | Some _ => layout
      | None => findFirstLayout tm rest
      end
  end.

Section Rendering.
Context (E : Env).

Definition NewNode (s : Site.t) : Node.t :=
  Node.mk "" "" "" "" zeroTime ∅ (Site.Info s).

(** [permalink] panics when either URL does not parse. *)
Definition permalink (plink : string) : M string :=
  do w <- get;
  let base := Config.BaseUrl (Site.Config (site w)) in
  match UrlParse E base with
  | Some msg => panic (PanicErr msg)
  | None =>
      match UrlParse E plink with
      | Some msg => panic (PanicErr msg)
      | None => ret (ResolveReference E base plink)
      end
  end.

Definition initTarget : M unit :=
  modify (set_site (λ s,
    match Site.Target s with
    | Some _ => s
    | None =>
        Site.with_Target
          (Some (FilesystemTarget (absPublishDir E s) (Config.UglyUrls (Site.Config s)))) s
    end)).

Definition WritePublic (path content : string) : M error :=
  run initTarget;
  do w <- get;
  run when (verbose w) (say (EvStdout (path ++ nl)));
  match Site.Target (site w) with
  | Some t =>
      run say (EvPublish path content);
      ret (TargetPublish E t path content)
  | None => panic NilDereference
  end.

Definition WriteAlias (path plink : string) : M error :=
  do w0 <- get;
  run match Site.Alias (site w0) with
      | Some _ => ret tt
      | None =>
          run initTarget;
          modify (set_site (λ s,
            Site.with_Alias (Some (HTMLRedirectAlias (absPublishDir E s))) s))
      end;
  do w <- get;
  run when (verbose w) (say (EvStdout (path ++ nl)));
  match Site.Alias (site w) with
  | Some a =>
      run say (EvAlias path plink);
      ret (AliasPublish E a path plink)
  | None => panic NilDereference
  end.

(** [renderThing]: without the template it returns an error and leaves
    the writer open; with it, the deferred [w.Close()] runs whatever
    [ExecuteTemplate] returns. *)
Definition renderThing (d : Renderable) (layout : string) : M Stage :=
  do w <- get;
  match Site.Tmpl (site w) !! layout with
  | None => ret (mkStage "" false (Some ("Layout not found: " ++ layout)))
  | Some _ =>
      run say (EvExec layout d);
      let '(out, err) := ExecuteTemplate E (Site.Tmpl (site w)) (heap w) layout d in
      ret (mkStage out true err)
  end.

(** [render].  The two workers and the publisher are connected by
    unbuffered pipes, so the publisher reads what the transformer wrote,
    which read what the template wrote, once each writer is closed.
    - The first worker panics on an error of [renderThing]; nothing
      recovers a panic in this program, so the process stops there.
    - A template writer that is never closed, with no panic, leaves the
      transformer and the publisher blocked for ever: [Deadlock].
    - The second worker drops the error of [transformer.Apply] and closes
      its writer in any case. *)
Definition render (d : Renderable) (out : string) (layouts : list string) : M error :=
  do w <- get;
  let layout := findFirstLayout (Site.Tmpl (site w)) layouts in
  if decide (layout = "") then
    run when (verbose w)
          (say (EvStdout ("Unable to locate layout: " ++ showStrings layouts ++ nl)));
    ret None
  else
    do section <- match d with
                  | RPage p => do pg <- deref p; ret (fst (RelPermalink E pg))
                  | RNode _ => ret ""
                  end;
    do produced <- renderThing d layout;
    match failure produced with
    | Some msg => panic (PanicErr msg)
    | None =>
        if closed produced then
          let transformed :=
            fst (ApplyChain E (Config.BaseUrl (Site.Config (site w))) section
                   (written produced)) in
          WritePublic out transformed
        else panic Deadlock
    end.

Definition RenderAliases : M error :=
  do w <- get;
  forErr (λ p,
    do pg <- deref p;
    forErr (λ a,
      let '(plink, err) := PagePermalink E pg in
      match err with
      | Some msg => ret (Some msg)
      | None => WriteAlias a plink
      end) (Page.Aliases pg)) (Site.Pages (site w)).

Definition ProcessShortcodes : M unit :=
  do w <- get;
  forEach (λ p,
    run update p (λ pg,
          Page.with_Content (ShortcodesHandle E (Page.Content pg) pg (Site.Tmpl (site w))) pg);
    update p (λ pg,
          Page.with_Summary (ShortcodesHandle E (Page.Summary pg) pg (Site.Tmpl (site w))) pg))
    (Site.Pages (site w)).

(** The body of the loop of [RenderPages]. *)
Definition renderPage (p : ptr) : M error :=
  do pg <- deref p;
  if negb (IsRenderable E pg) then
    let self := "__" ++ TargetPath E pg in
    match ParseTemplate E self (Page.Content pg) with
    | Some msg => ret (Some msg)
    | None =>
        run modify (set_site (λ s,
              Site.with_Tmpl (<[self := Page.Content pg]> (Site.Tmpl s)) s));
        render (RPage p) (TargetPath E pg) [self]
    end
  else
    render (RPage p) (TargetPath E pg) (Layout E pg ++ ["_default/single.html"])%list.

Definition RenderPages : M error :=
  do w <- get;
  forErr renderPage (Site.Pages (site w)).

(** [o[0].Date] *)
Definition firstDate (o : list ptr) : M Time :=
  match o with
  | [] => panic IndexOutOfRange
  | p :: _ => do pg <- deref p; ret (Page.Date pg)
  end.

(** [if a := s.Tmpl.Lookup("rss.xml"); a != nil { ... }] *)
Definition hasTemplate (name : string) : M bool :=
  do w <- get; ret (bool_decide (is_Some (Site.Tmpl (site w) !! name))).

(** The body of the inner loop of [RenderIndexes]. *)
Definition renderTerm (singular plural : string) (entry : string * list ptr) : M error :=
  let '(k, o) := entry in
  do w <- get;
  let n := Node.with_Title (TitleCase E k) (NewNode (site w)) in
  let url := Urlize E (plural ++ "/" ++ k) in
  let n := Node.with_Url (url ++ ".html") n in
  do plink <- permalink (Node.Url n);
  let n := Node.with_Permalink plink n in
  do rss <- permalink (url ++ ".xml");
  let n := Node.with_RSSlink rss n in
  do date <- firstDate o;
  let n := Node.with_Date date n in
  let n := Node.set_Data singular (DPages o) n in
  let n := Node.set_Data "Pages" (DPages o) n in
  let layout := "indexes/" ++ singular ++ ".html" in
  let base := plural ++ "/" ++ k in
  check render (RNode n) (base ++ ".html") [layout];
  do feed <- hasTemplate "rss.xml";
  if feed then
    let n := Node.with_Url (Urlize E (plural ++ "/" ++ k ++ ".xml")) n in
    do plink' <- permalink (Node.Url n);
    let n := Node.with_Permalink plink' n in
    check render (RNode n) (base ++ ".xml") ["rss.xml"];
    ret None
  else ret None.

Definition RenderIndexes : M error :=
  do w <- get;
  forErr (λ field : string * string,
    do w' <- get;
    forErr (renderTerm (fst field) (snd field))
      (rangeMap E (default ∅ (Site.Indexes (site w') !! snd field))))
    (rangeMap E (Config.Indexes (Site.Config (site w)))).

(** The body of the loop of [RenderIndexesIndexes]. *)
Definition renderField (layout : string) (field : string * string) : M error :=
  let '(singular, plural) := field in
  do w <- get;
  let n := Node.with_Title (TitleCase E plural) (NewNode (site w)) in
  let url := Urlize E plural in
  let n := Node.with_Url (url ++ "/index.html") n in
  do plink <- permalink (Node.Url n);
  let n := Node.with_Permalink plink n in
  let n := Node.set_Data "Singular" (DString singular) n in
  let n := Node.set_Data "Plural" (DString plural) n in
  let n := Node.set_Data "Index" (DIndex (default ∅ (Site.Indexes (site w) !! plural))) n in
  let n := Node.set_Data "OrderedIndex"
             (DOrdered (default [] (SiteInfo.Indexes (Site.Info (site w)) !! plural))) n in
  render (RNode n) (plural ++ "/index.html") [layout].

Definition RenderIndexesIndexes : M error :=
  let layout := "indexes/indexes.html" in
  do present <- hasTemplate layout;
  if present then
    do w <- get;
    forErr (renderField layout) (rangeMap E (Config.Indexes (Site.Config (site w))))
  else ret None.

(** The body of the loop of [RenderLists]. *)
Definition renderSection (entry : string * list ptr) : M error :=
  let '(section, data) := entry in
  do w <- get;
  let n := Node.with_Title (TitleCase E (Pluralize E section)) (NewNode (site w)) in
  let n := Node.with_Url (Urlize E (section ++ "/" ++ "index.html")) n in
  do plink <- permalink (Node.Url n);
  let n := Node.with_Permalink plink n in
  do rss <- permalink (section ++ ".xml");
  let n := Node.with_RSSlink rss n in
  do date <- firstDate data;
  let n := Node.with_Date date n in
  let n := Node.set_Data "Pages" (DPages data) n in
  let layout := "indexes/" ++ section ++ ".html" in
  check render (RNode n) section [layout; "_default/indexes.html"];
  do feed <- hasTemplate "rss.xml";
  if feed then
    let n := Node.with_Url (Urlize E (section ++ ".xml")) n in
    let n := Node.with_Permalink (SiteInfo.BaseUrl (Node.Site n) ++ Node.Url n) n in
    check render (RNode n) (section ++ ".xml") ["rss.xml"];
    ret None
  else ret None.

Definition RenderLists : M error :=
  do w <- get;
  forErr renderSection (rangeMap E (Site.Sections (site w))).

(** The node [RenderHomePage] builds before it renders "index.html". *)
Definition homeNode : M Node.t :=
  do w <- get;
  let n := NewNode (site w) in
  let n := Node.with_Title (SiteInfo.Title (Node.Site n)) n in
  let n := Node.with_Url (Urlize E (SiteInfo.BaseUrl (Node.Site n))) n in
  do rss <- permalink "index.xml";
  let n := Node.with_RSSlink rss n in
  do plink <- permalink "";
  let n := Node.with_Permalink plink n in
  match Site.Pages (site w) with
  | [] => ret n
  | first :: _ =>
      do pg <- deref first;
      let n := Node.with_Date (Page.Date pg) n in
      if (length (Site.Pages (site w)) <? 9)%nat then
        ret (Node.set_Data "Pages" (DPages (Site.Pages (site w))) n)
      else
        ret (Node.set_Data "Pages" (DPages (take 9 (Site.Pages (site w)))) n)
  end.

(** The feed of the home page; the node is changed in place, so the
    changed node is handed on. *)
Definition homeFeed (n : Node.t) : M (error * Node.t) :=
  do feed <- hasTemplate "rss.xml";
  if feed then
    let n := Node.with_Url (Urlize E "index.xml") n in
    let n := Node.with_Title "Recent Content" n in
    do plink <- permalink "index.xml";
    let n := Node.with_Permalink plink n in
    do err <- render (RNode n) ".xml" ["rss.xml"];
    ret (err, n)
  else ret (None, n).

Definition RenderHomePage : M error :=
  do n <- homeNode;
  check render (RNode n) "/" ["index.html"];
  do fed <- homeFeed n;
  match fst fed with
  | Some msg => ret (Some msg)
  | None =>
      do missing <- hasTemplate "404.html";
      if missing then
        let n := Node.with_Url (Urlize E "404.html") (snd fed) in
        let n := Node.with_Title "404 Page not found" n in
        do plink <- permalink "404.html";
        render (RNode (Node.with_Permalink plink n)) "404.html" ["404.html"]
      else ret None
  end.

Definition Render : M error :=
  check RenderAliases;
  run timerStep "render and write aliases";
  run ProcessShortcodes;
  run timerStep "render shortcodes";
  run timerStep "absolute URLify";
  check RenderIndexes;
  run timerStep "render and write indexes";
  do _ <- RenderIndexesIndexes;
  run timerStep "render & write index indexes";
  check RenderLists;
  run timerStep "render and write lists";
  check RenderPages;
  run timerStep "render and write pages";
  check RenderHomePage;
  run timerStep "render and write homepage";
  ret None.

Definition Build : M error :=
  check Process E;
  do err <- Render;
  match err with
  | Some msg =>
      run say (EvStdout ("Error rendering site: " ++ msg ++ nl ++ "Available templates:" ++ nl));
      do w <- get;
      run forEach (λ entry : string * string, say (EvStdout (tab ++ fst entry ++ nl)))
            (rangeMap E (Site.Tmpl (site w)));
      ret (Some msg)
  | None => ret None
  end.

End Rendering.

(** ** Auxiliary definitions of the statements *)

(** What [linkPage] makes of the page at index [i]. *)
Definition linked (pages : list ptr) (i : nat) (pg : Page.t) : Page.t :=
  let pg1 := if (i <? length pages - 1)%nat
             then Page.with_Next (pages !! (i + 1)) pg else pg in
  if (0 <? i)%nat then Page.with_Prev (pages !! (i - 1)) pg1 else pg1.


(** [Pages.Sort] is a permutation of the slice it is given. *)
Definition SortPermutes (E : Env) : Prop :=
  ∀ (h : list Page.t) (l : list ptr), SortPages E h l ≡ₚ l.

(** The pages of the collection are distinct and are in the heap. *)
Definition DistinctLive (w : World) : Prop :=
  NoDup (Site.Pages (site w)) ∧ ∀ p, p ∈ Site.Pages (site w) → is_Some (heap w !! p).

(** The events that execute a template or write to the destination. *)
Definition rendersOrPublishes (e : Event) : bool :=
  match e with
  | EvExec _ _ | EvPublish _ _ | EvAlias _ _ => true
  | _ => false
  end.

(** The paths handed to [Target.Publish], oldest first. *)
Definition published (w : World) : list string :=
  omap (λ e, match e with EvPublish path _ => Some path | _ => None end) (log w).

(** ** A small site to run the model on *)

Definition dateAt (h : list Page.t) (p : ptr) : Time :=
  default zeroTime (Page.Date <$> h !! p).

Fixpoint insertByDate (h : list Page.t) (p : ptr) (l : list ptr) : list ptr :=
  match l with
  | [] => [p]
  | q :: rest =>
      if (dateAt h q <=? dateAt h p)%Z then p :: q :: rest
      else q :: insertByDate h p rest
  end.

(** Newest first. *)
Definition sortByDate (h : list Page.t) (l : list ptr) : list ptr :=
  foldr (insertByDate h) [] l.

(** The pages of the sample: the contents name the kind of page. *)
Definition samplePage (contents name : string) : Page.t :=
  Page.mk name "" contents "" "" ""
    (String.eqb contents "draft")
    (Z.of_nat (String.length name))
    (if String.eqb contents "scalar" then {[ "tags" := VString "solo" ]}
     else {[ "tags" := VStrings ["go"; contents] ]})
    (if String.eqb contents "moved" then ["old/" ++ name] else [])
    None None SiteInfo.zero.

Definition sampleRead (contents name : string) : Page.t + string :=
  if String.eqb contents "bad" then inr ("cannot parse " ++ name)
  else inl (samplePage contents name).

Definition sampleEnv (dirs : string → bool) (files : list File.t) (tm : Templates)
    (exec : string → string * error) (chain : string → string * error)
    (publish : string → error) : Env := {|
  GetAbsPath := λ _ p, "/site/" ++ p;
  dirExists := dirs;
  FilesystemFiles := λ _ _, files;
  LoadTemplates := λ dir, if dirs dir then tm else ∅;
  ParseTemplate := λ _ _, None;
  ExecuteTemplate := λ _ _ layout _, exec layout;
  ApplyChain := λ _ _ input, chain input;
  TargetPublish := λ _ path _, publish path;
  AliasPublish := λ _ _ _, None;
  ReadFrom := sampleRead;
  SortPages := sortByDate;
  GetParam := λ pg key, Page.Params pg !! key;
  IsRenderable := λ _, true;
  TargetPath := λ pg, Page.FileName pg ++ ".html";
  Layout := λ pg, [Page.Section_ pg ++ "/single.html"];
  PagePermalink := λ pg, ("http://base/" ++ Page.FileName pg ++ ".html", None);
  RelPermalink := λ pg, ("/" ++ Page.FileName pg ++ ".html", None);
  ShortcodesHandle := λ text _ _, text;
  Urlize := λ s, s;
  TitleCase := λ s, s;
  Pluralize := λ s, s ++ "s";
  UrlParse := λ _, None;
  ResolveReference := λ base path, base ++ "/" ++ path;
  BuildOrderedIndexList := λ il, map_to_list <$> il;
  mapOrder := λ keys, keys
|}.

Definition allDirs : string → bool := λ _, true.
Definition execOk (layout : string) : string * error := ("<" ++ layout ++ ">", None).
Definition chainOk (input : string) : string * error := (input, None).
Definition publishOk : string → error := λ _, None.

Definition sampleConfig (verbose drafts : bool) : Config.t :=
  Config.mk "http://base" "Sample" "layouts" "content" "public" "static"
    {[ "tag" := "tags" ]} drafts verbose false.

(** A [Site] as a caller creates it: the configuration and, perhaps, a
    source of its own. *)
Definition newSite (cfg : Config.t) (src : option Input) : Site.t :=
  Site.mk cfg [] ∅ ∅ src ∅ SiteInfo.zero None None.

Definition newWorld (cfg : Config.t) (src : option Input) : World :=
  mkWorld (newSite cfg src) [] [].

Definition sampleFile (contents name : string) : File.t :=
  File.mk contents name "post" "post".

Definition sampleTemplates : Templates :=
  {[ "index.html" := "home"; "_default/single.html" := "single";
     "_default/indexes.html" := "list"; "indexes/tag.html" := "term" ]}.

(** Three linked-up candidates for [setupPrevNext]. *)
Definition threePages : World :=
  mkWorld (Site.with_Pages [2; 0; 1] (newSite (sampleConfig false false) None))
    [Page.mk "a" "" "" "" "" "" false 1 ∅ [] None None SiteInfo.zero;
     Page.mk "b" "" "" "" "" "" false 2 ∅ [] None None SiteInfo.zero;
     Page.mk "c" "" "" "" "" "" false 3 ∅ [] None None SiteInfo.zero]
    [].

(** A template set that holds the home page layout and nothing else. *)
Definition onlyHome : Templates := {[ "index.html" := "home" ]}.

Definition oneFile : list File.t := [sampleFile "hello" "first"].

(** One post, every directory in place, only "index.html" to render with. *)
Definition bareEnv : Env :=
  sampleEnv allDirs oneFile onlyHome execOk chainOk publishOk.

(** One post handed in by the caller, the layouts in place, and no
    content directory. *)
Definition noContentDirEnv : Env :=
  sampleEnv (λ d, negb (String.eqb d "/site/content")) [] sampleTemplates
    execOk chainOk publishOk.

(** One post in the content directory and no layout directory. *)
Definition noLayoutDirEnv : Env :=
  sampleEnv (λ d, negb (String.eqb d "/site/layouts")) oneFile sampleTemplates
    execOk chainOk publishOk.

(** A destination that refuses "tags/index.html", with the layout of the
    index of indexes in place. *)
Definition fullDiskEnv : Env :=
  sampleEnv allDirs oneFile (<["indexes/indexes.html" := "all"]> sampleTemplates)
    execOk chainOk
    (λ path, if String.eqb path "tags/index.html" then Some "disk full" else None).

(** A home page template that fails half way. *)
Definition brokenTemplateEnv : Env :=
  sampleEnv allDirs oneFile sampleTemplates
    (λ layout, if String.eqb layout "index.html"
               then ("<ht", Some "template: boom") else execOk layout)
    chainOk publishOk.

(** A transformer chain that fails. *)
Definition brokenChainEnv : Env :=
  sampleEnv allDirs oneFile sampleTemplates execOk
    (λ _, ("", Some "transform failed")) publishOk.

(** A site whose templates are loaded and that has no page yet. *)
Definition readyWorld : World :=
  mkWorld (Site.with_Tmpl sampleTemplates (newSite (sampleConfig false false) None)) [] [].

(** ** BuildSiteMeta as a function

    What [BuildSiteMeta] computes, read off its loops: the heap is only
    read until the last loop, so every step is a function of the index
    family built so far. *)

(** One page's contribution to the index of [plural]. *)
Definition indexStep (E : Env) (h : list Page.t) (plural : string)
    (il : IndexList) (p : ptr) : IndexList :=
  match h !! p with
  | Some pg =>
      match GetParam E pg plural with
      | Some (VStrings v) =>
          alter (λ idx, foldl (λ acc key, IndexAdd key p acc) idx v) plural il
      | _ => il
      end
  | None => il
  end.

(** One page's diagnostic for [plural]. *)
Definition diagOf (E : Env) (h : list Page.t) (plural : string) (loud : bool)
    (p : ptr) : list Event :=
  match h !! p with
  | Some pg =>
      match GetParam E pg plural with
      | None | Some (VStrings _) => []
      | Some _ =>
          if loud then [EvStderr ("Invalid " ++ plural ++ " in " ++ Page.FileName pg ++ nl)]
          else []
      end
  | None => []
  end.

(** One round of the outer loop. *)
Definition fieldStep (E : Env) (h : list Page.t) (pages : list ptr)
    (il : IndexList) (entry : string * string) : IndexList :=
  alter (sortIndex E h) (snd entry)
    (foldl (indexStep E h (snd entry)) (<[snd entry := ∅]> il) pages).

Definition fieldDiag (E : Env) (h : list Page.t) (pages : list ptr) (loud : bool)
    (entry : string * string) : list Event :=
  flat_map (diagOf E h (snd entry) loud) pages.

Definition builtIndexes (E : Env) (w : World) : IndexList :=
  foldl (fieldStep E (heap w) (Site.Pages (site w))) ∅
    (rangeMap E (Config.Indexes (Site.Config (site w)))).

Definition builtDiag (E : Env) (w : World) : list Event :=
  flat_map (fieldDiag E (heap w) (Site.Pages (site w)) (verbose w))
    (rangeMap E (Config.Indexes (Site.Config (site w)))).

Definition sectionStep (h : list Page.t) (secs : Index) (p : ptr) : Index :=
  match h !! p with
  | Some pg => IndexAdd (Page.Section_ pg) p secs
  | None => secs
  end.

Definition builtSections (E : Env) (w : World) : Index :=
  sortIndex E (heap w) (foldl (sectionStep (heap w)) ∅ (Site.Pages (site w))).

Definition builtInfo (E : Env) (w : World) : SiteInfo.t :=
  let info := SiteInfo.with_Indexes (BuildOrderedIndexList E (builtIndexes E w))
                (Site.Info (site w)) in
  match Site.Pages (site w) with
  | [] => info
  | first :: _ => SiteInfo.with_LastChange (dateAt (heap w) first) info
  end.

Definition builtSite (E : Env) (w : World) : Site.t :=
  Site.with_Info (builtInfo E w)
    (Site.with_Sections (builtSections E w)
       (Site.with_Indexes (builtIndexes E w) (site w))).

(** A world with another index family and more on its trace. *)
Definition withIndexes (il : IndexList) (extra : list Event) (w : World) : World :=
  mkWorld (Site.with_Indexes il (site w)) (heap w) (log w ++ extra).

Definition withSections (secs : Index) (w : World) : World :=
  mkWorld (Site.with_Sections secs (site w)) (heap w) (log w).

(** Every collection of every index of the family satisfies [Q], which
    may depend on the field. *)
Definition IndexesAll (Q : string → list ptr → Prop) (il : IndexList) : Prop :=
  ∀ plural idx key o, il !! plural = Some idx → idx !! key = Some o → Q plural o.

(** A diagnostic on standard error. *)
Definition isDiagnostic (e : Event) : Prop := ∃ text, e = EvStderr text.

(** Two pages in the "post" section, the first with a single string where
    the tags should be; verbose mode is on. *)
Definition scalarWorld : World :=
  mkWorld (Site.with_Pages [0; 1] (newSite (sampleConfig true false) None))
    [Page.with_file "post" "post" (samplePage "scalar" "a");
     Page.with_file "post" "post" (samplePage "hello" "bb")]
    [].

(** ** Safety of the first-element reads *)

(** The site has this index family and this section index. *)
Definition keeps (il : IndexList) (secs : Index) (w : World) : Prop :=
  Site.Indexes (site w) = il ∧ Site.Sections (site w) = secs.

(** How a run ends: it returns a world that satisfies [I], or it stops
    on a panic that [allowed] lets through. *)
Definition Ends {A} (allowed : Panic → Prop) (I : World → Prop) (r : Res A) : Prop :=
  match r with
  | Ret _ w' => I w'
  | Crash p _ => allowed p
  end.

(** The run did not stop on an index out of range. *)
Definition notOutOfRange (p : Panic) : Prop := p ≠ IndexOutOfRange.

Abbreviation Safe I r := (Ends notOutOfRange I r).

(** The run returned. *)
Definition never (p : Panic) : Prop := False.

Abbreviation Runs I r := (Ends never I r).

Definition noOutOfRange {A} (r : Res A) : Prop :=
  match r with
  | Crash IndexOutOfRange _ => False
  | _ => True
  end.

(** ** A site without pages *)



(** Every URL parses; no template fails. *)
Definition UrlsParse (E : Env) : Prop := ∀ u, UrlParse E u = None.

Definition TemplatesRun (E : Env) : Prop :=
  ∀ tm h layout d, snd (ExecuteTemplate E tm h layout d) = None.




(** ** transform.AbsURL

    Modelled from the spec: the absolute-URL rewriter is in the package
    [transform], of which the sources at hand hold the test and not the
    code.  "Scans the document for src and href attributes whose value is
    a relative path (no scheme, no authority) and rewrites it to an
    absolute URL by resolving it against the site's base URL; values that
    already carry a scheme/authority are left untouched, byte-for-byte",
    where resolving is "base + path".  The test feeds attributes in single
    and in double quotes and expects double quotes back, so an attribute is
    read with either quote and written with the double one. *)

Definition dquote : ascii := ascii_of_nat 34.
Definition squote : ascii := ascii_of_nat 39.
Definition dq : string := String dquote "".

Definition inRange (lo hi : nat) (c : ascii) : bool :=
  (lo <=? nat_of_ascii c)%nat && (nat_of_ascii c <=? hi)%nat.

Definition isAlpha (c : ascii) : bool := inRange 65 90 c || inRange 97 122 c.
Definition isDigit (c : ascii) : bool := inRange 48 57 c.

(** The characters of a URL scheme after the first. *)
Definition isSchemeChar (c : ascii) : bool :=
  isAlpha c || isDigit c || Ascii.eqb c "+" || Ascii.eqb c "-" || Ascii.eqb c ".".

Fixpoint schemeEnds (s : string) : bool :=
  match s with
  | EmptyString => false
  | String c rest =>
      if Ascii.eqb c ":" then true
      else if isSchemeChar c then schemeEnds rest else false
  end.

(** The value starts with a scheme: a letter, scheme characters, a colon. *)
Definition hasScheme (v : string) : bool :=
  match v with
  | EmptyString => false
  | String c rest => isAlpha c && schemeEnds rest
  end.

(** The value starts with an authority: two slashes. *)
Definition hasAuthority (v : string) : bool := String.prefix "//" v.

Fixpoint dropLastSlash (s : string) : string :=
  match s with
  | EmptyString => EmptyString
  | String c EmptyString => if Ascii.eqb c "/" then EmptyString else s
  | String c rest => String c (dropLastSlash rest)
  end.

Definition dropFirstSlash (s : string) : string :=
  match s with
  | String c rest => if Ascii.eqb c "/" then rest else s
  | EmptyString => s
  end.

(** "base + path", with one slash between the two. *)
Definition resolveRelative (base path : string) : string :=
  dropLastSlash base +:+ "/" +:+ dropFirstSlash path.

Definition absURL (base v : string) : string :=
  if hasScheme v || hasAuthority v then v else resolveRelative base v.

(** The pieces a document falls into: a character that is copied, an
    attribute [name=q value q], and what is left when the scan is cut
    short. *)
Inductive Segment :=
| Chr (c : ascii)
| Attr (name : string) (q : ascii) (value : string)
| Raw (s : string).

Fixpoint stripPrefix (p s : string) : option string :=
  match p, s with
  | EmptyString, _ => Some s
  | String a p', String b s' => if Ascii.eqb a b then stripPrefix p' s' else None
  | String _ _, EmptyString => None
  end.

(** The text up to the first [q] and the text after it. *)
Fixpoint splitQuote (q : ascii) (s : string) : option (string * string) :=
  match s with
  | EmptyString => None
  | String c rest =>
      if Ascii.eqb c q then Some (EmptyString, rest)
      else match splitQuote q rest with
           | Some (v, after) => Some (String c v, after)
           | None => None
           end
  end.

Definition isQuote (c : ascii) : bool := Ascii.eqb c dquote || Ascii.eqb c squote.

Definition quotedAfter (name : string) (s : string) : option (Segment * string) :=
  match stripPrefix (name +:+ "=") s with
  | Some (String q rest) =>
      if isQuote q then
        match splitQuote q rest with
        | Some (v, after) => Some (Attr name q v, after)
        | None => None
        end
      else None
  | _ => None
  end.

(** A src or href attribute at the head of [s]. *)
Definition attrAt (s : string) : option (Segment * string) :=
  match quotedAfter "src" s with
  | Some found => Some found
  | None => quotedAfter "href" s
  end.

Definition isSpace (c : ascii) : bool :=
  Ascii.eqb c " " || inRange 9 13 c.

(** The scan: an attribute is looked for after white space. *)
Fixpoint segments (fuel : nat) (afterSpace : bool) (s : string) : list Segment :=
  match fuel with
  | O => [Raw s]
  | S fuel' =>
      match (if afterSpace then attrAt s else None) with
      | Some (seg, after) => seg :: segments fuel' false after
      | None =>
          match s with
          | EmptyString => []
          | String c rest => Chr c :: segments fuel' (isSpace c) rest
          end
      end
  end.

Definition segmentText (seg : Segment) : string :=
  match seg with
  | Chr c => String c EmptyString
  | Attr name q v => name +:+ "=" +:+ String q (v +:+ String q EmptyString)
  | Raw s => s
  end.

Definition rewriteSegment (base : string) (seg : Segment) : string :=
  match seg with
  | Attr name _ v => name +:+ "=" +:+ dq +:+ absURL base v +:+ dq
  | _ => segmentText seg
  end.

Definition joinText (l : list string) : string := foldr String.append EmptyString l.

(** [AbsURL{BaseURL}.Apply]: one step of the scan per character is
    enough. *)
Definition AbsURL_Apply (BaseURL : string) (doc : string) : string :=
  joinText (rewriteSegment BaseURL <$> segments (S (String.length doc)) false doc).

(** An attribute in double quotes whose value has a scheme or an
    authority. *)
Definition alreadyAbsolute (seg : Segment) : Prop :=
  match seg with
  | Attr _ q v => q = dquote ∧ (hasScheme v = true ∨ hasAuthority v = true)
  | _ => True
  end.

(** The documents of [TestAbsUrlify]. *)
Definition H5_JS_CONTENT_DOUBLE_QUOTE : string :=
  "<!DOCTYPE html><html><head><script src=" +:+ dq +:+ "foobar.js" +:+ dq +:+
  "></script></head><body><nav><h1>title</h1></nav><article>content <a href='/foobar'>foobar</a>. Follow up</article></body></html>".

Definition H5_JS_CONTENT_SINGLE_QUOTE : string :=
  "<!DOCTYPE html><html><head><script src='foobar.js'></script></head><body><nav><h1>title</h1></nav><article>content <a href='/foobar'>foobar</a>. Follow up</article></body></html>".

Definition H5_JS_CONTENT_ABS_URL : string :=
  "<!DOCTYPE html><html><head><script src=" +:+ dq +:+ "http://user@host:10234/foobar.js"
  +:+ dq +:+ "></script></head><body><nav><h1>title</h1></nav><article>content <a href="
  +:+ dq +:+ "https://host/foobar" +:+ dq +:+
  ">foobar</a>. Follow up</article></body></html>".

Definition CORRECT_OUTPUT_SRC_HREF : string :=
  "<!DOCTYPE html><html><head><script src=" +:+ dq +:+ "http://base/foobar.js" +:+ dq +:+
  "></script></head><body><nav><h1>title</h1></nav><article>content <a href=" +:+ dq +:+
  "http://base/foobar" +:+ dq +:+ ">foobar</a>. Follow up</article></body></html>".

(** The attributes of the claim, both in double quotes. *)
Definition relativeDoc : string :=
  "<script src=" +:+ dq +:+ "foobar.js" +:+ dq +:+ "></script><a href=" +:+ dq +:+
  "/foobar" +:+ dq +:+ ">foobar</a>".

Definition relativeDocAbs : string :=
  "<script src=" +:+ dq +:+ "http://base/foobar.js" +:+ dq +:+ "></script><a href=" +:+ dq +:+
  "http://base/foobar" +:+ dq +:+ ">foobar</a>".

(** ** More of site.go *)

Fixpoint inStringArray (arr : list string) (el : string) : bool :=
  match arr with
  | [] => false
  | v :: rest => if String.eqb v el then true else inStringArray rest el
  end.

(** The inner loop of [possibleIndexes]: the keys of one page's [Params]. *)
Definition addKeys (indexes : list string) (keys : list string) : list string :=
  foldl (λ acc k, if inStringArray acc k then acc else (acc ++ [k])%list) indexes keys.

Section MoreMethods.
Context (E : Env).

Fixpoint collectIndexes (pages : list ptr) (indexes : list string) : M (list string) :=
  match pages with
  | [] => ret indexes
  | p :: rest =>
      do pg <- deref p;
      collectIndexes rest (addKeys indexes (fst <$> rangeMap E (Page.Params pg)))
  end.

Definition possibleIndexes : M (list string) :=
  do w <- get; collectIndexes (Site.Pages (site w)) [].

Definition checkDescriptions : M unit :=
  do w <- get;
  forEach (λ p,
    do pg <- deref p;
    when (String.length (Page.Description pg) <? 60)%nat
      (say (EvStdout (Page.FileName pg ++ " " ++ nl))))
    (Site.Pages (site w)).

End MoreMethods.

(** ** Auxiliary definitions of the further statements *)

(** The target [initTarget] leaves in place. *)
Definition targetOf (E : Env) (s : Site.t) : Output :=
  default (FilesystemTarget (absPublishDir E s) (Config.UglyUrls (Site.Config s)))
          (Site.Target s).

(** The alias publisher [WriteAlias] leaves in place. *)
Definition aliasOf (E : Env) (s : Site.t) : AliasPublisher :=
  default (HTMLRedirectAlias (absPublishDir E s)) (Site.Alias s).

(** What verbose mode prints before a publish. *)
Definition announce (w : World) (path : string) : list Event :=
  if verbose w then [EvStdout (path ++ nl)] else [].

(** The redirects handed to [Alias.Publish], oldest first. *)
Definition aliased (w : World) : list (string * string) :=
  omap (λ e, match e with EvAlias path plink => Some (path, plink) | _ => None end) (log w).

(** The redirects of one page. *)
Definition aliasesOf (E : Env) (h : list Page.t) (p : ptr) : list (string * string) :=
  match h !! p with
  | Some pg => (λ a, (a, fst (PagePermalink E pg))) <$> Page.Aliases pg
  | None => []
  end.

(** A [range] over a map visits every key. *)
Definition VisitsAll (E : Env) : Prop := ∀ l : list string, l ⊆ mapOrder E l.

(** The page [CreatePages] makes of a file. *)
Definition pageOf (E : Env) (info : SiteInfo.t) (f : File.t) : option Page.t :=
  match ReadFrom E (File.Contents f) (File.LogicalName f) with
  | inl pg => Some (Page.with_file (File.Section_ f) (File.Dir f) (Page.with_Site info pg))
  | inr _ => None
  end.

(** The state after the loop of [CreatePages] took one more file that
    parses. *)
Definition takeFile (E : Env) (w : World) (f : File.t) : World :=
  match pageOf E (Site.Info (site w)) f with
  | Some pg =>
      mkWorld
        (if Config.BuildDrafts (Site.Config (site w)) || negb (Page.Draft pg)
         then Site.with_Pages (Site.Pages (site w) ++ [length (heap w)])%list (site w)
         else site w)
        (heap w ++ [pg])%list (log w)
  | None => w
  end.

(** The navigation section [render] gives the transformer chain. *)
Definition navSection (E : Env) (h : list Page.t) (d : Renderable) : string :=
  match d with
  | RPage p => match h !! p with Some pg => fst (RelPermalink E pg) | None => "" end
  | RNode _ => ""
  end.

(** A page to render is in the heap. *)
Definition liveRenderable (h : list Page.t) (d : Renderable) : Prop :=
  match d with
  | RPage p => is_Some (h !! p)
  | RNode _ => True
  end.

(** The site after [WriteAlias]. *)
Definition aliasSite (E : Env) (s : Site.t) : Site.t :=
  match Site.Alias s with
  | Some _ => s
  | None =>
      Site.with_Alias (Some (HTMLRedirectAlias (absPublishDir E s)))
        (Site.with_Target (Some (targetOf E s)) s)
  end.

(** ** More of the sample site *)



(** Two pages that moved, each with one alias. *)
Definition movedWorld : World :=
  mkWorld (Site.with_Pages [0; 1] (newSite (sampleConfig false false) None))
    [samplePage "moved" "a"; samplePage "moved" "b"] [].

(** The pointers the loop of [CreatePages] appends to the collection: one
    for each file that is kept, the files getting the addresses from
    [base] on. *)
Fixpoint keptPointers (E : Env) (info : SiteInfo.t) (drafts : bool) (base : nat)
    (l : list File.t) : list ptr :=
  match l with
  | [] => []
  | f :: rest =>
      (match pageOf E info f with
       | Some pg => if drafts || negb (Page.Draft pg) then [base] else []
       | None => []
       end ++ keptPointers E info drafts (S base) rest)%list
  end.

(** Every file of the list parses. *)
Definition allParse (E : Env) (l : list File.t) : Prop :=
  ∀ f, f ∈ l → ∃ pg, ReadFrom E (File.Contents f) (File.LogicalName f) = inl pg.

(** A draft and a post handed in by the caller. *)
Definition twoFilesWorld : World :=
  newWorld (sampleConfig false false)
    (Some (SuppliedInput [sampleFile "draft" "wip"; sampleFile "hello" "first"])).

(** A post, then a file that does not parse, then another post. *)
Definition badFileEnv : Env :=
  sampleEnv allDirs
    [sampleFile "hello" "first"; sampleFile "bad" "second"; sampleFile "hello" "third"]
    sampleTemplates execOk chainOk publishOk.

(** The sample site after [initialize], every directory being in place. *)
Definition initializedWorld : World :=
  mkWorld (Site.with_Info (SiteInfo.mk "http://base" ∅ zeroTime "Sample")
             (Site.with_Source (Some (Filesystem ["/site/static/"] "/site/content"))
                (newSite (sampleConfig false false) None)))
          [] [].

(** A destination that refuses the home page. *)
Definition homeRefusedEnv : Env :=
  sampleEnv allDirs oneFile sampleTemplates execOk chainOk
    (λ path, if String.eqb path "/" then Some "disk full" else None).

(** ** What a build without failures publishes *)

(** The destination accepts everything. *)
Definition PublishAccepts (E : Env) : Prop :=
  ∀ t path content, TargetPublish E t path content = None.

(** From [w] to [w'] only the target, the alias publisher and the trace
    may have changed. *)
Definition Frame (w w' : World) : Prop :=
  heap w' = heap w
  ∧ Site.Config (site w') = Site.Config (site w)
  ∧ Site.Pages (site w') = Site.Pages (site w)
  ∧ Site.Tmpl (site w') = Site.Tmpl (site w)
  ∧ Site.Indexes (site w') = Site.Indexes (site w)
  ∧ Site.Sections (site w') = Site.Sections (site w)
  ∧ Site.Info (site w') = Site.Info (site w).

(** [out] if one of the candidates is a template, nothing otherwise. *)
Definition pathIf (tm : Templates) (layouts : list string) (out : string) : list string :=
  if decide (findFirstLayout tm layouts = "") then [] else [out].

(** The paths [RenderHomePage] publishes. *)
Definition homePaths (tm : Templates) : list string :=
  (pathIf tm ["index.html"] "/" ++ pathIf tm ["rss.xml"] ".xml"
   ++ pathIf tm ["404.html"] "404.html")%list.

(** The paths [RenderLists] publishes for one section. *)
Definition sectionPaths (tm : Templates) (entry : string * list ptr) : list string :=
  (pathIf tm ["indexes/" +:+ fst entry +:+ ".html"; "_default/indexes.html"] (fst entry)
   ++ pathIf tm ["rss.xml"] (fst entry +:+ ".xml"))%list.

(** The paths [RenderIndexes] publishes for one key of one field. *)
Definition termPaths (tm : Templates) (singular plural : string)
    (entry : string * list ptr) : list string :=
  let base := plural +:+ "/" +:+ fst entry in
  (pathIf tm ["indexes/" +:+ singular +:+ ".html"] (base +:+ ".html")
   ++ pathIf tm ["rss.xml"] (base +:+ ".xml"))%list.

(** The path [RenderPages] publishes for one page that takes a layout. *)
Definition pagePaths (E : Env) (tm : Templates) (h : list Page.t) (p : ptr) : list string :=
  match h !! p with
  | Some pg => pathIf tm (Layout E pg ++ ["_default/single.html"])%list (TargetPath E pg)
  | None => []
  end.

(** The first page of every collection of the index is in the heap. *)
Definition headsLive (h : list Page.t) (idx : Index) : Prop :=
  ∀ key o, idx !! key = Some o → ∃ p rest, o = p :: rest ∧ is_Some (h !! p).

(** The sample layouts with a feed template and the layout of the index
    of indexes. *)
Definition feedTemplates : Templates :=
  <["rss.xml" := "feed"]> (<["indexes/indexes.html" := "all"]> sampleTemplates).

(** Two posts after [BuildSiteMeta]: sorted, indexed under one tag and
    filed under one section. *)
Definition builtWorld : World :=
  mkWorld (Site.mk (sampleConfig false false) [1; 0] feedTemplates
             {[ "tags" := {[ "go" := [1; 0] ]} ]} None {[ "post" := [1; 0] ]}
             SiteInfo.zero None None)
    [Page.with_file "post" "post" (samplePage "hello" "a");
     Page.with_file "post" "post" (samplePage "hello" "bb")]
    [].

(** The line [checkDescriptions] prints for one page. *)
Definition shortDescription (h : list Page.t) (p : ptr) : list Event :=
  match h !! p with
  | Some pg =>
      if (String.length (Page.Description pg) <? 60)%nat
      then [EvStdout (Page.FileName pg +:+ " " +:+ nl)] else []
  | None => []
  end.

(** A page after [ProcessShortcodes]: the content is expanded first, and
    the summary is expanded on the page that already has the new
    content. *)
Definition shortcoded (E : Env) (tm : Templates) (pg : Page.t) : Page.t :=
  let pg' := Page.with_Content (ShortcodesHandle E (Page.Content pg) pg tm) pg in
  Page.with_Summary (ShortcodesHandle E (Page.Summary pg') pg' tm) pg'.

(** The heap after [ProcessShortcodes] over the pages [l]. *)
Definition shortcodeHeap (E : Env) (tm : Templates) (l : list ptr)
    (h : list Page.t) : list Page.t :=
  foldl (λ h p, match h !! p with
                | Some pg => <[p := shortcoded E tm pg]> h
                | None => h
                end) h l.

(** A site whose caller supplies the files. *)
Definition suppliedWorld : World :=
  newWorld (sampleConfig false false) (Some (SuppliedInput [sampleFile "hello" "mine"])).

(** [E] with other renderable pages and another URL parser. *)
Definition withParsers (renderable : Page.t → bool) (parse : string → error)
    (E : Env) : Env :=
  mkEnv (GetAbsPath E) (dirExists E) (FilesystemFiles E) (LoadTemplates E)
    (ParseTemplate E) (ExecuteTemplate E) (ApplyChain E) (TargetPublish E)
    (AliasPublish E) (ReadFrom E) (SortPages E) (GetParam E) renderable
    (TargetPath E) (Layout E) (PagePermalink E) (RelPermalink E) (ShortcodesHandle E)
    (Urlize E) (TitleCase E) (Pluralize E) parse (ResolveReference E)
    (BuildOrderedIndexList E) (mapOrder E).

(** Every page is its own template. *)
Definition rawEnv : Env := withParsers (λ _, false) (UrlParse bareEnv) bareEnv.

(** A base URL that does not parse. *)
Definition badUrlEnv : Env :=
  withParsers (IsRenderable bareEnv)
    (λ u, if String.eqb u "http://base" then Some "bad base" else None) bareEnv.

(** Ten pages, newest first. *)
Definition tenPages : World :=
  mkWorld (Site.with_Pages [9; 8; 7; 6; 5; 4; 3; 2; 1; 0]
             (newSite (sampleConfig false false) None))
    ((λ name, samplePage "hello" name)
       <$> ["a"; "b"; "c"; "d"; "e"; "f"; "g"; "h"; "i"; "j"])
    [].

(** The alias publisher accepts everything. *)
Definition AliasAccepts (E : Env) : Prop :=
  ∀ a path plink, AliasPublish E a path plink = None.

(** The paths a [Render] without failures publishes, in this order: the
    keys of the indexes, the indexes of the indexes, the sections, the
    pages as they are in the heap [h], and the home page. *)
Definition renderPaths (E : Env) (s : Site.t) (h : list Page.t) : list string :=
  let tm := Site.Tmpl s in
  let fields := rangeMap E (Config.Indexes (Site.Config s)) in
  (flat_map (λ field : string * string,
               flat_map (termPaths tm (fst field) (snd field))
                 (rangeMap E (default ∅ (Site.Indexes s !! snd field)))) fields
   ++ (if bool_decide (is_Some (tm !! "indexes/indexes.html"))
       then (λ field : string * string, snd field +:+ "/index.html") <$> fields
       else [])
   ++ flat_map (sectionPaths tm) (rangeMap E (Site.Sections s))
   ++ flat_map (pagePaths E tm h) (Site.Pages s)
   ++ homePaths tm)%list.

(** Every page of the collection points to its neighbours. *)
Definition Linked (w : World) : Prop :=
  ∀ i p q, Site.Pages (site w) !! i = Some p → Site.Pages (site w) !! S i = Some q →
           Page.Next <$> heap w !! p = Some (Some q)
           ∧ Page.Prev <$> heap w !! q = Some (Some p).

(** Three posts in the content directory. *)
Definition threePostsEnv : Env :=
  sampleEnv allDirs
    [sampleFile "hello" "a"; sampleFile "hello" "bbb"; sampleFile "hello" "cc"]
    sampleTemplates execOk chainOk publishOk.

(** * Properties *)

Ltac monad_unfold :=
  cbv beta iota delta [update deref when orReturn say modify get panic bind ret] in *.

(** ** Prev/Next linkage *)

Lemma Next_linked (pages : list ptr) (i : nat) (pg : Page.t) :
  Page.Next (linked pages i pg) =
  if (i <? length pages - 1)%nat then pages !! (i + 1) else Page.Next pg.
Proof.
  unfold linked. by destruct (i <? length pages - 1)%nat, (0 <? i)%nat.
Qed.

Lemma Prev_linked (pages : list ptr) (i : nat) (pg : Page.t) :
  Page.Prev (linked pages i pg) =
  if (0 <? i)%nat then pages !! (i - 1) else Page.Prev pg.
Proof.
  unfold linked. by destruct (i <? length pages - 1)%nat, (0 <? i)%nat.
Qed.

Lemma deref_valid (p : ptr) (w : World) (pg : Page.t) :
  heap w !! p = Some pg → deref p w = Ret pg w.
Proof. intros H. unfold deref. by rewrite H. Qed.

Lemma update_valid (p : ptr) (f : Page.t → Page.t) (w : World) (pg : Page.t) :
  heap w !! p = Some pg →
  update p f w = Ret tt (set_heap (λ h, <[p := f pg]> h) w).
Proof. intros H. monad_unfold. by rewrite H. Qed.

Lemma linkPage_valid (pages : list ptr) (i : nat) (p : ptr) (w : World) (pg : Page.t) :
  (i < length pages)%nat →
  heap w !! p = Some pg →
  linkPage pages (i, p) w = Ret tt (set_heap (λ h, <[p := linked pages i pg]> h) w).
Proof.
  intros Hi Hp. unfold linkPage, linked.
  destruct (i <? length pages - 1)%nat eqn:Hn.
  - apply Nat.ltb_lt in Hn.
    destruct (lookup_lt_is_Some_2 pages (i + 1)) as [q Hq]; [lia|].
    rewrite Hq. unfold bind at 1. rewrite (update_valid _ _ _ _ Hp).
    destruct (0 <? i)%nat eqn:H0.
    + apply Nat.ltb_lt in H0.
      destruct (lookup_lt_is_Some_2 pages (i - 1)) as [q' Hq']; [lia|].
      rewrite Hq'. erewrite update_valid.
      2:{ simpl. apply list_lookup_insert_eq. by eapply lookup_lt_Some. }
      unfold set_heap. simpl. by rewrite list_insert_insert_eq.
    + done.
  - unfold bind at 1, ret at 1.
    destruct (0 <? i)%nat eqn:H0.
    + apply Nat.ltb_lt in H0.
      destruct (lookup_lt_is_Some_2 pages (i - 1)) as [q' Hq']; [lia|].
      rewrite Hq'. by rewrite (update_valid _ _ _ _ Hp).
    + unfold ret, set_heap. rewrite list_insert_id; [|done]. by destruct w.
Qed.

Lemma forEach_cons {X} (body : X → M unit) (x : X) (l : list X) (w : World) :
  forEach body (x :: l) w =
  match body x w with
  | Ret _ w' => forEach body l w'
  | Crash p w' => Crash p w'
  end.
Proof. reflexivity. Qed.

Lemma forEach_linkPage (pages : list ptr) (l : list (nat * ptr)) (w : World) :
  NoDup (snd <$> l) →
  (∀ i p, (i, p) ∈ l → (i < length pages)%nat ∧ is_Some (heap w !! p)) →
  ∃ h', forEach (linkPage pages) l w = Ret tt (mkWorld (site w) h' (log w))
      ∧ (∀ i p, (i, p) ∈ l → h' !! p = linked pages i <$> heap w !! p)
      ∧ (∀ q, q ∉ snd <$> l → h' !! q = heap w !! q).
Proof.
  revert w. induction l as [|[i p] l IH]; intros w Hnd Hok.
  - exists (heap w). split; [by destruct w|]. split; [|done].
    intros i p Hin. by apply elem_of_nil in Hin.
  - rewrite fmap_cons in Hnd. simpl in Hnd. apply NoDup_cons in Hnd as [Hp Hnd].
    destruct (Hok i p) as [Hi [pg Hpg]]; [left|].
    rewrite forEach_cons, (linkPage_valid _ _ _ _ _ Hi Hpg).
    set (w1 := set_heap (λ h, <[p := linked pages i pg]> h) w).
    assert (Hne : ∀ j q, (j, q) ∈ l → q ≠ p).
    { intros j q Hin ->. apply Hp. apply list_elem_of_fmap. by exists (j, p). }
    destruct (IH w1 Hnd) as (h' & Hrun & Hin' & Hout').
    { intros j q Hin. destruct (Hok j q) as [Hj Hq]; [by right|].
      split; [done|]. simpl. rewrite list_lookup_insert_ne; [done|].
      intros ->. by eapply Hne. }
    exists h'. split; [exact Hrun|]. split.
    + intros j q Hin. apply elem_of_cons in Hin as [[= -> ->]|Hin].
      * rewrite (Hout' _ Hp). simpl. rewrite Hpg. simpl.
        apply list_lookup_insert_eq. by eapply lookup_lt_Some.
      * rewrite (Hin' _ _ Hin). simpl.
        rewrite list_lookup_insert_ne; [done|]. intros ->. by eapply Hne.
    + intros q Hq. rewrite fmap_cons in Hq. simpl in Hq. apply not_elem_of_cons in Hq as [Hqp Hq].
      rewrite (Hout' _ Hq). simpl. by rewrite list_lookup_insert_ne.
Qed.

Lemma snd_imap_pair (l : list ptr) : snd <$> imap pair l = l.
Proof.
  apply list_eq. intros i. rewrite list_lookup_fmap, list_lookup_imap.
  by destruct (l !! i).
Qed.

Lemma elem_of_imap_pair (l : list ptr) (i : nat) (p : ptr) :
  (i, p) ∈ imap pair l ↔ l !! i = Some p.
Proof.
  rewrite elem_of_lookup_imap. split.
  - by intros (j & q & [= -> ->] & H).
  - intros H. by exists i, p.
Qed.

(** C6.  After [setupPrevNext], over a page collection of distinct live
    pages, each page's [Next] is the page after it and each page's [Prev]
    the page before it, and the first page's [Prev] and the last page's
    [Next] are what they were before, unset when they were unset; nothing
    else of the world changes. *)
Theorem setupPrevNext_links (w : World) :
  NoDup (Site.Pages (site w)) →
  (∀ p, p ∈ Site.Pages (site w) → is_Some (heap w !! p)) →
  ∃ w', setupPrevNext w = Ret tt w'
      ∧ site w' = site w ∧ log w' = log w
      ∧ (∀ i p q, Site.Pages (site w) !! i = Some p →
                  Site.Pages (site w) !! S i = Some q →
                  Page.Next <$> heap w' !! p = Some (Some q)
                  ∧ Page.Prev <$> heap w' !! q = Some (Some p))
      ∧ (∀ p, head (Site.Pages (site w)) = Some p →
              Page.Prev <$> heap w' !! p = Page.Prev <$> heap w !! p)
      ∧ (∀ p, last (Site.Pages (site w)) = Some p →
              Page.Next <$> heap w' !! p = Page.Next <$> heap w !! p).
Proof.
  intros Hnd Hlive. set (pages := Site.Pages (site w)) in *.
  destruct (forEach_linkPage pages (imap pair pages) w) as (h' & Hrun & Hin & _).
  { by rewrite snd_imap_pair. }
  { intros i p Hip. apply elem_of_imap_pair in Hip. split.
    - by eapply lookup_lt_Some.
    - apply Hlive. by eapply list_elem_of_lookup_2. }
  exists (mkWorld (site w) h' (log w)). split; [exact Hrun|].
  split; [done|]. split; [done|]. simpl.
  assert (Hat : ∀ i p, pages !! i = Some p →
            ∃ pg, heap w !! p = Some pg ∧ h' !! p = Some (linked pages i pg)).
  { intros i p Hip. destruct (Hlive p) as [pg Hpg]; [by eapply list_elem_of_lookup_2|].
    exists pg. split; [done|]. rewrite (Hin i p); [by rewrite Hpg|].
    by apply elem_of_imap_pair. }
  split; [|split].
  - intros i p q Hp Hq.
    destruct (Hat _ _ Hp) as (pg & _ & ->). destruct (Hat _ _ Hq) as (pg' & _ & ->).
    apply lookup_lt_Some in Hq as Hlt. cbn [fmap option_fmap option_map].
    rewrite Next_linked, Prev_linked.
    replace (i <? length pages - 1)%nat with true by (symmetry; apply Nat.ltb_lt; lia).
    replace (i + 1)%nat with (S i) by lia.
    replace (S i - 1)%nat with i by lia.
    by rewrite Hp, Hq.
  - intros p Hp. rewrite head_lookup in Hp.
    destruct (Hat _ _ Hp) as (pg & -> & ->). cbn [fmap option_fmap option_map].
    by rewrite Prev_linked.
  - intros p Hp. rewrite last_lookup in Hp.
    destruct (Hat _ _ Hp) as (pg & -> & ->). cbn [fmap option_fmap option_map].
    rewrite Next_linked.
    by replace (pred (length pages) <? length pages - 1)%nat with false
      by (symmetry; apply Nat.ltb_ge; lia).
Qed.

Lemma setupPrevNext_links_witness :
  ∃ w', setupPrevNext threePages = Ret tt w'
      ∧ site w' = site threePages ∧ log w' = log threePages
      ∧ (∀ i p q, Site.Pages (site threePages) !! i = Some p →
                  Site.Pages (site threePages) !! S i = Some q →
                  Page.Next <$> heap w' !! p = Some (Some q)
                  ∧ Page.Prev <$> heap w' !! q = Some (Some p))
      ∧ (∀ p, head (Site.Pages (site threePages)) = Some p →
              Page.Prev <$> heap w' !! p = Page.Prev <$> heap threePages !! p)
      ∧ (∀ p, last (Site.Pages (site threePages)) = Some p →
              Page.Next <$> heap w' !! p = Page.Next <$> heap threePages !! p).
Proof.
  apply (setupPrevNext_links threePages).
  - apply (bool_decide_unpack _). vm_compute. exact I.
  - simpl. intros p Hp.
    repeat (apply elem_of_cons in Hp as [->|Hp]; [by eexists|]).
    by apply elem_of_nil in Hp.
Defined.

(** ** Build without source files *)

Lemma initialize_keeps (E : Env) (w : World) :
  ∃ e w1, initialize E w = Ret e w1
        ∧ Site.Config (site w1) = Site.Config (site w)
        ∧ Site.Pages (site w1) = Site.Pages (site w)
        ∧ Site.Target (site w1) = Site.Target (site w)
        ∧ heap w1 = heap w ∧ log w1 = log w.
Proof.
  unfold initialize, initializeSiteInfo. monad_unfold.
  destruct (checkDirectories E (site w));
    do 2 eexists; (split; [reflexivity|]); simpl; auto.
Qed.

(** C5.  When the content source that [initialize] leaves in place yields
    no file (or there is no source at all), [Build] returns the error
    "No source files found in" with the content directory, and all it did
    before was one timer step: no template was executed, nothing was
    published, no page was created. *)
Theorem Build_no_source_files (E : Env) (w : World) (e : error) (w1 : World) :
  initialize E w = Ret e w1 →
  (∀ src, Site.Source (site w1) = Some src → Files E src = []) →
  ∃ w', Build E w =
          Ret (Some (errorfExtra "No source files found in" (absContentDir E (site w)))) w'
      ∧ log w' = (log w ++ [EvTimer "initialize & template prep"])%list
      ∧ filter (λ ev, rendersOrPublishes ev = true) (log w') =
        filter (λ ev, rendersOrPublishes ev = true) (log w)
      ∧ Site.Pages (site w') = Site.Pages (site w)
      ∧ heap w' = heap w.
Proof.
  intros Hinit Hempty.
  destruct (initialize_keeps E w) as (e' & w1' & Hinit' & Hcfg & Hpages & _ & Hheap & Hlog).
  rewrite Hinit in Hinit'. injection Hinit' as <- <-.
  unfold Build, Process, orReturn. unfold bind at 1 2. rewrite Hinit.
  unfold prepTemplates, timerStep, CreatePages. monad_unfold. simpl.
  assert (Hdir : absContentDir E (Site.with_Tmpl
            (LoadTemplates E (absLayoutDir E (site w1))) (site w1))
          = absContentDir E (site w)).
  { unfold absContentDir. simpl. by rewrite Hcfg. }
  rewrite Hdir.
  destruct (Site.Source (site w1)) as [src|] eqn:Hsrc.
  - rewrite (Hempty src eq_refl). simpl.
    eexists. split; [reflexivity|]. simpl. rewrite Hlog, Hpages, Hheap.
    split; [done|]. split; [|done].
    by rewrite filter_app, filter_cons_False, filter_nil, app_nil_r.
  - eexists. split; [reflexivity|]. simpl. rewrite Hlog, Hpages, Hheap.
    split; [done|]. split; [|done].
    by rewrite filter_app, filter_cons_False, filter_nil, app_nil_r.
Qed.

Lemma Build_no_source_files_witness :
  ∃ w', Build (sampleEnv allDirs [] sampleTemplates execOk chainOk publishOk)
          (newWorld (sampleConfig false false) None) =
          Ret (Some "No source files found in%!(EXTRA string=/site/content)") w'
      ∧ log w' = [EvTimer "initialize & template prep"]
      ∧ filter (λ ev, rendersOrPublishes ev = true) (log w') = []
      ∧ Site.Pages (site w') = []
      ∧ heap w' = [].
Proof.
  eapply (Build_no_source_files
            (sampleEnv allDirs [] sampleTemplates execOk chainOk publishOk)
            (newWorld (sampleConfig false false) None)).
  - vm_compute. reflexivity.
  - simpl. intros src [= <-]. reflexivity.
Defined.

(** ** Layout misses *)

Lemma findFirstLayout_miss (tm : Templates) (layouts : list string) :
  (∀ l, l ∈ layouts → tm !! l = None) → findFirstLayout tm layouts = "".
Proof.
  induction layouts as [|l rest IH]; intros Hmiss; [done|].
  simpl. rewrite (Hmiss l); [|left]. apply IH. intros l' Hl'. apply Hmiss. by right.
Qed.

Lemma findFirstLayout_found (tm : Templates) (layouts : list string) :
  findFirstLayout tm layouts ≠ "" → is_Some (tm !! findFirstLayout tm layouts).
Proof.
  induction layouts as [|l rest IH]; [done|]. simpl.
  destruct (tm !! l) eqn:Hl; [by rewrite Hl|done].
Qed.

(** C1, as the code has it.  When none of the candidate layouts of a
    renderable is in the template set, whatever the renderable is,
    [render] returns no error and does nothing but report the miss on
    standard output in verbose mode: no template is executed, nothing is
    published, and the caller goes on. *)
Theorem render_layout_miss (E : Env) (d : Renderable) (out : string)
    (layouts : list string) (w : World) :
  (∀ l, l ∈ layouts → Site.Tmpl (site w) !! l = None) →
  render E d out layouts w =
  Ret None (if verbose w
            then emit (EvStdout ("Unable to locate layout: " ++ showStrings layouts ++ nl)) w
            else w).
Proof.
  intros Hmiss. unfold render. monad_unfold.
  rewrite (findFirstLayout_miss _ _ Hmiss). simpl.
  by destruct (verbose w).
Qed.

Lemma render_layout_miss_witness :
  render bareEnv (RPage 0) "first.html" ["post/single.html"; "_default/single.html"]
    (newWorld (sampleConfig false false) None) =
  Ret None (newWorld (sampleConfig false false) None).
Proof.
  apply (render_layout_miss bareEnv (RPage 0) "first.html"
           ["post/single.html"; "_default/single.html"]
           (newWorld (sampleConfig false false) None)).
  intros l Hl. reflexivity.
Defined.

(** C1, as stated, fails: a content page, its two taxonomy terms and its
    section have no layout among the templates, and [Build] succeeds,
    having published the home page alone. *)
Lemma mandatory_layout_miss_not_fatal :
  ∃ w' pg,
    Build bareEnv (newWorld (sampleConfig false false) None) = Ret None w'
    ∧ Site.Pages (site w') = [0]
    ∧ heap w' !! 0 = Some pg
    ∧ IsRenderable bareEnv pg = true
    ∧ findFirstLayout (Site.Tmpl (site w'))
        (Layout bareEnv pg ++ ["_default/single.html"])%list = ""
    ∧ findFirstLayout (Site.Tmpl (site w')) ["indexes/tag.html"] = ""
    ∧ findFirstLayout (Site.Tmpl (site w')) ["indexes/post.html"; "_default/indexes.html"] = ""
    ∧ dom (Site.Sections (site w')) = {[ "post" ]}
    ∧ published w' = ["/"].
Proof.
  do 2 eexists. split; [vm_compute; reflexivity|].
  repeat split; vm_compute; reflexivity.
Qed.

(** ** Missing directories *)

(** C2 fails on the code: [Process] drops the error of [initialize].
    With the content directory missing and a source supplied by the
    caller, [Build] materializes the page, indexes, renders and publishes
    it and returns no error; with the layout directory missing and no
    source, the error [Build] returns names the content directory. *)
Theorem Build_ignores_missing_directory :
  checkDirectories noContentDirEnv
    (newSite (sampleConfig false false) (Some (SuppliedInput oneFile)))
  = Some "No source directory found, expecting to find it at /site/content"
  ∧ (∃ w', Build noContentDirEnv
             (newWorld (sampleConfig false false) (Some (SuppliedInput oneFile)))
           = Ret None w'
         ∧ Site.Pages (site w') = [0]
         ∧ dom (Site.Sections (site w')) = {[ "post" ]}
         ∧ published w' = ["tags/go.html"; "tags/hello.html"; "post"; "first.html"; "/"])
  ∧ checkDirectories noLayoutDirEnv (newSite (sampleConfig false false) None)
    = Some "No layout directory found, expecting to find it at /site/layouts"
  ∧ (∃ w', Build noLayoutDirEnv (newWorld (sampleConfig false false) None)
           = Ret (Some "No source files found in%!(EXTRA string=/site/content)") w').
Proof.
  split; [vm_compute; reflexivity|]. split.
  - eexists. split; [vm_compute; reflexivity|]. repeat split; vm_compute; reflexivity.
  - split; [vm_compute; reflexivity|]. eexists. vm_compute. reflexivity.
Qed.

(** ** Errors of the render sub-stages *)

(** C3 fails on the code: [Render] drops the result of
    [RenderIndexesIndexes].  The destination refuses "tags/index.html",
    [RenderIndexesIndexes] returns that error, and [Render] goes on with
    the section lists, the pages and the home page and returns no error. *)
Theorem Render_ignores_RenderIndexesIndexes_error :
  ∃ w1 w2 w',
    Process fullDiskEnv (newWorld (sampleConfig false false) None) = Ret None w1
    ∧ RenderIndexesIndexes fullDiskEnv w1 = Ret (Some "disk full") w2
    ∧ Render fullDiskEnv w1 = Ret None w'
    ∧ published w' =
      ["tags/go.html"; "tags/hello.html"; "tags/index.html"; "post"; "first.html"; "/"].
Proof.
  do 3 eexists. split; [vm_compute; reflexivity|].
  split; [vm_compute; reflexivity|].
  split; vm_compute; reflexivity.
Qed.

(** C4 fails on the code.  A template that fails makes the worker of
    [render] panic, which stops the process: the error is not the value of
    the call.  A transformer that fails has its error dropped: [render]
    publishes what came out of it and returns no error. *)
Theorem render_stage_failure_not_returned :
  (∃ w', render brokenTemplateEnv (RNode (NewNode (site readyWorld))) "/" ["index.html"]
           readyWorld = Crash (PanicErr "template: boom") w'
       ∧ published w' = [])
  ∧ (∃ w', render brokenChainEnv (RNode (NewNode (site readyWorld))) "/" ["index.html"]
             readyWorld = Ret None w'
         ∧ log w' = [EvExec "index.html" (RNode (NewNode (site readyWorld)));
                     EvPublish "/" ""]).
Proof.
  split; eexists; (split; [vm_compute; reflexivity|]); vm_compute; reflexivity.
Qed.

(** ** BuildSiteMeta *)

Lemma forErr_cons {X} (body : X → M error) (x : X) (l : list X) (w : World) :
  forErr body (x :: l) w =
  match body x w with
  | Ret (Some msg) w' => Ret (Some msg) w'
  | Ret None w' => forErr body l w'
  | Crash p w' => Crash p w'
  end.
Proof. simpl. unfold bind. destruct (body x w) as [[?|]|]; reflexivity. Qed.

Lemma withIndexes_withIndexes (il il' : IndexList) (e e' : list Event) (w : World) :
  withIndexes il' e' (withIndexes il e w) = withIndexes il' (e ++ e') w.
Proof. unfold withIndexes. simpl. by rewrite app_assoc. Qed.

Lemma withIndexes_id (w : World) : withIndexes (Site.Indexes (site w)) [] w = w.
Proof. destruct w as [[] ? ?]. unfold withIndexes. simpl. by rewrite app_nil_r. Qed.

Lemma indexPage_run (E : Env) (plural : string) (p : ptr) (w : World)
    (il : IndexList) (extra : list Event) :
  is_Some (heap w !! p) →
  indexPage E plural p (withIndexes il extra w) =
  Ret tt (withIndexes (indexStep E (heap w) plural il p)
            (extra ++ diagOf E (heap w) plural (verbose w) p) w).
Proof.
  intros [pg Hpg]. unfold indexPage, indexStep, diagOf. monad_unfold. simpl.
  rewrite Hpg. unfold withIndexes, verbose. simpl.
  destruct (GetParam E pg plural) as [[]|]; simpl;
    try destruct (Config.Verbose (Site.Config (site w))); simpl;
    rewrite ?app_nil_r, ?app_assoc; reflexivity.
Qed.

Lemma forEach_indexPage (E : Env) (plural : string) (l : list ptr) (w : World)
    (il : IndexList) (extra : list Event) :
  (∀ p, p ∈ l → is_Some (heap w !! p)) →
  forEach (indexPage E plural) l (withIndexes il extra w) =
  Ret tt (withIndexes (foldl (indexStep E (heap w) plural) il l)
            (extra ++ flat_map (diagOf E (heap w) plural (verbose w)) l) w).
Proof.
  revert il extra. induction l as [|p l IH]; intros il extra Hlive.
  - simpl. by rewrite app_nil_r.
  - rewrite forEach_cons, indexPage_run by (apply Hlive; left).
    rewrite IH by (intros q Hq; apply Hlive; by right).
    simpl. by rewrite app_assoc.
Qed.

Lemma buildIndex_run (E : Env) (entry : string * string) (w : World)
    (il : IndexList) (extra : list Event) :
  (∀ p, p ∈ Site.Pages (site w) → is_Some (heap w !! p)) →
  buildIndex E entry (withIndexes il extra w) =
  Ret tt (withIndexes (fieldStep E (heap w) (Site.Pages (site w)) il entry)
            (extra ++ fieldDiag E (heap w) (Site.Pages (site w)) (verbose w) entry) w).
Proof.
  intros Hlive. unfold buildIndex, fieldStep, fieldDiag.
  unfold bind at 1. unfold modify at 1.
  change (set_site _ (withIndexes il extra w))
    with (withIndexes (<[snd entry := ∅]> il) extra w).
  unfold bind at 1, get at 1. unfold bind at 1.
  change (Site.Pages (site (withIndexes (<[snd entry := ∅]> il) extra w)))
    with (Site.Pages (site w)).
  rewrite forEach_indexPage by done. reflexivity.
Qed.

Lemma forEach_buildIndex (E : Env) (l : list (string * string)) (w : World)
    (il : IndexList) (extra : list Event) :
  (∀ p, p ∈ Site.Pages (site w) → is_Some (heap w !! p)) →
  forEach (buildIndex E) l (withIndexes il extra w) =
  Ret tt (withIndexes (foldl (fieldStep E (heap w) (Site.Pages (site w))) il l)
            (extra ++ flat_map (fieldDiag E (heap w) (Site.Pages (site w)) (verbose w)) l) w).
Proof.
  intros Hlive. revert il extra. induction l as [|x l IH]; intros il extra.
  - simpl. by rewrite app_nil_r.
  - rewrite forEach_cons, buildIndex_run by done. rewrite IH.
    simpl. by rewrite app_assoc.
Qed.

Lemma forEach_addSection (l : list ptr) (w : World) (secs : Index) :
  (∀ p, p ∈ l → is_Some (heap w !! p)) →
  forEach addSection l (withSections secs w) =
  Ret tt (withSections (foldl (sectionStep (heap w)) secs l) w).
Proof.
  revert secs. induction l as [|p l IH]; intros secs Hlive; [done|].
  rewrite forEach_cons. destruct (Hlive p) as [pg Hpg]; [left|].
  unfold addSection at 1. unfold bind at 1.
  rewrite (deref_valid p _ pg) by exact Hpg. unfold modify.
  change (set_site _ (withSections secs w))
    with (withSections (IndexAdd (Page.Section_ pg) p secs) w).
  rewrite IH by (intros q Hq; apply Hlive; by right).
  cbn [foldl]. replace (sectionStep (heap w) secs p)
    with (IndexAdd (Page.Section_ pg) p secs); [done|].
  unfold sectionStep. by rewrite Hpg.
Qed.

Lemma withSections_id (w : World) : withSections (Site.Sections (site w)) w = w.
Proof. by destruct w as [[] ? ?]. Qed.

Lemma forEach_buildIndex_from (E : Env) (l : list (string * string)) (w : World) :
  (∀ p, p ∈ Site.Pages (site w) → is_Some (heap w !! p)) →
  forEach (buildIndex E) l w =
  Ret tt (withIndexes
            (foldl (fieldStep E (heap w) (Site.Pages (site w))) (Site.Indexes (site w)) l)
            (flat_map (fieldDiag E (heap w) (Site.Pages (site w)) (verbose w)) l) w).
Proof.
  intros Hlive. rewrite <- (withIndexes_id w) at 1.
  by rewrite forEach_buildIndex.
Qed.

Lemma forEach_addSection_from (l : list ptr) (w : World) :
  (∀ p, p ∈ l → is_Some (heap w !! p)) →
  forEach addSection l w =
  Ret tt (withSections (foldl (sectionStep (heap w)) (Site.Sections (site w)) l) w).
Proof.
  intros Hlive. rewrite <- (withSections_id w) at 1.
  by rewrite forEach_addSection.
Qed.

(** The last loop of [BuildSiteMeta]: every page gets the site's info. *)
Lemma forEach_with_Site (info : SiteInfo.t) (l : list ptr) (w : World) :
  (∀ p, p ∈ l → is_Some (heap w !! p)) →
  ∃ h', forEach (λ p, update p (Page.with_Site info)) l w =
          Ret tt (mkWorld (site w) h' (log w))
      ∧ length h' = length (heap w)
      ∧ (∀ p, ∃ i, h' !! p = Page.with_Site i <$> heap w !! p).
Proof.
  revert w. induction l as [|p l IH]; intros w Hlive.
  - exists (heap w). split; [by destruct w|]. split; [done|].
    intros p. destruct (heap w !! p) as [pg|] eqn:Hp.
    + exists (Page.Site pg). by destruct pg.
    + by exists info.
  - destruct (Hlive p) as [pg Hpg]; [left|].
    rewrite forEach_cons, (update_valid _ _ _ _ Hpg).
    destruct (IH (set_heap (λ h, <[p := Page.with_Site info pg]> h) w))
      as (h' & Hrun & Hlen & Hat).
    { intros q Hq. simpl. apply lookup_lt_is_Some. rewrite length_insert.
      apply lookup_lt_is_Some. apply Hlive. by right. }
    exists h'. split; [exact Hrun|]. simpl in Hlen, Hat.
    split; [by rewrite Hlen, length_insert|].
    intros q. destruct (Hat q) as [i Hi]. rewrite Hi.
    destruct (decide (q = p)) as [->|Hne].
    + rewrite list_lookup_insert_eq by (by eapply lookup_lt_Some).
      rewrite Hpg. by exists i.
    + rewrite list_lookup_insert_ne by done. by exists i.
Qed.

(** [BuildSiteMeta] over live pages: it returns no error, leaves the
    site [builtSite] and adds the diagnostics [builtDiag] to the trace;
    in the heap only the [Site] field of pages changes. *)
Lemma BuildSiteMeta_run (E : Env) (w : World) :
  (∀ p, p ∈ Site.Pages (site w) → is_Some (heap w !! p)) →
  ∃ h', BuildSiteMeta E w =
          Ret None (mkWorld (builtSite E w) h' (log w ++ builtDiag E w))
      ∧ length h' = length (heap w)
      ∧ (∀ p, ∃ i, h' !! p = Page.with_Site i <$> heap w !! p)
      ∧ (Site.Pages (site w) = [] → h' = heap w).
Proof.
  intros Hlive. unfold BuildSiteMeta.
  unfold bind at 1. unfold modify at 1.
  unfold bind at 1. unfold get at 1.
  unfold bind at 1. rewrite forEach_buildIndex_from by exact Hlive.
  unfold bind at 1. rewrite forEach_addSection_from by exact Hlive.
  unfold bind at 1. unfold modify at 1.
  unfold bind at 1. unfold modify at 1.
  destruct w as [[cfg pages tm il src secs info tgt al] h lg].
  cbn [site heap log set_site withIndexes withSections verbose Site.Pages Site.Config
       Site.Info Site.Sections Site.Indexes Site.with_Sections Site.with_Indexes
       Site.with_Info] in *.
  unfold builtSite, builtInfo, builtSections, builtIndexes, builtDiag, verbose.
  cbn [site heap log Site.Pages Site.Config Site.Info Site.Sections Site.Indexes
       Site.with_Sections Site.with_Indexes Site.with_Info].
  destruct pages as [|first rest].
  - exists h. split; [reflexivity|]. split; [done|]. split; [|done].
    intros p. destruct (h !! p) as [pg|].
    + exists (Page.Site pg). by destruct pg.
    + by exists SiteInfo.zero.
  - destruct (Hlive first) as [pg Hpg]; [left|].
    unfold bind at 1. erewrite deref_valid by exact Hpg.
    unfold bind at 1. unfold modify at 1.
    unfold bind at 1. unfold get at 1.
    unfold bind at 1.
    match goal with
    | |- context [forEach (λ p, update p (Page.with_Site ?i)) ?l ?w0] =>
        destruct (forEach_with_Site i l w0) as (h' & Hrun & Hlen & Hat)
    end.
    { exact Hlive. }
    rewrite Hrun. exists h'. split; [|by split].
    unfold ret, dateAt. rewrite Hpg. reflexivity.
Qed.

(** *** What sorting and adding do to the collections *)

Local Open Scope list_scope.

Lemma rangeMap_elem {V} (E : Env) (m : gmap string V) (k : string) (v : V) :
  (k, v) ∈ rangeMap E m → m !! k = Some v.
Proof.
  unfold rangeMap. rewrite list_elem_of_omap. intros (k' & _ & Hk).
  destruct (m !! k') as [v'|] eqn:Hv; [|done]. simpl in Hk.
  by injection Hk as <- <-.
Qed.


Lemma foldl_alter_lookup (f : list ptr → list ptr) (ks : list (string * list ptr))
    (idx : Index) (k : string) :
  (∀ o, f o ≡ₚ o) →
  option_Forall2 (≡ₚ) (foldl (λ acc kv, alter f (fst kv) acc) idx ks !! k) (idx !! k).
Proof.
  intros Hf. revert idx. induction ks as [|[k' o'] ks IH]; intros idx.
  - simpl. destruct (idx !! k); by constructor.
  - simpl. etrans; [apply IH|]. rewrite lookup_alter. case_decide.
    + subst k'. destruct (idx !! k); simpl; constructor. apply Hf.
    + destruct (idx !! k); by constructor.
Qed.

Lemma sortIndex_lookup (E : Env) (h : list Page.t) (idx : Index) (k : string) :
  SortPermutes E →
  option_Forall2 (≡ₚ) (sortIndex E h idx !! k) (idx !! k).
Proof. intros Hs. apply foldl_alter_lookup. intros o. apply Hs. Qed.

Lemma sortIndex_Some (E : Env) (h : list Page.t) (idx : Index) (k : string) (o' : list ptr) :
  SortPermutes E → sortIndex E h idx !! k = Some o' →
  ∃ o, idx !! k = Some o ∧ o' ≡ₚ o.
Proof.
  intros Hs Ho'. pose proof (sortIndex_lookup E h idx k Hs) as H.
  rewrite Ho' in H. inversion H; subst. eauto.
Qed.

Lemma sortIndex_Some_2 (E : Env) (h : list Page.t) (idx : Index) (k : string) (o : list ptr) :
  SortPermutes E → idx !! k = Some o →
  ∃ o', sortIndex E h idx !! k = Some o' ∧ o' ≡ₚ o.
Proof.
  intros Hs Ho. pose proof (sortIndex_lookup E h idx k Hs) as H.
  rewrite Ho in H. inversion H; subst. eauto.
Qed.

Lemma IndexAdd_lookup (key k : string) (p : ptr) (i : Index) :
  IndexAdd key p i !! k =
  if decide (key = k) then Some (default [] (i !! k) ++ [p]) else i !! k.
Proof.
  unfold IndexAdd. rewrite lookup_insert. by case_decide; subst.
Qed.

Lemma foldl_IndexAdd_inv (Q : list ptr → Prop) (p : ptr) (v : list string) (idx : Index) :
  (∀ o, Q o ∨ o = [] → Q (o ++ [p])) →
  (∀ k o, idx !! k = Some o → Q o) →
  ∀ k o, foldl (λ acc key, IndexAdd key p acc) idx v !! k = Some o → Q o.
Proof.
  intros Hadd. revert idx. induction v as [|key v IH]; intros idx Hidx; [exact Hidx|].
  simpl. apply IH. intros k o. rewrite IndexAdd_lookup. case_decide.
  - intros [= <-]. apply Hadd. destruct (idx !! k) as [o|] eqn:Ho; simpl; eauto.
  - apply Hidx.
Qed.

Section IndexInvariant.
Context (E : Env) (h : list Page.t) (pages : list ptr).
Context (Q : string → list ptr → Prop).
Hypothesis Hsort : SortPermutes E.
Hypothesis Qperm : ∀ plural o o', o' ≡ₚ o → Q plural o → Q plural o'.
Hypothesis Qadd : ∀ plural q pg v o,
  q ∈ pages → h !! q = Some pg → GetParam E pg plural = Some (VStrings v) →
  Q plural o ∨ o = [] → Q plural (o ++ [q]).

Lemma indexStep_inv (plural : string) (il : IndexList) (q : ptr) :
  q ∈ pages → IndexesAll Q il → IndexesAll Q (indexStep E h plural il q).
Proof using All.
  intros Hq Hil. unfold indexStep.
  destruct (h !! q) as [pg|] eqn:Hpg; [|done].
  destruct (GetParam E pg plural) as [[v| | |]|] eqn:Hv; try done.
  intros pl idx k o. rewrite lookup_alter. case_decide as Hpl.
  - subst pl. destruct (il !! plural) as [idx0|] eqn:Hidx0; [|done].
    simpl. intros [= <-]. apply foldl_IndexAdd_inv.
    + intros o0. by apply (Qadd plural q pg v).
    + intros k0 o0. by apply Hil.
  - apply Hil.
Qed.

Lemma foldl_indexStep_inv (plural : string) (l : list ptr) (il : IndexList) :
  l ⊆ pages → IndexesAll Q il → IndexesAll Q (foldl (indexStep E h plural) il l).
Proof using All.
  revert il. induction l as [|q l IH]; intros il Hsub Hil; [done|].
  simpl. apply IH.
  - intros x Hx. apply Hsub. by right.
  - apply indexStep_inv; [apply Hsub; left|done].
Qed.

Lemma fieldStep_inv (il : IndexList) (entry : string * string) :
  IndexesAll Q il → IndexesAll Q (fieldStep E h pages il entry).
Proof using All.
  intros Hil. unfold fieldStep. intros pl idx k o. rewrite lookup_alter.
  set (il2 := foldl (indexStep E h (snd entry)) (<[snd entry := ∅]> il) pages).
  assert (H2 : IndexesAll Q il2).
  { apply foldl_indexStep_inv; [done|]. intros pl' idx' k' o'.
    rewrite lookup_insert. case_decide.
    - intros [= <-]. by rewrite lookup_empty.
    - apply Hil. }
  case_decide as Hpl; [|apply H2]. subst pl.
  destruct (il2 !! snd entry) as [idx2|] eqn:Hidx2; [|done].
  simpl. intros [= <-] Ho.
  destruct (sortIndex_Some _ _ _ _ _ Hsort Ho) as (o2 & Ho2 & Hperm).
  eapply Qperm; [exact Hperm|]. by eapply H2.
Qed.

Lemma foldl_fieldStep_inv (l : list (string * string)) (il : IndexList) :
  IndexesAll Q il → IndexesAll Q (foldl (fieldStep E h pages) il l).
Proof using All.
  revert il. induction l as [|x l IH]; intros il Hil; [done|].
  simpl. apply IH. by apply fieldStep_inv.
Qed.

End IndexInvariant.

Lemma foldl_sectionStep_inv (Q : list ptr → Prop) (h : list Page.t) (l : list ptr)
    (secs : Index) :
  (∀ q o, Q o ∨ o = [] → Q (o ++ [q])) →
  (∀ k o, secs !! k = Some o → Q o) →
  ∀ k o, foldl (sectionStep h) secs l !! k = Some o → Q o.
Proof.
  intros Hadd. revert secs. induction l as [|q l IH]; intros secs Hsecs; [exact Hsecs|].
  simpl. apply IH. unfold sectionStep. destruct (h !! q) as [pg|]; [|exact Hsecs].
  intros k o. rewrite IndexAdd_lookup. case_decide.
  - intros [= <-]. apply Hadd. destruct (secs !! k) as [o|] eqn:Ho; simpl; eauto.
  - apply Hsecs.
Qed.

Lemma foldl_sectionStep_keeps (h : list Page.t) (l : list ptr) (secs : Index)
    (k : string) (p : ptr) :
  (∃ o, secs !! k = Some o ∧ p ∈ o) →
  ∃ o, foldl (sectionStep h) secs l !! k = Some o ∧ p ∈ o.
Proof.
  revert secs. induction l as [|q l IH]; intros secs Hin; [exact Hin|].
  simpl. apply IH. unfold sectionStep. destruct (h !! q) as [pg|]; [|exact Hin].
  destruct Hin as (o & Ho & Hp). rewrite IndexAdd_lookup. case_decide.
  - subst. rewrite Ho. simpl. eexists. split; [done|].
    apply elem_of_app. by left.
  - eauto.
Qed.

Lemma foldl_sectionStep_mem (h : list Page.t) (l : list ptr) (secs : Index)
    (p : ptr) (pg : Page.t) :
  p ∈ l → h !! p = Some pg →
  ∃ o, foldl (sectionStep h) secs l !! Page.Section_ pg = Some o ∧ p ∈ o.
Proof.
  revert secs. induction l as [|q l IH]; intros secs Hin Hpg.
  - by apply elem_of_nil in Hin.
  - simpl. destruct (decide (p = q)) as [<-|Hne].
    + apply foldl_sectionStep_keeps. unfold sectionStep. rewrite Hpg.
      rewrite IndexAdd_lookup. rewrite decide_True by done.
      eexists. split; [done|]. apply elem_of_app. right. left.
    + apply IH; [|done]. by apply elem_of_cons in Hin as [?|?].
Qed.

(** *** The diagnostics *)

Lemma flat_map_nil {X Y} (f : X → list Y) (l : list X) :
  (∀ x, f x = []) → flat_map f l = [].
Proof. intros Hf. induction l as [|x l IH]; [done|]. simpl. by rewrite Hf, IH. Qed.

Lemma flat_map_Forall {X Y} (P : Y → Prop) (f : X → list Y) (l : list X) :
  (∀ x, Forall P (f x)) → Forall P (flat_map f l).
Proof.
  intros Hf. induction l as [|x l IH]; [constructor|]. simpl.
  apply Forall_app. split; [apply Hf|exact IH].
Qed.

Lemma elem_of_flat_map {X Y} (f : X → list Y) (l : list X) (x : X) (y : Y) :
  x ∈ l → y ∈ f x → y ∈ flat_map f l.
Proof.
  intros Hx Hy. apply list_elem_of_In, in_flat_map. exists x.
  split; by apply list_elem_of_In.
Qed.

Lemma diagOf_quiet (E : Env) (h : list Page.t) (plural : string) (p : ptr) :
  diagOf E h plural false p = [].
Proof.
  unfold diagOf. destruct (h !! p) as [pg|]; [|done].
  by destruct (GetParam E pg plural) as [[]|].
Qed.

Lemma diagOf_Forall (E : Env) (h : list Page.t) (plural : string) (loud : bool) (p : ptr) :
  Forall isDiagnostic (diagOf E h plural loud p).
Proof.
  unfold diagOf. destruct (h !! p) as [pg|]; [|constructor].
  destruct (GetParam E pg plural) as [[]|], loud;
    repeat constructor; by eexists.
Qed.

Lemma builtDiag_quiet (E : Env) (w : World) : verbose w = false → builtDiag E w = [].
Proof.
  intros Hq. unfold builtDiag, fieldDiag. rewrite Hq.
  apply flat_map_nil. intros entry. apply flat_map_nil. intros p. apply diagOf_quiet.
Qed.

Lemma builtDiag_Forall (E : Env) (w : World) : Forall isDiagnostic (builtDiag E w).
Proof.
  unfold builtDiag, fieldDiag.
  apply flat_map_Forall. intros entry. apply flat_map_Forall. intros p.
  apply diagOf_Forall.
Qed.

Lemma builtDiag_reports (E : Env) (w : World) (p : ptr) (pg : Page.t)
    (singular plural : string) (v : ParamValue) :
  verbose w = true →
  (singular, plural) ∈ rangeMap E (Config.Indexes (Site.Config (site w))) →
  p ∈ Site.Pages (site w) →
  heap w !! p = Some pg →
  GetParam E pg plural = Some v →
  (∀ l, v ≠ VStrings l) →
  EvStderr ("Invalid " +:+ plural +:+ " in " +:+ Page.FileName pg +:+ nl) ∈ builtDiag E w.
Proof.
  intros Hloud Hfield Hp Hpg Hv Hnot. unfold builtDiag.
  eapply elem_of_flat_map; [exact Hfield|]. unfold fieldDiag.
  eapply elem_of_flat_map; [exact Hp|]. unfold diagOf. simpl.
  rewrite Hpg, Hv, Hloud. destruct v; try by left. by destruct (Hnot l).
Qed.

(** C7.  A page of the collection whose value for a classification field
    is present and is not a collection of strings: [BuildSiteMeta]
    returns no error, no collection of that field's index holds the page,
    the page is still in the page collection and in the collection of its
    section, and all that is added to the trace are diagnostics on
    standard error, none unless verbose mode is set, and in verbose mode
    the one naming the field and the page's file whenever the field is
    among those the loop visits. *)
Theorem BuildSiteMeta_non_collection_value (E : Env) (w : World) (p : ptr)
    (pg : Page.t) (plural : string) (v : ParamValue) :
  SortPermutes E →
  (∀ q, q ∈ Site.Pages (site w) → is_Some (heap w !! q)) →
  p ∈ Site.Pages (site w) →
  heap w !! p = Some pg →
  GetParam E pg plural = Some v →
  (∀ l, v ≠ VStrings l) →
  ∃ w' diag,
    BuildSiteMeta E w = Ret None w'
    ∧ (∀ idx key o, Site.Indexes (site w') !! plural = Some idx →
                    idx !! key = Some o → p ∉ o)
    ∧ p ∈ Site.Pages (site w')
    ∧ (∃ o, Site.Sections (site w') !! Page.Section_ pg = Some o ∧ p ∈ o)
    ∧ log w' = log w ++ diag
    ∧ Forall isDiagnostic diag
    ∧ (verbose w = false → diag = [])
    ∧ (verbose w = true →
       (∃ singular, (singular, plural) ∈ rangeMap E (Config.Indexes (Site.Config (site w)))) →
       EvStderr ("Invalid " +:+ plural +:+ " in " +:+ Page.FileName pg +:+ nl) ∈ diag).
Proof.
  intros Hsort Hlive Hp Hpg Hv Hnot.
  destruct (BuildSiteMeta_run E w Hlive) as (h' & Hrun & _).
  exists (mkWorld (builtSite E w) h' (log w ++ builtDiag E w)), (builtDiag E w).
  split; [exact Hrun|]. cbn [site log]. split; [|split; [|split]].
  - intros idx key o Hidx Ho.
    assert (Hall : IndexesAll (λ pl o, pl = plural → p ∉ o) (builtIndexes E w)).
    { unfold builtIndexes.
      apply (foldl_fieldStep_inv E (heap w) (Site.Pages (site w))); [done| | |done].
      - intros pl o1 o2 Hperm Ho1 Hpl. rewrite Hperm. by apply Ho1.
      - intros pl q pgq vq o1 Hq Hpgq Hvq Ho1 ->.
        intros Hin. apply elem_of_app in Hin as [Hin|Hin].
        + destruct Ho1 as [Ho1| ->]; [by apply Ho1|by apply elem_of_nil in Hin].
        + apply list_elem_of_singleton in Hin as ->.
          rewrite Hpg in Hpgq. injection Hpgq as <-.
          rewrite Hv in Hvq. injection Hvq as ->. by eapply Hnot. }
    by eapply (Hall plural idx key o).
  - exact Hp.
  - unfold builtSite, builtSections. cbn [Site.Sections Site.with_Info Site.with_Sections].
    destruct (foldl_sectionStep_mem (heap w) (Site.Pages (site w)) ∅ p pg Hp Hpg)
      as (o & Ho & Hin).
    destruct (sortIndex_Some_2 E (heap w) _ _ _ Hsort Ho) as (o' & Ho' & Hperm).
    exists o'. split; [exact Ho'|]. by rewrite Hperm.
  - split; [done|]. split; [apply builtDiag_Forall|].
    split; [apply builtDiag_quiet|].
    intros Hloud [singular Hfield]. by eapply builtDiag_reports.
Qed.

Lemma insertByDate_perm (h : list Page.t) (p : ptr) (l : list ptr) :
  insertByDate h p l ≡ₚ p :: l.
Proof.
  induction l as [|q l IH]; [done|]. simpl.
  destruct (dateAt h q <=? dateAt h p)%Z; [done|].
  rewrite IH. apply perm_swap.
Qed.

Lemma sortByDate_perm (h : list Page.t) (l : list ptr) : sortByDate h l ≡ₚ l.
Proof.
  induction l as [|p l IH]; [done|]. unfold sortByDate in *. simpl.
  by rewrite insertByDate_perm, IH.
Qed.

Lemma sampleEnv_SortPermutes dirs files tm exec chain publish :
  SortPermutes (sampleEnv dirs files tm exec chain publish).
Proof. intros h l. apply sortByDate_perm. Qed.

Lemma BuildSiteMeta_non_collection_value_witness :
  ∃ w' diag,
    BuildSiteMeta bareEnv scalarWorld = Ret None w'
    ∧ (∀ idx key o, Site.Indexes (site w') !! "tags" = Some idx →
                    idx !! key = Some o → 0 ∉ o)
    ∧ 0 ∈ Site.Pages (site w')
    ∧ (∃ o, Site.Sections (site w') !! "post" = Some o ∧ 0 ∈ o)
    ∧ log w' = log scalarWorld ++ diag
    ∧ Forall isDiagnostic diag
    ∧ (verbose scalarWorld = false → diag = [])
    ∧ (verbose scalarWorld = true →
       (∃ singular, (singular, "tags") ∈
          rangeMap bareEnv (Config.Indexes (Site.Config (site scalarWorld)))) →
       EvStderr ("Invalid " +:+ "tags" +:+ " in " +:+ "a" +:+ nl) ∈ diag).
Proof.
  apply (BuildSiteMeta_non_collection_value bareEnv scalarWorld 0
           (Page.with_file "post" "post" (samplePage "scalar" "a")) "tags" (VString "solo")).
  - apply sampleEnv_SortPermutes.
  - intros q Hq. simpl in Hq.
    repeat (apply elem_of_cons in Hq as [->|Hq]; [by eexists|]).
    by apply elem_of_nil in Hq.
  - simpl. left.
  - reflexivity.
  - vm_compute. reflexivity.
  - discriminate.
Defined.

(** ** The first element of a built collection *)

Lemma Ends_bind {A B} (allowed : Panic → Prop) (I : World → Prop)
    (m : M A) (k : A → M B) (w : World) :
  Ends allowed I (m w) → (∀ a w', I w' → Ends allowed I (k a w')) →
  Ends allowed I (bind m k w).
Proof.
  unfold bind. destruct (m w) as [a w'|p w']; simpl; [|done].
  intros Hw' Hk. by apply Hk.
Qed.


Lemma Ends_get {B} (allowed : Panic → Prop) (I : World → Prop)
    (k : World → M B) (w : World) :
  Ends allowed I (k w w) → Ends allowed I (bind get k w).
Proof. done. Qed.

Lemma Ends_orReturn (allowed : Panic → Prop) (I : World → Prop)
    (m k : M error) (w : World) :
  Ends allowed I (m w) → (∀ w', I w' → Ends allowed I (k w')) →
  Ends allowed I (orReturn m k w).
Proof.
  intros Hm Hk. unfold orReturn. apply Ends_bind; [done|].
  intros [msg|] w' Hw'; [done|]. by apply Hk.
Qed.

Lemma Ends_forErr {X} (allowed : Panic → Prop) (I : World → Prop)
    (body : X → M error) (l : list X) (w : World) :
  I w → (∀ x w', x ∈ l → I w' → Ends allowed I (body x w')) →
  Ends allowed I (forErr body l w).
Proof.
  revert w. induction l as [|x l IH]; intros w Hw Hbody; [done|].
  simpl. apply Ends_bind; [apply Hbody; [left|done]|].
  intros [msg|] w' Hw'; [done|]. apply IH; [done|].
  intros y w'' Hy. apply Hbody. by right.
Qed.

Lemma Ends_forEach {X} (allowed : Panic → Prop) (I : World → Prop)
    (body : X → M unit) (l : list X) (w : World) :
  I w → (∀ x w', x ∈ l → I w' → Ends allowed I (body x w')) →
  Ends allowed I (forEach body l w).
Proof.
  revert w. induction l as [|x l IH]; intros w Hw Hbody; [done|].
  simpl. apply Ends_bind; [apply Hbody; [left|done]|].
  intros _ w' Hw'. apply IH; [done|].
  intros y w'' Hy. apply Hbody. by right.
Qed.


Lemma Safe_noOutOfRange {A} (I : World → Prop) (r : Res A) : Safe I r → noOutOfRange r.
Proof. destruct r as [|[]]; simpl; auto. Qed.

Section Keeps.
Context (E : Env) (il : IndexList) (secs : Index).

Lemma permalink_Safe (plink : string) (w : World) :
  keeps il secs w → Safe (keeps il secs) (permalink E plink w).
Proof.
  intros Hw. unfold permalink. monad_unfold.
  destruct (UrlParse E (Config.BaseUrl _)); [done|].
  by destruct (UrlParse E plink).
Qed.

Lemma hasTemplate_Safe (name : string) (w : World) :
  keeps il secs w → Safe (keeps il secs) (hasTemplate name w).
Proof. done. Qed.

Lemma firstDate_Safe (o : list ptr) (w : World) :
  o ≠ [] → keeps il secs w → Safe (keeps il secs) (firstDate o w).
Proof.
  intros Ho Hw. destruct o as [|p o]; [done|]. simpl. monad_unfold.
  by destruct (heap w !! p).
Qed.

Lemma WritePublic_Safe (path content : string) (w : World) :
  keeps il secs w → Safe (keeps il secs) (WritePublic E path content w).
Proof.
  intros Hw. unfold WritePublic. apply Ends_bind.
  { unfold initTarget, modify, set_site. simpl.
    by destruct (Site.Target (site w)). }
  intros _ w1 Hw1. apply Ends_bind; [done|]. intros w2 w3 Hw3.
  apply Ends_bind.
  { unfold when. by destruct (verbose w2). }
  intros _ w4 Hw4. destruct (Site.Target (site w2)); [|done].
  apply Ends_bind; done.
Qed.

Lemma render_Safe (d : Renderable) (out : string) (layouts : list string) (w : World) :
  keeps il secs w → Safe (keeps il secs) (render E d out layouts w).
Proof.
  intros Hw. unfold render.
  apply Ends_bind; [done|]. intros w0 w1 Hw1.
  destruct (decide _).
  { apply Ends_bind; [|done]. unfold when. by destruct (verbose w0). }
  apply Ends_bind.
  { destruct d; [|done]. unfold deref. monad_unfold. by destruct (heap w1 !! p). }
  intros section w2 Hw2. apply Ends_bind.
  { unfold renderThing. monad_unfold.
    destruct (Site.Tmpl (site w2) !! _); [|done].
    by destruct (ExecuteTemplate E _ _ _ _). }
  intros produced w3 Hw3.
  destruct (failure produced); [done|].
  destruct (closed produced); [|done].
  by apply WritePublic_Safe.
Qed.

End Keeps.

Section FirstElement.
Context (E : Env) (il : IndexList) (secs : Index).

Lemma renderTerm_Safe (singular plural key : string) (o : list ptr) (w : World) :
  o ≠ [] → keeps il secs w →
  Safe (keeps il secs) (renderTerm E singular plural (key, o) w).
Proof.
  intros Ho Hw. unfold renderTerm.
  apply Ends_bind; [done|]. intros w0 w1 Hw1.
  apply Ends_bind; [by apply permalink_Safe|]. intros plink w2 Hw2.
  apply Ends_bind; [by apply permalink_Safe|]. intros rss w3 Hw3.
  apply Ends_bind; [by apply firstDate_Safe|]. intros date w4 Hw4.
  apply Ends_orReturn; [by apply render_Safe|]. intros w5 Hw5.
  apply Ends_bind; [done|]. intros feed w6 Hw6.
  destruct feed; [|done].
  apply Ends_bind; [by apply permalink_Safe|]. intros plink' w7 Hw7.
  apply Ends_orReturn; [by apply render_Safe|]. done.
Qed.

Lemma RenderIndexes_Safe (w : World) :
  IndexesAll (λ _ o, o ≠ []) il → keeps il secs w →
  Safe (keeps il secs) (RenderIndexes E w).
Proof.
  intros Hall Hw. unfold RenderIndexes.
  apply Ends_get.
  apply Ends_forErr; [done|]. intros [singular plural] w2 _ Hw2.
  apply Ends_get.
  apply Ends_forErr; [done|]. intros [key o] w5 Hin Hw5.
  apply renderTerm_Safe; [|done].
  apply rangeMap_elem in Hin. cbn [fst snd] in Hin.
  destruct (Site.Indexes (site w2) !! plural) as [idx|] eqn:Hidx; simpl in Hin.
  - destruct Hw2 as [Hil _]. rewrite Hil in Hidx. by eapply Hall.
  - by rewrite lookup_empty in Hin.
Qed.

Lemma renderSection_Safe (section : string) (data : list ptr) (w : World) :
  data ≠ [] → keeps il secs w →
  Safe (keeps il secs) (renderSection E (section, data) w).
Proof.
  intros Ho Hw. unfold renderSection.
  apply Ends_bind; [done|]. intros w0 w1 Hw1.
  apply Ends_bind; [by apply permalink_Safe|]. intros plink w2 Hw2.
  apply Ends_bind; [by apply permalink_Safe|]. intros rss w3 Hw3.
  apply Ends_bind; [by apply firstDate_Safe|]. intros date w4 Hw4.
  apply Ends_orReturn; [by apply render_Safe|]. intros w5 Hw5.
  apply Ends_bind; [done|]. intros feed w6 Hw6.
  destruct feed; [|done].
  apply Ends_orReturn; [by apply render_Safe|]. done.
Qed.

Lemma RenderLists_Safe (w : World) :
  (∀ key o, secs !! key = Some o → o ≠ []) → keeps il secs w →
  Safe (keeps il secs) (RenderLists E w).
Proof.
  intros Hall Hw. unfold RenderLists.
  apply Ends_get.
  apply Ends_forErr; [done|]. intros [section data] w2 Hin Hw2.
  apply renderSection_Safe; [|done].
  apply rangeMap_elem in Hin. destruct Hw as [_ Hsecs]. rewrite Hsecs in Hin.
  by eapply Hall.
Qed.

End FirstElement.

Lemma builtIndexes_nonempty (E : Env) (w : World) :
  SortPermutes E → IndexesAll (λ _ o, o ≠ []) (builtIndexes E w).
Proof.
  intros Hsort. unfold builtIndexes.
  apply (foldl_fieldStep_inv E (heap w) (Site.Pages (site w))); [done| | |done].
  - intros _ o o' Hperm Ho ->. apply Permutation_nil_l in Hperm. done.
  - intros _ q _ _ o _ _ _ _ Hnil. by apply app_eq_nil in Hnil as [_ ?].
Qed.

Lemma builtSections_nonempty (E : Env) (w : World) (key : string) (o : list ptr) :
  SortPermutes E → builtSections E w !! key = Some o → o ≠ [].
Proof.
  intros Hsort Ho. unfold builtSections in Ho.
  destruct (sortIndex_Some _ _ _ _ _ Hsort Ho) as (o0 & Ho0 & Hperm).
  assert (Hne : o0 ≠ []).
  { revert Ho0. apply (foldl_sectionStep_inv (λ o, o ≠ [])).
    - intros q o1 _ Hnil. by apply app_eq_nil in Hnil as [_ ?].
    - intros k o1. by rewrite lookup_empty. }
  intros ->. apply Permutation_nil_l in Hperm. done.
Qed.

(** C9.  [BuildSiteMeta] over live pages returns, and leaves index
    families in which every key of every classification index and of the
    section index has at least one page; so in any state of the site with
    these indexes, neither [RenderIndexes] nor [RenderLists] stops on an
    index out of range when it reads the date of the first page. *)
Theorem built_index_keys_nonempty (E : Env) (w : World) :
  SortPermutes E →
  (∀ p, p ∈ Site.Pages (site w) → is_Some (heap w !! p)) →
  ∃ w', BuildSiteMeta E w = Ret None w'
      ∧ (∀ plural idx key o, Site.Indexes (site w') !! plural = Some idx →
                             idx !! key = Some o → o ≠ [])
      ∧ (∀ key o, Site.Sections (site w') !! key = Some o → o ≠ [])
      ∧ (∀ w2, Site.Indexes (site w2) = Site.Indexes (site w') →
               Site.Sections (site w2) = Site.Sections (site w') →
               noOutOfRange (RenderIndexes E w2) ∧ noOutOfRange (RenderLists E w2)).
Proof.
  intros Hsort Hlive.
  destruct (BuildSiteMeta_run E w Hlive) as (h' & Hrun & _).
  eexists. split; [exact Hrun|]. cbn [site].
  assert (Hidx : IndexesAll (λ _ o, o ≠ []) (Site.Indexes (builtSite E w))).
  { by apply builtIndexes_nonempty. }
  assert (Hsec : ∀ key o, Site.Sections (builtSite E w) !! key = Some o → o ≠ []).
  { intros key o. by apply builtSections_nonempty. }
  split; [exact Hidx|]. split; [exact Hsec|].
  intros w2 Hil Hsecs. split.
  - eapply Safe_noOutOfRange. by apply RenderIndexes_Safe.
  - eapply Safe_noOutOfRange. by apply RenderLists_Safe.
Qed.

Lemma built_index_keys_nonempty_witness :
  ∃ w', BuildSiteMeta bareEnv scalarWorld = Ret None w'
      ∧ (∀ plural idx key o, Site.Indexes (site w') !! plural = Some idx →
                             idx !! key = Some o → o ≠ [])
      ∧ (∀ key o, Site.Sections (site w') !! key = Some o → o ≠ [])
      ∧ (∀ w2, Site.Indexes (site w2) = Site.Indexes (site w') →
               Site.Sections (site w2) = Site.Sections (site w') →
               noOutOfRange (RenderIndexes bareEnv w2)
               ∧ noOutOfRange (RenderLists bareEnv w2)).
Proof.
  apply (built_index_keys_nonempty bareEnv scalarWorld).
  - apply sampleEnv_SortPermutes.
  - intros q Hq. simpl in Hq.
    repeat (apply elem_of_cons in Hq as [->|Hq]; [by eexists|]).
    by apply elem_of_nil in Hq.
Defined.

(** ** A build of drafts only *)













Section PagelessRender.
Context (E : Env) (tm : Templates).
Hypothesis Hurl : UrlsParse E.
Hypothesis Hexec : TemplatesRun E.
















End PagelessRender.




(** ** The absolute-URL rewriter *)

Lemma append_cons (x : ascii) (a b : string) : String x a +:+ b = String x (a +:+ b).
Proof. reflexivity. Qed.

Lemma append_empty (b : string) : "" +:+ b = b.
Proof. reflexivity. Qed.

Lemma append_empty_r (a : string) : a +:+ "" = a.
Proof. induction a as [|x a IH]; [done|]. by rewrite append_cons, IH. Qed.

Lemma append_assoc (a b c : string) : (a +:+ b) +:+ c = a +:+ (b +:+ c).
Proof.
  induction a as [|x a IH]; [done|]. by rewrite !append_cons, IH.
Qed.

Lemma length_append (a b : string) :
  String.length (a +:+ b) = (String.length a + String.length b)%nat.
Proof.
  induction a as [|x a IH]; [done|]. rewrite append_cons. simpl. by rewrite IH.
Qed.

Lemma stripPrefix_sound (p s rest : string) :
  stripPrefix p s = Some rest → s = p +:+ rest.
Proof.
  revert s. induction p as [|a p IH]; intros s; simpl.
  - by intros [= ->].
  - destruct s as [|b s]; [done|].
    destruct (Ascii.eqb_spec a b) as [->|]; [|done].
    intros H. by rewrite append_cons, (IH _ H).
Qed.

Lemma splitQuote_sound (q : ascii) (s v after : string) :
  splitQuote q s = Some (v, after) → s = v +:+ String q after.
Proof.
  revert v. induction s as [|c s IH]; intros v; simpl; [done|].
  destruct (Ascii.eqb_spec c q) as [->|].
  - by intros [= <- <-].
  - destruct (splitQuote q s) as [[v' after']|]; [|done].
    intros [= <- <-]. by rewrite append_cons, <- (IH v' eq_refl).
Qed.

Lemma quotedAfter_sound (name s : string) (seg : Segment) (after : string) :
  quotedAfter name s = Some (seg, after) → s = segmentText seg +:+ after.
Proof.
  unfold quotedAfter.
  destruct (stripPrefix (name +:+ "=") s) as [[|q rest]|] eqn:Hp; try done.
  destruct (isQuote q); [|done].
  destruct (splitQuote q rest) as [[v after']|] eqn:Hq; [|done].
  intros [= <- <-]. apply stripPrefix_sound in Hp. apply splitQuote_sound in Hq.
  subst. cbn [segmentText].
  by rewrite !append_assoc, !append_cons, !append_empty, !append_assoc,
             !append_cons, !append_empty.
Qed.

Lemma attrAt_sound (s : string) (seg : Segment) (after : string) :
  attrAt s = Some (seg, after) → s = segmentText seg +:+ after.
Proof.
  unfold attrAt. destruct (quotedAfter "src" s) as [[seg' after']|] eqn:Hsrc.
  - intros [= <- <-]. by apply quotedAfter_sound in Hsrc.
  - apply quotedAfter_sound.
Qed.

Lemma attrAt_Attr (s : string) (seg : Segment) (after : string) :
  attrAt s = Some (seg, after) → ∃ name q v, seg = Attr name q v.
Proof.
  unfold attrAt, quotedAfter. intros H.
  repeat (case_match; simplify_eq); eauto.
Qed.

Lemma attrAt_shorter (s : string) (seg : Segment) (after : string) :
  attrAt s = Some (seg, after) → (String.length after < String.length s)%nat.
Proof.
  intros H. pose proof (attrAt_sound _ _ _ H) as ->.
  destruct (attrAt_Attr _ _ _ H) as (name & q & v & ->).
  cbn [segmentText]. rewrite !length_append. simpl. lia.
Qed.

(** The scan loses nothing: the segments, put together, are the document. *)
Lemma segments_join (fuel : nat) (afterSpace : bool) (s : string) :
  joinText (segmentText <$> segments fuel afterSpace s) = s.
Proof.
  revert afterSpace s. induction fuel as [|fuel IH]; intros afterSpace s.
  - simpl. apply append_empty_r.
  - simpl. destruct (if afterSpace then attrAt s else None) as [[seg after]|] eqn:Hat.
    + destruct afterSpace; [|done]. apply attrAt_sound in Hat.
      rewrite fmap_cons. unfold joinText. cbn [foldr].
      fold (joinText (segmentText <$> segments fuel false after)).
      by rewrite IH.
    + destruct s as [|c rest]; [done|].
      rewrite fmap_cons. unfold joinText. cbn [foldr].
      fold (joinText (segmentText <$> segments fuel (isSpace c) rest)).
      by rewrite IH.
Qed.

(** With a step per character and one to spare the scan is never cut. *)
Lemma segments_complete (fuel : nat) (afterSpace : bool) (s : string) :
  (String.length s < fuel)%nat →
  Forall (λ seg, ∀ r, seg ≠ Raw r) (segments fuel afterSpace s).
Proof.
  revert afterSpace s. induction fuel as [|fuel IH]; intros afterSpace s Hlen; [lia|].
  simpl. destruct (if afterSpace then attrAt s else None) as [[seg after]|] eqn:Hat.
  - destruct afterSpace; [|done]. constructor.
    + destruct (attrAt_Attr _ _ _ Hat) as (name & q & v & ->). done.
    + apply IH. apply attrAt_shorter in Hat. lia.
  - destruct s as [|c rest]; constructor; [done|]. apply IH. simpl in Hlen. lia.
Qed.

Lemma absURL_absolute (base v : string) :
  hasScheme v = true ∨ hasAuthority v = true → absURL base v = v.
Proof. unfold absURL. by intros [-> | ->]; rewrite ?orb_true_r. Qed.

Lemma rewriteSegment_absolute (base : string) (seg : Segment) :
  alreadyAbsolute seg → rewriteSegment base seg = segmentText seg.
Proof.
  destruct seg as [c|name q v|r]; try done.
  intros [-> Habs]. cbn [rewriteSegment segmentText].
  rewrite (absURL_absolute _ _ Habs). unfold dq.
  by rewrite !append_cons, !append_empty.
Qed.

(** C8.  With the base URL "http://base" the rewriter turns
    src="foobar.js" into src="http://base/foobar.js" and href="/foobar"
    into href="http://base/foobar", and passes the three documents of
    [TestAbsUrlify]; for every base URL, a value with a scheme or an
    authority is its own rewriting, and a document whose src and href
    attributes are in double quotes and hold such values comes back
    byte for byte. *)
Theorem AbsURL_Apply_spec :
  AbsURL_Apply "http://base" relativeDoc = relativeDocAbs
  ∧ AbsURL_Apply "http://base" H5_JS_CONTENT_DOUBLE_QUOTE = CORRECT_OUTPUT_SRC_HREF
  ∧ AbsURL_Apply "http://base" H5_JS_CONTENT_SINGLE_QUOTE = CORRECT_OUTPUT_SRC_HREF
  ∧ AbsURL_Apply "http://base" H5_JS_CONTENT_ABS_URL = H5_JS_CONTENT_ABS_URL
  ∧ absURL "http://base" "foobar.js" = "http://base/foobar.js"
  ∧ absURL "http://base" "/foobar" = "http://base/foobar"
  ∧ (∀ base v, hasScheme v = true ∨ hasAuthority v = true → absURL base v = v)
  ∧ (∀ base doc,
       Forall alreadyAbsolute (segments (S (String.length doc)) false doc) →
       AbsURL_Apply base doc = doc).
Proof.
  repeat split; try (vm_compute; reflexivity).
  - apply absURL_absolute.
  - intros base doc Habs. unfold AbsURL_Apply.
    rewrite <- (segments_join (S (String.length doc)) false doc) at 3.
    f_equal.
    induction Habs as [|seg l Hseg _ IH]; [done|].
    cbn [fmap list_fmap]. f_equal; [by apply rewriteSegment_absolute|exact IH].
Qed.

Lemma AbsURL_Apply_spec_witness :
  Forall alreadyAbsolute
    (segments (S (String.length H5_JS_CONTENT_ABS_URL)) false H5_JS_CONTENT_ABS_URL)
  ∧ AbsURL_Apply "http://other" H5_JS_CONTENT_ABS_URL = H5_JS_CONTENT_ABS_URL.
Proof.
  assert (H : Forall alreadyAbsolute
    (segments (S (String.length H5_JS_CONTENT_ABS_URL)) false H5_JS_CONTENT_ABS_URL)).
  { vm_compute. repeat (constructor; [first [exact I | split; [reflexivity|left; reflexivity]]|]).
    constructor. }
  split; [exact H|].
  apply (proj2 (proj2 (proj2 (proj2 (proj2 (proj2 (proj2 AbsURL_Apply_spec))))))).
  exact H.
Defined.

(** ** Further facts about the model *)

(** The pages of the collection are distinct and live. *)
Lemma createPage_DistinctLive (E : Env) (f : File.t) (w : World) :
  DistinctLive w → Runs DistinctLive (createPage E f w).
Proof.
  intros [Hnd Hlive]. unfold createPage.
  destruct (ReadFrom E _ _) as [pg|msg]; [|by split]. monad_unfold.
  assert (Hheap : ∀ p x, p ∈ Site.Pages (site w) → is_Some ((heap w ++ [x]) !! p)).
  { intros p x Hp. destruct (Hlive p Hp) as [pg' Hpg'].
    exists pg'. by apply lookup_app_l_Some. }
  destruct (_ || _); unfold DistinctLive; simpl.
  - split.
    + apply NoDup_app. split; [exact Hnd|]. split; [|apply NoDup_singleton].
      intros p Hp Hnew. apply list_elem_of_singleton in Hnew as ->.
      destruct (Hlive _ Hp) as [pg' Hpg']. apply lookup_lt_Some in Hpg'. lia.
    + intros p Hp. apply elem_of_app in Hp as [Hp|Hp]; [by apply Hheap|].
      apply list_elem_of_singleton in Hp as ->.
      apply lookup_lt_is_Some. rewrite length_app. simpl. lia.
  - split; [exact Hnd|]. intros p Hp. by apply Hheap.
Qed.

(** [CreatePages] never stops, and the collection it leaves is made of
    distinct live pages: what [setupPrevNext_links] asks for. *)
Lemma CreatePages_DistinctLive (E : Env) (w : World) :
  SortPermutes E → DistinctLive w → Runs DistinctLive (CreatePages E w).
Proof.
  intros Hsort Hw. unfold CreatePages. apply Ends_get.
  destruct (Site.Source (site w)) as [src|]; [|done].
  destruct (_ <? _)%nat; [done|].
  apply Ends_orReturn.
  { apply Ends_forErr; [done|]. intros f w' _. apply createPage_DistinctLive. }
  intros w' [Hnd Hlive]. unfold bind, modify, ret, sortSitePages.
  unfold DistinctLive. simpl.
  pose proof (Hsort (heap w') (Site.Pages (site w'))) as Hperm.
  split.
  - by rewrite Hperm.
  - intros p Hp. apply Hlive. by rewrite Hperm in Hp.
Qed.

(** [render] never blocks for ever: whenever the template worker leaves
    its writer open it has an error, and panics. *)
Lemma render_never_deadlocks (E : Env) (d : Renderable) (out : string)
    (layouts : list string) (w w' : World) :
  render E d out layouts w ≠ Crash Deadlock w'.
Proof.
  unfold render, renderThing, WritePublic, initTarget. monad_unfold.
  repeat (case_match; simplify_eq; simpl in *; try discriminate); try congruence.
Qed.

(** A template that fails makes [render] panic with its error, after the
    template was executed and before anything is published. *)
Lemma render_template_error_panics (E : Env) (n : Node.t) (out : string)
    (layouts : list string) (w : World) (output msg : string) :
  findFirstLayout (Site.Tmpl (site w)) layouts ≠ "" →
  ExecuteTemplate E (Site.Tmpl (site w)) (heap w)
    (findFirstLayout (Site.Tmpl (site w)) layouts) (RNode n) = (output, Some msg) →
  render E (RNode n) out layouts w =
  Crash (PanicErr msg)
    (emit (EvExec (findFirstLayout (Site.Tmpl (site w)) layouts) (RNode n)) w).
Proof.
  intros Hfound Hexec. unfold render, renderThing. monad_unfold.
  destruct (decide _) as [Heq|_]; [done|].
  destruct (findFirstLayout_found _ _ Hfound) as [text Htext].
  by rewrite Htext, Hexec.
Qed.

(** The error of the transformer chain never reaches the caller: what
    [render] returns is what the destination returns. *)
Lemma render_drops_transform_error (E : Env) (n : Node.t) (out : string)
    (layouts : list string) (w : World) (output : string) :
  findFirstLayout (Site.Tmpl (site w)) layouts ≠ "" →
  ExecuteTemplate E (Site.Tmpl (site w)) (heap w)
    (findFirstLayout (Site.Tmpl (site w)) layouts) (RNode n) = (output, None) →
  render E (RNode n) out layouts w =
  WritePublic E out
    (fst (ApplyChain E (Config.BaseUrl (Site.Config (site w))) "" output))
    (emit (EvExec (findFirstLayout (Site.Tmpl (site w)) layouts) (RNode n)) w).
Proof.
  intros Hfound Hexec. unfold render, renderThing. monad_unfold.
  destruct (decide _) as [Heq|_]; [done|].
  destruct (findFirstLayout_found _ _ Hfound) as [text Htext].
  by rewrite Htext, Hexec.
Qed.

(** * Further properties *)

(** ** Layout resolution *)

(** X1.  [findFirstLayout] returns the first candidate that is in the
    template set, every candidate before it being absent; when no
    candidate is in the set it returns the empty name. *)
Theorem findFirstLayout_first (tm : Templates) (layouts : list string) :
  (∃ pre post, layouts = pre ++ findFirstLayout tm layouts :: post
               ∧ (∀ x, x ∈ pre → tm !! x = None)
               ∧ is_Some (tm !! findFirstLayout tm layouts))
  ∨ (findFirstLayout tm layouts = "" ∧ ∀ x, x ∈ layouts → tm !! x = None).
Proof.
  induction layouts as [|l rest IH].
  - right. split; [done|]. intros x Hx. by apply elem_of_nil in Hx.
  - cbn [findFirstLayout]. destruct (tm !! l) as [text|] eqn:Hl.
    + left. exists [], rest. split; [done|]. split; [|first [by eexists | rewrite Hl; by eexists]].
      intros x Hx. by apply elem_of_nil in Hx.
    + destruct IH as [(pre & post & Heq & Hpre & Hfound)|[Hnone Hall]].
      * left. exists (l :: pre), post. split; [by rewrite Heq at 1|].
        split; [|done]. intros x Hx. apply elem_of_cons in Hx as [->|Hx]; auto.
      * right. split; [done|]. intros x Hx.
        apply elem_of_cons in Hx as [->|Hx]; auto.
Qed.

(** ** Publishing *)

(** X2.  [WritePublic] never stops the process: it installs the file
    system target only when the site has none, announces the path in
    verbose mode, hands path and content to the target once and returns
    the target's error; nothing else of the site changes. *)
Theorem WritePublic_publishes (E : Env) (path content : string) (w : World) :
  WritePublic E path content w =
  Ret (TargetPublish E (targetOf E (site w)) path content)
      (mkWorld (Site.with_Target (Some (targetOf E (site w))) (site w)) (heap w)
               (log w ++ announce w path ++ [EvPublish path content])).
Proof.
  unfold WritePublic, initTarget, targetOf, announce, verbose. monad_unfold.
  destruct w as [[cfg pages tm il src secs info [t|] al] h lg]; simpl;
    destruct (Config.Verbose cfg); unfold emit, set_site; simpl;
    by rewrite <- ?app_assoc.
Qed.

(** X3.  [WriteAlias] never stops the process and returns the alias
    publisher's error.  A publisher the site already has is used as it is
    and the target is not touched; otherwise the HTML redirect publisher
    is installed, and with it the target as [initTarget] does. *)
Theorem WriteAlias_publishes (E : Env) (path plink : string) (w : World) :
  WriteAlias E path plink w =
  Ret (AliasPublish E (aliasOf E (site w)) path plink)
      (mkWorld (aliasSite E (site w)) (heap w)
               (log w ++ announce w path ++ [EvAlias path plink])).
Proof.
  unfold WriteAlias, initTarget, aliasOf, aliasSite, targetOf, announce, verbose.
  monad_unfold.
  destruct w as [[cfg pages tm il src secs info [t|] [a|]] h lg]; simpl;
    destruct (Config.Verbose cfg); unfold emit, set_site; simpl;
    by rewrite <- ?app_assoc.
Qed.

Lemma WritePublic_publishes_after (E : Env) (path content : string) (ev : Event)
    (w : World) :
  WritePublic E path content (emit ev w) =
  Ret (TargetPublish E (targetOf E (site w)) path content)
      (mkWorld (Site.with_Target (Some (targetOf E (site w))) (site w)) (heap w)
               (log w ++ [ev] ++ announce w path ++ [EvPublish path content])).
Proof.
  unfold WritePublic, initTarget, targetOf, announce, verbose. monad_unfold.
  destruct w as [[cfg pages tm il src secs info [t|] al] h lg]; simpl;
    destruct (Config.Verbose cfg); unfold emit, set_site; simpl;
    by rewrite <- ?app_assoc.
Qed.

(** [render] when a candidate exists and the template executes. *)
Lemma render_run (E : Env) (d : Renderable) (out : string)
    (layouts : list string) (w : World) (output : string) :
  liveRenderable (heap w) d →
  findFirstLayout (Site.Tmpl (site w)) layouts ≠ "" →
  ExecuteTemplate E (Site.Tmpl (site w)) (heap w)
    (findFirstLayout (Site.Tmpl (site w)) layouts) d = (output, None) →
  render E d out layouts w =
  Ret (TargetPublish E (targetOf E (site w)) out
         (fst (ApplyChain E (Config.BaseUrl (Site.Config (site w)))
                 (navSection E (heap w) d) output)))
      (mkWorld (Site.with_Target (Some (targetOf E (site w))) (site w)) (heap w)
               (log w ++ [EvExec (findFirstLayout (Site.Tmpl (site w)) layouts) d]
                      ++ announce w out
                      ++ [EvPublish out
                            (fst (ApplyChain E (Config.BaseUrl (Site.Config (site w)))
                                    (navSection E (heap w) d) output))])).
Proof.
  intros Hlive Hfound Hexec.
  destruct (findFirstLayout_found _ _ Hfound) as [text Htext].
  rewrite <- WritePublic_publishes_after.
  unfold render, renderThing. monad_unfold.
  destruct (decide _) as [Heq|_]; [done|].
  destruct d as [p|n].
  - destruct Hlive as [pg Hpg]. cbn [navSection]. rewrite Hpg. cbn [fst].
    by rewrite Htext, Hexec.
  - by rewrite Htext, Hexec.
Qed.

(** X4.  When a candidate layout exists and the template executes,
    [render] returns what the destination returns, whatever the
    transformer chain returned: the template is executed once on the
    renderable, and what the chain made of its output is published once
    at the output path. *)
Theorem render_publishes (E : Env) (d : Renderable) (out : string)
    (layouts : list string) (w : World) (output : string) :
  liveRenderable (heap w) d →
  findFirstLayout (Site.Tmpl (site w)) layouts ≠ "" →
  ExecuteTemplate E (Site.Tmpl (site w)) (heap w)
    (findFirstLayout (Site.Tmpl (site w)) layouts) d = (output, None) →
  let layout := findFirstLayout (Site.Tmpl (site w)) layouts in
  let transformed :=
    fst (ApplyChain E (Config.BaseUrl (Site.Config (site w)))
           (navSection E (heap w) d) output) in
  render E d out layouts w =
  Ret (TargetPublish E (targetOf E (site w)) out transformed)
      (mkWorld (Site.with_Target (Some (targetOf E (site w))) (site w)) (heap w)
               (log w ++ [EvExec layout d] ++ announce w out ++ [EvPublish out transformed])).
Proof. intros Hlive Hfound Hexec. by apply render_run. Qed.

Lemma render_publishes_witness :
  render bareEnv (RNode (NewNode (site readyWorld))) "/" ["home.html"; "index.html"]
    readyWorld =
  Ret None
      (mkWorld (Site.with_Target (Some (FilesystemTarget "/site/public" false))
                  (site readyWorld)) []
               [EvExec "index.html" (RNode (NewNode (site readyWorld)));
                EvPublish "/" "<index.html>"]).
Proof.
  apply (render_publishes bareEnv (RNode (NewNode (site readyWorld))) "/"
           ["home.html"; "index.html"] readyWorld "<index.html>").
  - exact I.
  - vm_compute. discriminate.
  - vm_compute. reflexivity.
Defined.

(** ** Aliases *)

Lemma forErr_app {X} (body : X → M error) (l1 l2 : list X) (w : World) :
  forErr body (l1 ++ l2) w =
  match forErr body l1 w with
  | Ret None w' => forErr body l2 w'
  | other => other
  end.
Proof.
  revert w. induction l1 as [|x l1 IH]; intros w; [done|].
  rewrite <- app_comm_cons, !forErr_cons.
  destruct (body x w) as [[msg|] w'|p w']; [done| |done]. apply IH.
Qed.

Lemma aliased_app (s : Site.t) (h : list Page.t) (lg extra : list Event) :
  aliased (mkWorld s h (lg ++ extra)) =
  aliased (mkWorld s h lg) ++ aliased (mkWorld s h extra).
Proof. unfold aliased. simpl. apply omap_app. Qed.

Lemma WriteAlias_aliased (E : Env) (path plink : string) (w : World) :
  ∃ w', WriteAlias E path plink w = Ret (AliasPublish E (aliasOf E (site w)) path plink) w'
      ∧ heap w' = heap w
      ∧ Site.Pages (site w') = Site.Pages (site w)
      ∧ aliased w' = aliased w ++ [(path, plink)].
Proof.
  unfold WriteAlias, initTarget, aliasOf, announce, verbose, aliased. monad_unfold.
  destruct w as [[cfg pages tm il src secs info [t|] [a|]] h lg]; simpl;
    destruct (Config.Verbose cfg); unfold emit, set_site; simpl;
    (eexists; split; [reflexivity|]; simpl; repeat split;
     rewrite !omap_app; simpl; by rewrite ?app_nil_r).
Qed.

(** The redirects of one page, all of them going through. *)
Lemma forErr_WriteAlias (E : Env) (pg : Page.t) (l : list string) (w : World) :
  snd (PagePermalink E pg) = None →
  (∀ a path plink, AliasPublish E a path plink = None) →
  ∃ w', forErr (λ a, let '(plink, err) := PagePermalink E pg in
                     match err with
                     | Some msg => ret (Some msg)
                     | None => WriteAlias E a plink
                     end) l w = Ret None w'
      ∧ heap w' = heap w
      ∧ Site.Pages (site w') = Site.Pages (site w)
      ∧ aliased w' = aliased w ++ ((λ a, (a, fst (PagePermalink E pg))) <$> l).
Proof.
  intros Hlink Hpub. revert w. induction l as [|a l IH]; intros w.
  - exists w. by rewrite app_nil_r.
  - rewrite forErr_cons. destruct (PagePermalink E pg) as [plink err] eqn:Hp.
    simpl in Hlink. subst err.
    destruct (WriteAlias_aliased E a plink w) as (w1 & Hrun & Hh & Hpages & Hal).
    rewrite Hrun, Hpub. destruct (IH w1) as (w' & Hrest & Hh' & Hpages' & Hal').
    exists w'. split; [exact Hrest|]. split; [congruence|]. split; [congruence|].
    rewrite Hal', Hal, fmap_cons. cbn [fst]. by rewrite <- app_assoc.
Qed.

Lemma RenderAliases_over (E : Env) (l : list ptr) (w : World) :
  (∀ p, p ∈ l → ∃ pg, heap w !! p = Some pg ∧ snd (PagePermalink E pg) = None) →
  (∀ a path plink, AliasPublish E a path plink = None) →
  ∃ w', forErr (λ p,
          do pg <- deref p;
          forErr (λ a, let '(plink, err) := PagePermalink E pg in
                       match err with
                       | Some msg => ret (Some msg)
                       | None => WriteAlias E a plink
                       end) (Page.Aliases pg)) l w = Ret None w'
      ∧ heap w' = heap w
      ∧ Site.Pages (site w') = Site.Pages (site w)
      ∧ aliased w' = aliased w ++ flat_map (aliasesOf E (heap w)) l.
Proof.
  intros Hok Hpub. revert w Hok. induction l as [|p l IH]; intros w Hok.
  - exists w. by rewrite app_nil_r.
  - destruct (Hok p) as (pg & Hpg & Hlink); [left|].
    rewrite forErr_cons. unfold bind at 1. rewrite (deref_valid _ _ _ Hpg).
    destruct (forErr_WriteAlias E pg (Page.Aliases pg) w Hlink Hpub)
      as (w1 & Hrun & Hh & Hpages & Hal).
    rewrite Hrun. destruct (IH w1) as (w' & Hrest & Hh' & Hpages' & Hal').
    { intros q Hq. rewrite Hh. apply Hok. by right. }
    exists w'. split; [exact Hrest|]. split; [congruence|]. split; [congruence|].
    rewrite Hal', Hal, Hh. cbn [flat_map]. unfold aliasesOf at 2. rewrite Hpg.
    by rewrite <- app_assoc.
Qed.

(** X5.  When every page of the collection has a permalink and the alias
    publisher accepts everything, [RenderAliases] returns no error and has
    handed the publisher, page after page and alias after alias, each
    alias path with the permalink of its page; pages and heap are as
    before. *)
Theorem RenderAliases_redirects (E : Env) (w : World) :
  (∀ p, p ∈ Site.Pages (site w) →
        ∃ pg, heap w !! p = Some pg ∧ snd (PagePermalink E pg) = None) →
  (∀ a path plink, AliasPublish E a path plink = None) →
  ∃ w', RenderAliases E w = Ret None w'
      ∧ heap w' = heap w
      ∧ Site.Pages (site w') = Site.Pages (site w)
      ∧ aliased w' = aliased w ++ flat_map (aliasesOf E (heap w)) (Site.Pages (site w)).
Proof.
  intros Hok Hpub. unfold RenderAliases. unfold bind at 1, get at 1.
  by apply RenderAliases_over.
Qed.


Lemma RenderAliases_redirects_witness :
  ∃ w', RenderAliases bareEnv movedWorld = Ret None w'
      ∧ heap w' = heap movedWorld
      ∧ Site.Pages (site w') = Site.Pages (site movedWorld)
      ∧ aliased w' = [("old/a", "http://base/a.html"); ("old/b", "http://base/b.html")].
Proof.
  apply (RenderAliases_redirects bareEnv movedWorld).
  - intros p Hp. simpl in Hp.
    repeat (apply elem_of_cons in Hp as [->|Hp]; [by eexists|]).
    by apply elem_of_nil in Hp.
  - reflexivity.
Defined.


(** ** CreatePages *)

Lemma createPage_parsed (E : Env) (f : File.t) (w : World) (pg : Page.t) :
  ReadFrom E (File.Contents f) (File.LogicalName f) = inl pg →
  createPage E f w = Ret None (takeFile E w f).
Proof.
  intros Hread. unfold createPage, takeFile, pageOf. rewrite Hread. monad_unfold.
  cbn [Page.Draft Page.with_file Page.with_Site].
  destruct (_ || _); reflexivity.
Qed.

Lemma createPage_failed (E : Env) (f : File.t) (w : World) (msg : string) :
  ReadFrom E (File.Contents f) (File.LogicalName f) = inr msg →
  createPage E f w = Ret (Some msg) w.
Proof. intros Hread. unfold createPage. by rewrite Hread. Qed.

Lemma forErr_createPage_parsed (E : Env) (l : list File.t) (w : World) :
  allParse E l → forErr (createPage E) l w = Ret None (foldl (takeFile E) w l).
Proof.
  revert w. induction l as [|f l IH]; intros w Hall; [done|].
  destruct (Hall f) as [pg Hpg]; [left|].
  rewrite forErr_cons, (createPage_parsed _ _ _ _ Hpg). cbn [foldl].
  apply IH. intros g Hg. apply Hall. by right.
Qed.

(** What the loop of [CreatePages] leaves when every file parses. *)
Lemma takeFiles_mk (E : Env) (l : list File.t) cfg pages tm il src secs info tgt al
    (h : list Page.t) (lg : list Event) :
  allParse E l →
  foldl (takeFile E) (mkWorld (Site.mk cfg pages tm il src secs info tgt al) h lg) l =
  mkWorld (Site.mk cfg
             (pages ++ keptPointers E info (Config.BuildDrafts cfg) (length h) l)
             tm il src secs info tgt al)
          (h ++ omap (pageOf E info) l) lg.
Proof.
  revert pages h. induction l as [|f l IH]; intros pages h Hall.
  - simpl. by rewrite !app_nil_r.
  - destruct (Hall f) as [pg Hpg]; [left|].
    assert (Hall' : allParse E l) by (intros g Hg; apply Hall; by right).
    assert (Hof : pageOf E info f =
                  Some (Page.with_file (File.Section_ f) (File.Dir f)
                          (Page.with_Site info pg))).
    { unfold pageOf. by rewrite Hpg. }
    cbn [foldl keptPointers omap list_omap]. unfold takeFile at 2.
    cbn [site heap log Site.Info Site.Config Site.Pages Site.with_Pages].
    rewrite Hof.
    destruct (Config.BuildDrafts cfg || negb (Page.Draft _)) eqn:Hk;
      cbv beta iota; unfold Site.with_Pages;
      cbn [Site.Config Site.Pages Site.Tmpl Site.Indexes Site.Source
           Site.Sections Site.Info Site.Target Site.Alias].
    + rewrite (IH _ _ Hall'). rewrite length_app. cbn [length].
      replace (length h + 1)%nat with (S (length h)) by lia.
      by rewrite <- !app_assoc.
    + rewrite (IH _ _ Hall'). rewrite length_app. cbn [length].
      replace (length h + 1)%nat with (S (length h)) by lia.
      by rewrite <- !app_assoc.
Qed.

Lemma takeFiles_spec (E : Env) (l : list File.t) (w : World) :
  allParse E l →
  foldl (takeFile E) w l =
  mkWorld (Site.with_Pages
             (Site.Pages (site w) ++
              keptPointers E (Site.Info (site w))
                (Config.BuildDrafts (Site.Config (site w))) (length (heap w)) l)
             (site w))
          (heap w ++ omap (pageOf E (Site.Info (site w))) l) (log w).
Proof.
  intros Hall. destruct w as [[cfg pages tm il src secs info tgt al] h lg].
  by rewrite takeFiles_mk.
Qed.

Lemma keptPointers_elem (E : Env) (info : SiteInfo.t) (drafts : bool) (base : nat)
    (l : list File.t) (q : ptr) :
  q ∈ keptPointers E info drafts base l ↔
  ∃ i f pg, l !! i = Some f ∧ pageOf E info f = Some pg ∧ q = (base + i)%nat
            ∧ (drafts = true ∨ Page.Draft pg = false).
Proof.
  revert base. induction l as [|f l IH]; intros base.
  - simpl. split; [by intros H%elem_of_nil|]. by intros (i & f & pg & H & _).
  - cbn [keptPointers]. rewrite elem_of_app, IH. split.
    + intros [Hhead|(i & g & pg & Hi & Hpg & -> & Hkeep)].
      * destruct (pageOf E info f) as [pg|] eqn:Hpg; [|by apply elem_of_nil in Hhead].
        destruct (drafts || negb (Page.Draft pg)) eqn:Hk; [|by apply elem_of_nil in Hhead].
        apply list_elem_of_singleton in Hhead as ->.
        exists 0%nat, f, pg. split; [done|]. split; [done|]. split; [lia|].
        destruct drafts; [by left|]. right. simpl in Hk. by destruct (Page.Draft pg).
      * exists (S i), g, pg. split; [done|]. split; [done|]. split; [lia|done].
    + intros (i & g & pg & Hi & Hpg & -> & Hkeep). destruct i as [|i].
      * left. simpl in Hi. injection Hi as <-. rewrite Hpg.
        replace (drafts || negb (Page.Draft pg)) with true.
        -- replace (base + 0)%nat with base by lia. left.
        -- destruct Hkeep as [-> | ->]; [done|]. by rewrite orb_true_r.
      * right. exists i, g, pg. split; [done|]. split; [done|]. split; [lia|done].
Qed.

Lemma lookup_omap_pageOf (E : Env) (info : SiteInfo.t) (l : list File.t) (i : nat)
    (f : File.t) :
  allParse E l → l !! i = Some f → omap (pageOf E info) l !! i = pageOf E info f.
Proof.
  revert i. induction l as [|g l IH]; intros i Hall Hi; [done|].
  destruct (Hall g) as [pg Hpg]; [left|].
  assert (Hof : is_Some (pageOf E info g)) by (unfold pageOf; rewrite Hpg; eauto).
  destruct Hof as [pg' Hpg']. cbn [omap list_omap]. rewrite Hpg'.
  destruct i as [|i]; simpl in Hi.
  - injection Hi as <-. by rewrite Hpg'.
  - simpl. apply IH; [|done]. intros h Hh. apply Hall. by right.
Qed.

Lemma length_omap_pageOf (E : Env) (info : SiteInfo.t) (l : list File.t) :
  allParse E l → length (omap (pageOf E info) l) = length l.
Proof.
  induction l as [|g l IH]; intros Hall; [done|].
  destruct (Hall g) as [pg Hpg]; [left|].
  cbn [omap list_omap]. unfold pageOf at 1. rewrite Hpg. simpl.
  f_equal. apply IH. intros h Hh. apply Hall. by right.
Qed.

(** X7.  When every file of the source parses, [CreatePages] returns no
    error; the heap has one more page for each file, in the order of the
    files, with the section and directory of its file and the site's
    info; the collection is the sort of the pages it had and of the new
    pages that are kept, a page being kept when drafts are built or it is
    no draft; the trace is as before. *)
Theorem CreatePages_appends (E : Env) (w : World) (src : Input) :
  Site.Source (site w) = Some src →
  Files E src ≠ [] →
  allParse E (Files E src) →
  ∃ h' kept,
    CreatePages E w =
      Ret None (mkWorld (Site.with_Pages
                           (SortPages E h' (Site.Pages (site w) ++ kept)) (site w))
                        h' (log w))
    ∧ length h' = (length (heap w) + length (Files E src))%nat
    ∧ (∀ i, (i < length (heap w))%nat → h' !! i = heap w !! i)
    ∧ (∀ i f, Files E src !! i = Some f →
         ∃ pg, ReadFrom E (File.Contents f) (File.LogicalName f) = inl pg
               ∧ h' !! (length (heap w) + i)%nat =
                 Some (Page.with_file (File.Section_ f) (File.Dir f)
                         (Page.with_Site (Site.Info (site w)) pg))
               ∧ ((length (heap w) + i)%nat ∈ kept ↔
                  Config.BuildDrafts (Site.Config (site w)) = true
                  ∨ Page.Draft pg = false))
    ∧ (∀ q, q ∈ kept → (length (heap w) ≤ q < length h')%nat).
Proof.
  intros Hsrc Hfiles Hall.
  set (info := Site.Info (site w)).
  set (drafts := Config.BuildDrafts (Site.Config (site w))).
  exists (heap w ++ omap (pageOf E info) (Files E src)),
         (keptPointers E info drafts (length (heap w)) (Files E src)).
  split; [|split; [|split; [|split]]].
  - unfold CreatePages. unfold bind at 1, get at 1. rewrite Hsrc.
    destruct (Files E src) as [|f l] eqn:Hl; [done|]. cbn [length Nat.ltb Nat.leb].
    unfold orReturn. unfold bind at 1.
    rewrite forErr_createPage_parsed, takeFiles_spec by done.
    unfold bind, modify, ret, sortSitePages, set_site. cbn [site heap log].
    by destruct w as [[] ? ?].
  - by rewrite length_app, length_omap_pageOf.
  - intros i Hi. by apply lookup_app_l.
  - intros i f Hf. destruct (Hall f) as [pg Hpg]; [by eapply list_elem_of_lookup_2|].
    assert (Hof : pageOf E info f =
                  Some (Page.with_file (File.Section_ f) (File.Dir f)
                          (Page.with_Site info pg))).
    { unfold pageOf. by rewrite Hpg. }
    exists pg. split; [done|]. split.
    + rewrite lookup_app_r by lia.
      replace (length (heap w) + i - length (heap w))%nat with i by lia.
      by rewrite (lookup_omap_pageOf E info _ i f).
    + rewrite keptPointers_elem. split.
      * intros (j & g & pg' & Hj & Hg & Heq & Hkeep).
        assert (j = i) as -> by lia. rewrite Hf in Hj. injection Hj as <-.
        rewrite Hof in Hg. injection Hg as <-. exact Hkeep.
      * intros Hkeep.
        exists i, f, (Page.with_file (File.Section_ f) (File.Dir f) (Page.with_Site info pg)).
        split; [done|]. split; [exact Hof|]. split; [done|]. exact Hkeep.
  - intros q Hq. apply keptPointers_elem in Hq as (i & f & pg & Hi & _ & -> & _).
    apply lookup_lt_Some in Hi. rewrite length_app, length_omap_pageOf by done. lia.
Qed.

Lemma CreatePages_appends_witness :
  ∃ h' kept,
    CreatePages bareEnv twoFilesWorld =
      Ret None (mkWorld (Site.with_Pages
                           (SortPages bareEnv h' (Site.Pages (site twoFilesWorld) ++ kept))
                           (site twoFilesWorld))
                        h' (log twoFilesWorld))
    ∧ length h' = (length (heap twoFilesWorld) + 2)%nat
    ∧ (∀ i, (i < length (heap twoFilesWorld))%nat → h' !! i = heap twoFilesWorld !! i)
    ∧ (∀ i f, [sampleFile "draft" "wip"; sampleFile "hello" "first"] !! i = Some f →
         ∃ pg, ReadFrom bareEnv (File.Contents f) (File.LogicalName f) = inl pg
               ∧ h' !! (length (heap twoFilesWorld) + i)%nat =
                 Some (Page.with_file (File.Section_ f) (File.Dir f)
                         (Page.with_Site (Site.Info (site twoFilesWorld)) pg))
               ∧ ((length (heap twoFilesWorld) + i)%nat ∈ kept ↔
                  Config.BuildDrafts (Site.Config (site twoFilesWorld)) = true
                  ∨ Page.Draft pg = false))
    ∧ (∀ q, q ∈ kept → (length (heap twoFilesWorld) ≤ q < length h')%nat).
Proof.
  apply (CreatePages_appends bareEnv twoFilesWorld
           (SuppliedInput [sampleFile "draft" "wip"; sampleFile "hello" "first"])).
  - reflexivity.
  - discriminate.
  - intros f Hf. simpl in Hf.
    repeat (apply elem_of_cons in Hf as [->|Hf]; [by eexists|]).
    by apply elem_of_nil in Hf.
Defined.

(** [CreatePages] at a file that does not parse. *)
Lemma CreatePages_failure (E : Env) (w : World) (src : Input)
    (pre post : list File.t) (f : File.t) (msg : string) :
  Site.Source (site w) = Some src →
  Files E src = pre ++ f :: post →
  allParse E pre →
  ReadFrom E (File.Contents f) (File.LogicalName f) = inr msg →
  ∃ w', CreatePages E w = Ret (Some msg) w'
      ∧ log w' = log w
      ∧ Site.Indexes (site w') = Site.Indexes (site w)
      ∧ Site.Sections (site w') = Site.Sections (site w).
Proof.
  intros Hsrc Hfiles Hall Hread. exists (foldl (takeFile E) w pre). split.
  - unfold CreatePages. unfold bind at 1, get at 1. rewrite Hsrc, Hfiles.
    destruct (pre ++ f :: post) as [|g l] eqn:Hl; [by destruct pre|].
    cbn [length Nat.ltb Nat.leb]. rewrite <- Hl.
    unfold orReturn. unfold bind at 1.
    by rewrite forErr_app, forErr_createPage_parsed, forErr_cons,
               (createPage_failed _ _ _ _ Hread).
  - rewrite takeFiles_spec by done. by destruct w as [[] ? ?].
Qed.



(** ** Build *)

(** X9.  A source file that does not parse makes [Build] return the
    parser's error, when the files before it parse: all [Build] has done
    by then is the first timer step, so no index is built, no template
    executed and nothing published. *)
Theorem Build_parse_error (E : Env) (w w0 : World) (e : error) (src : Input)
    (pre post : list File.t) (f : File.t) (msg : string) :
  initialize E w = Ret e w0 →
  Site.Source (site w0) = Some src →
  Files E src = pre ++ f :: post →
  allParse E pre →
  ReadFrom E (File.Contents f) (File.LogicalName f) = inr msg →
  ∃ w', Build E w = Ret (Some msg) w'
      ∧ log w' = log w ++ [EvTimer "initialize & template prep"]
      ∧ Site.Indexes (site w') = Site.Indexes (site w0)
      ∧ Site.Sections (site w') = Site.Sections (site w0).
Proof.
  intros Hinit Hsrc Hfiles Hall Hread.
  destruct (initialize_keeps E w) as (e' & w0' & Hinit' & _ & _ & _ & _ & Hlog).
  rewrite Hinit in Hinit'. injection Hinit' as <- <-.
  unfold Build, Process, orReturn. unfold bind at 1 2. rewrite Hinit.
  unfold bind at 1. unfold prepTemplates at 1, modify at 1.
  unfold bind at 1. unfold timerStep at 1, say at 1, modify at 1.
  set (wa := emit _ (set_site _ w0)).
  destruct (CreatePages_failure E wa src pre post f msg) as (w' & Hrun & Hl & Hs);
    try done.
  unfold bind at 1. rewrite Hrun. exists w'. split; [done|].
  rewrite Hl. destruct Hs as [-> ->]. subst wa. simpl. by rewrite Hlog.
Qed.

Lemma Build_parse_error_witness :
  ∃ w', Build badFileEnv (newWorld (sampleConfig false false) None)
        = Ret (Some "cannot parse second") w'
      ∧ log w' = [EvTimer "initialize & template prep"]
      ∧ Site.Indexes (site w') = ∅
      ∧ Site.Sections (site w') = ∅.
Proof.
  destruct (Build_parse_error badFileEnv (newWorld (sampleConfig false false) None)
              initializedWorld None (Filesystem ["/site/static/"] "/site/content")
              [sampleFile "hello" "first"] [sampleFile "hello" "third"]
              (sampleFile "bad" "second") "cannot parse second")
    as (w' & Hbuild & Hlog & Hidx & Hsec).
  - vm_compute. reflexivity.
  - reflexivity.
  - reflexivity.
  - intros f Hf. apply list_elem_of_singleton in Hf as ->. by eexists.
  - reflexivity.
  - exists w'. split; [exact Hbuild|]. split; [exact Hlog|]. split; assumption.
Defined.

Lemma forEach_say_log (X : Type) (f : X → Event) (l : list X) (w : World) :
  forEach (λ x, say (f x)) l w = Ret tt (mkWorld (site w) (heap w) (log w ++ (f <$> l))).
Proof.
  revert w. induction l as [|x l IH]; intros w.
  - simpl. rewrite app_nil_r. by destruct w.
  - rewrite forEach_cons. unfold say at 1, modify at 1. rewrite IH.
    unfold emit. simpl. by rewrite <- app_assoc.
Qed.

(** X10.  When [Render] returns an error, [Build] returns it after
    printing it and, one on a line, the names of the templates of the
    site; nothing else changes. *)
Theorem Build_reports_render_error (E : Env) (w w1 w2 : World) (msg : string) :
  Process E w = Ret None w1 →
  Render E w1 = Ret (Some msg) w2 →
  Build E w =
  Ret (Some msg)
      (mkWorld (site w2) (heap w2)
         (log w2
          ++ [EvStdout ("Error rendering site: " +:+ msg +:+ nl +:+ "Available templates:" +:+ nl)]
          ++ ((λ entry : string * string, EvStdout (tab +:+ fst entry +:+ nl))
                <$> rangeMap E (Site.Tmpl (site w2))))).
Proof.
  intros Hproc Hrender. unfold Build, orReturn. unfold bind at 1. rewrite Hproc.
  unfold bind at 1. rewrite Hrender.
  unfold bind at 1, say at 1, modify at 1. unfold bind at 1, get at 1.
  unfold bind at 1.
  rewrite (forEach_say_log _ (λ entry : string * string, EvStdout (tab +:+ fst entry +:+ nl))).
  unfold ret, emit. simpl. by rewrite <- app_assoc.
Qed.

Lemma Build_reports_render_error_witness :
  ∃ w1 w2,
    Process homeRefusedEnv (newWorld (sampleConfig false false) None) = Ret None w1
    ∧ Render homeRefusedEnv w1 = Ret (Some "disk full") w2
    ∧ Build homeRefusedEnv (newWorld (sampleConfig false false) None) =
      Ret (Some "disk full")
        (mkWorld (site w2) (heap w2)
           (log w2
            ++ [EvStdout ("Error rendering site: " +:+ "disk full" +:+ nl
                          +:+ "Available templates:" +:+ nl)]
            ++ ((λ entry : string * string, EvStdout (tab +:+ fst entry +:+ nl))
                  <$> rangeMap homeRefusedEnv (Site.Tmpl (site w2))))).
Proof.
  do 2 eexists. split; [vm_compute; reflexivity|]. split; [vm_compute; reflexivity|].
  eapply (Build_reports_render_error homeRefusedEnv
            (newWorld (sampleConfig false false) None)).
  - vm_compute. reflexivity.
  - vm_compute. reflexivity.
Defined.

(** ** Render *)

(** X11.  The five sub-stages of [Render] whose result is looked at:
    when one of them returns an error, the stages before it having
    returned none, [Render] returns that error in the state that stage
    left, so that no later stage and no later timer step has run. *)
Theorem Render_returns_stage_error (E : Env) (w : World) (msg : string) (w' : World) :
  (RenderAliases E w = Ret (Some msg) w' → Render E w = Ret (Some msg) w')
  ∧ (∀ w1 w2,
       RenderAliases E w = Ret None w1 →
       ProcessShortcodes E (emit (EvTimer "render and write aliases") w1) = Ret tt w2 →
       let w3 := emit (EvTimer "absolute URLify") (emit (EvTimer "render shortcodes") w2) in
       (RenderIndexes E w3 = Ret (Some msg) w' → Render E w = Ret (Some msg) w')
       ∧ (∀ w4 e5 w5,
            RenderIndexes E w3 = Ret None w4 →
            RenderIndexesIndexes E (emit (EvTimer "render and write indexes") w4)
              = Ret e5 w5 →
            let w6 := emit (EvTimer "render & write index indexes") w5 in
            (RenderLists E w6 = Ret (Some msg) w' → Render E w = Ret (Some msg) w')
            ∧ (∀ w7,
                 RenderLists E w6 = Ret None w7 →
                 let w8 := emit (EvTimer "render and write lists") w7 in
                 (RenderPages E w8 = Ret (Some msg) w' → Render E w = Ret (Some msg) w')
                 ∧ (∀ w9,
                      RenderPages E w8 = Ret None w9 →
                      RenderHomePage E (emit (EvTimer "render and write pages") w9)
                        = Ret (Some msg) w' →
                      Render E w = Ret (Some msg) w')))).
Proof.
  split.
  { intros H. unfold Render, orReturn. unfold bind at 1. by rewrite H. }
  intros w1 w2 H1 H2 w3.
  assert (R3 : Render E w =
    orReturn (RenderIndexes E)
      (run timerStep "render and write indexes";
       do _ <- RenderIndexesIndexes E;
       run timerStep "render & write index indexes";
       check RenderLists E;
       run timerStep "render and write lists";
       check RenderPages E;
       run timerStep "render and write pages";
       check RenderHomePage E;
       run timerStep "render and write homepage";
       ret None) w3).
  { unfold Render. unfold orReturn at 1. unfold bind at 1. rewrite H1.
    unfold bind at 1. unfold timerStep at 1, say at 1, modify at 1.
    unfold bind at 1. rewrite H2. reflexivity. }
  split.
  { intros H. rewrite R3. unfold orReturn at 1. unfold bind at 1. by rewrite H. }
  intros w4 e5 w5 H4 H5 w6.
  assert (R6 : Render E w =
    orReturn (RenderLists E)
      (run timerStep "render and write lists";
       check RenderPages E;
       run timerStep "render and write pages";
       check RenderHomePage E;
       run timerStep "render and write homepage";
       ret None) w6).
  { rewrite R3. unfold orReturn at 1. unfold bind at 1. rewrite H4.
    unfold bind at 1. unfold timerStep at 1, say at 1, modify at 1.
    unfold bind at 1. rewrite H5. reflexivity. }
  split.
  { intros H. rewrite R6. unfold orReturn at 1. unfold bind at 1. by rewrite H. }
  intros w7 H7 w8.
  assert (R8 : Render E w =
    orReturn (RenderPages E)
      (run timerStep "render and write pages";
       check RenderHomePage E;
       run timerStep "render and write homepage";
       ret None) w8).
  { rewrite R6. unfold orReturn at 1. unfold bind at 1. rewrite H7. reflexivity. }
  split.
  { intros H. rewrite R8. unfold orReturn at 1. unfold bind at 1. by rewrite H. }
  intros w9 H9 H10. rewrite R8. unfold orReturn at 1. unfold bind at 1. rewrite H9.
  unfold bind at 1. unfold timerStep at 1, say at 1, modify at 1.
  unfold orReturn at 1. unfold bind at 1. by rewrite H10.
Qed.

Lemma Render_returns_stage_error_witness :
  ∃ w', Render homeRefusedEnv readyWorld = Ret (Some "disk full") w'.
Proof.
  eexists.
  edestruct (Render_returns_stage_error homeRefusedEnv readyWorld "disk full") as [_ H].
  edestruct H as [_ H3]; [vm_compute; reflexivity|vm_compute; reflexivity|].
  edestruct H3 as [_ H6]; [vm_compute; reflexivity|vm_compute; reflexivity|].
  edestruct H6 as [_ H8]; [vm_compute; reflexivity|].
  eapply H8; [vm_compute; reflexivity|vm_compute; reflexivity].
Defined.

(** ** The paths of a build without failures *)

Lemma Frame_refl (w : World) : Frame w w.
Proof. by repeat split. Qed.

Lemma Frame_trans (w1 w2 w3 : World) : Frame w1 w2 → Frame w2 w3 → Frame w1 w3.
Proof.
  intros (?&?&?&?&?&?&?) (?&?&?&?&?&?&?). repeat split; congruence.
Qed.

Lemma published_app (s : Site.t) (h : list Page.t) (lg extra : list Event) :
  published (mkWorld s h (lg ++ extra)) =
  published (mkWorld s h lg) ++ published (mkWorld s h extra).
Proof. unfold published. simpl. apply omap_app. Qed.

Lemma forErr_paths {X} (body : X → M error) (f : X → list string) (l : list X)
    (w : World) :
  (∀ x w1, x ∈ l → Frame w w1 →
     ∃ w2, body x w1 = Ret None w2 ∧ Frame w1 w2
           ∧ published w2 = published w1 ++ f x) →
  ∃ w', forErr body l w = Ret None w' ∧ Frame w w'
        ∧ published w' = published w ++ flat_map f l.
Proof.
  revert w. induction l as [|x l IH]; intros w Hbody.
  - exists w. split; [done|]. split; [apply Frame_refl|]. by rewrite app_nil_r.
  - destruct (Hbody x w) as (w1 & Hrun & Hf1 & Hp1); [left|apply Frame_refl|].
    rewrite forErr_cons, Hrun.
    destruct (IH w1) as (w' & Hrest & Hf' & Hp').
    { intros y w2 Hy Hf2. apply Hbody; [by right|]. by eapply Frame_trans. }
    exists w'. split; [exact Hrest|]. split; [by eapply Frame_trans|].
    rewrite Hp', Hp1. cbn [flat_map]. by rewrite <- app_assoc.
Qed.

Section Accepting.
Context (E : Env).
Hypothesis Hurl : UrlsParse E.
Hypothesis Hexec : TemplatesRun E.
Hypothesis Hpub : PublishAccepts E.

(** [render] when nothing fails. *)
Lemma render_ok (d : Renderable) (out : string) (layouts : list string) (w : World) :
  liveRenderable (heap w) d →
  ∃ w', render E d out layouts w = Ret None w' ∧ Frame w w'
        ∧ published w' = published w ++ pathIf (Site.Tmpl (site w)) layouts out.
Proof using Hexec Hpub.
  intros Hlive. unfold pathIf.
  destruct (decide (findFirstLayout (Site.Tmpl (site w)) layouts = "")) as [Hmiss|Hfound].
  - unfold render. monad_unfold. rewrite decide_True by exact Hmiss.
    destruct (verbose w).
    + eexists. split; [reflexivity|]. split; [by repeat split|].
      unfold published. simpl. rewrite omap_app. simpl. by rewrite !app_nil_r.
    + exists w. split; [done|]. split; [apply Frame_refl|]. by rewrite app_nil_r.
  - pose proof (Hexec (Site.Tmpl (site w)) (heap w)
                  (findFirstLayout (Site.Tmpl (site w)) layouts) d) as Hok.
    destruct (ExecuteTemplate E _ _ _ d) as [output err] eqn:Hrun.
    simpl in Hok. subst err.
    rewrite (render_run E d out layouts w output Hlive Hfound Hrun), Hpub.
    eexists. split; [reflexivity|]. split; [by repeat split|].
    rewrite !published_app. unfold published, announce. simpl.
    destruct (verbose w); simpl; by rewrite ?app_nil_r; destruct w.
Qed.

Lemma permalink_run (plink : string) (w : World) :
  permalink E plink w =
  Ret (ResolveReference E (Config.BaseUrl (Site.Config (site w))) plink) w.
Proof using Hurl. unfold permalink. monad_unfold. by rewrite !Hurl. Qed.

Lemma hasTemplate_run (name : string) (w : World) :
  hasTemplate name w = Ret (bool_decide (is_Some (Site.Tmpl (site w) !! name))) w.
Proof. reflexivity. Qed.

Lemma pathIf_single (tm : Templates) (name out : string) :
  name ≠ "" →
  pathIf tm [name] out = if bool_decide (is_Some (tm !! name)) then [out] else [].
Proof.
  intros Hne. unfold pathIf. cbn [findFirstLayout].
  destruct (tm !! name) as [text|] eqn:Hl.
  - rewrite decide_False by done. rewrite bool_decide_true; [done|by eexists].
  - rewrite decide_True by done. rewrite bool_decide_false; [done|].
    by intros [? ?].
Qed.

Lemma homeNode_run (w : World) :
  (∀ first rest, Site.Pages (site w) = first :: rest → is_Some (heap w !! first)) →
  ∃ n, homeNode E w = Ret n w.
Proof using Hurl.
  intros Hlive. unfold homeNode. unfold bind at 1, get at 1.
  unfold bind at 1. rewrite permalink_run.
  unfold bind at 1. rewrite permalink_run.
  destruct (Site.Pages (site w)) as [|first rest] eqn:Hpages; [by eexists|].
  destruct (Hlive first rest eq_refl) as [pg Hpg].
  unfold bind at 1. rewrite (deref_valid _ _ _ Hpg).
  destruct (_ <? _)%nat; by eexists.
Qed.

(** [RenderHomePage] somewhere in a run that began in [w0]. *)
Lemma RenderHomePage_from (w0 w : World) :
  Frame w0 w →
  (∀ first rest, Site.Pages (site w0) = first :: rest → is_Some (heap w0 !! first)) →
  ∃ w', RenderHomePage E w = Ret None w' ∧ Frame w w'
        ∧ published w' = published w ++ homePaths (Site.Tmpl (site w0)).
Proof using Hurl Hexec Hpub.
  intros Hf0 Hlive0.
  assert (Hlive : ∀ first rest, Site.Pages (site w) = first :: rest →
                                is_Some (heap w !! first)).
  { destruct Hf0 as (-> & _ & -> & _). exact Hlive0. }
  replace (Site.Tmpl (site w0)) with (Site.Tmpl (site w)) by apply Hf0.
  clear w0 Hf0 Hlive0. unfold RenderHomePage, homePaths.
  destruct (homeNode_run w Hlive) as [n Hn]. unfold bind at 1. rewrite Hn.
  destruct (render_ok (RNode n) "/" ["index.html"] w I) as (w1 & Hr1 & Hf1 & Hp1).
  unfold orReturn at 1. unfold bind at 1. rewrite Hr1.
  assert (Htm1 : Site.Tmpl (site w1) = Site.Tmpl (site w)) by apply Hf1.
  unfold bind at 1. unfold homeFeed. unfold bind at 1. rewrite hasTemplate_run, Htm1.
  rewrite (pathIf_single _ "rss.xml") by done.
  rewrite (pathIf_single _ "404.html") by done.
  destruct (bool_decide (is_Some (Site.Tmpl (site w) !! "rss.xml"))) eqn:Hrss;
    cbv beta iota.
  - unfold bind at 1. rewrite permalink_run.
    match goal with
    | |- context [render E (RNode ?n1) ".xml" ["rss.xml"]] =>
        destruct (render_ok (RNode n1) ".xml" ["rss.xml"] w1 I) as (w2 & Hr2 & Hf2 & Hp2)
    end.
    unfold bind at 1. rewrite Hr2. cbn [ret fst snd].
    assert (Htm2 : Site.Tmpl (site w2) = Site.Tmpl (site w)).
    { destruct Hf2 as (_ & _ & _ & -> & _). exact Htm1. }
    rewrite (pathIf_single _ "rss.xml") in Hp2 by done. rewrite Htm1, Hrss in Hp2.
    unfold bind at 1. rewrite hasTemplate_run, Htm2.
    destruct (bool_decide (is_Some (Site.Tmpl (site w) !! "404.html"))) eqn:H404;
      cbv beta iota.
    + unfold bind at 1. rewrite permalink_run.
      match goal with
      | |- context [render E (RNode ?n2) "404.html" ["404.html"]] =>
          destruct (render_ok (RNode n2) "404.html" ["404.html"] w2 I)
            as (w3 & Hr3 & Hf3 & Hp3)
      end.
      rewrite (pathIf_single _ "404.html") in Hp3 by done. rewrite Htm2, H404 in Hp3.
      exists w3. split; [exact Hr3|].
      split; [eapply Frame_trans; [|exact Hf3]; by eapply Frame_trans|].
      by rewrite Hp3, Hp2, Hp1, <- !app_assoc.
    + exists w2. split; [done|]. split; [by eapply Frame_trans|].
      by rewrite Hp2, Hp1, app_nil_r, <- !app_assoc.
  - cbn [ret fst snd].
    unfold bind at 1. rewrite hasTemplate_run, Htm1.
    destruct (bool_decide (is_Some (Site.Tmpl (site w) !! "404.html"))) eqn:H404;
      cbv beta iota.
    + unfold bind at 1. rewrite permalink_run.
      match goal with
      | |- context [render E (RNode ?n2) "404.html" ["404.html"]] =>
          destruct (render_ok (RNode n2) "404.html" ["404.html"] w1 I)
            as (w3 & Hr3 & Hf3 & Hp3)
      end.
      rewrite (pathIf_single _ "404.html") in Hp3 by done. rewrite Htm1, H404 in Hp3.
      exists w3. split; [exact Hr3|]. split; [by eapply Frame_trans|].
      by rewrite Hp3, Hp1, <- !app_assoc.
    + exists w1. split; [done|]. split; [done|].
      by rewrite Hp1, !app_nil_r.
Qed.

(** X12.  When URLs parse, templates execute and the destination accepts
    everything, [RenderHomePage] returns no error and publishes, in this
    order, "/" if there is a template "index.html", ".xml" if there is a
    template "rss.xml" and "404.html" if there is a template "404.html",
    and nothing else. *)
Theorem RenderHomePage_paths (w : World) :
  (∀ first rest, Site.Pages (site w) = first :: rest → is_Some (heap w !! first)) →
  ∃ w', RenderHomePage E w = Ret None w' ∧ Frame w w'
        ∧ published w' = published w ++ homePaths (Site.Tmpl (site w)).
Proof using Hurl Hexec Hpub.
  intros Hlive. apply RenderHomePage_from; [apply Frame_refl|exact Hlive].
Qed.

Lemma firstDate_run (o : list ptr) (p : ptr) (rest : list ptr) (w : World) :
  o = p :: rest → is_Some (heap w !! p) → ∃ date, firstDate o w = Ret date w.
Proof.
  intros -> [pg Hpg]. simpl. unfold bind. rewrite (deref_valid _ _ _ Hpg). by eexists.
Qed.

Lemma renderSection_ok (w0 w : World) (section : string) (data : list ptr) :
  Frame w0 w →
  (∃ p rest, data = p :: rest ∧ is_Some (heap w0 !! p)) →
  ∃ w', renderSection E (section, data) w = Ret None w' ∧ Frame w w'
        ∧ published w' = published w ++ sectionPaths (Site.Tmpl (site w0)) (section, data).
Proof using Hurl Hexec Hpub.
  intros Hf (p & rest & Hdata & Hlive).
  assert (Hheap : heap w = heap w0) by apply Hf.
  assert (Htm : Site.Tmpl (site w) = Site.Tmpl (site w0)) by apply Hf.
  unfold renderSection, sectionPaths. cbn [fst].
  unfold bind at 1, get at 1. unfold bind at 1. rewrite permalink_run.
  unfold bind at 1. rewrite permalink_run.
  destruct (firstDate_run data p rest w Hdata) as [date Hdate]; [by rewrite Hheap|].
  unfold bind at 1. rewrite Hdate.
  match goal with
  | |- context [render E (RNode ?n) section ?ls] =>
      destruct (render_ok (RNode n) section ls w I) as (w1 & Hr1 & Hf1 & Hp1)
  end.
  unfold orReturn at 1. unfold bind at 1. rewrite Hr1.
  assert (Htm1 : Site.Tmpl (site w1) = Site.Tmpl (site w0)).
  { destruct Hf1 as (_ & _ & _ & -> & _). exact Htm. }
  unfold bind at 1. rewrite hasTemplate_run, Htm1. rewrite Htm in Hp1.
  rewrite (pathIf_single _ "rss.xml") by done.
  destruct (bool_decide (is_Some (Site.Tmpl (site w0) !! "rss.xml"))) eqn:Hrss;
    cbv beta iota.
  - match goal with
    | |- context [render E (RNode ?n) (section +:+ ".xml") ["rss.xml"]] =>
        destruct (render_ok (RNode n) (section +:+ ".xml") ["rss.xml"] w1 I)
          as (w2 & Hr2 & Hf2 & Hp2)
    end.
    rewrite (pathIf_single _ "rss.xml") in Hp2 by done. rewrite Htm1, Hrss in Hp2.
    unfold orReturn at 1. unfold bind at 1. rewrite Hr2.
    exists w2. split; [done|]. split; [by eapply Frame_trans|].
    by rewrite Hp2, Hp1, <- !app_assoc.
  - exists w1. split; [done|]. split; [done|]. by rewrite Hp1, app_nil_r.
Qed.

(** [RenderLists] somewhere in a run that began in [w0]. *)
Lemma RenderLists_from (w0 w : World) :
  Frame w0 w →
  headsLive (heap w0) (Site.Sections (site w0)) →
  ∃ w', RenderLists E w = Ret None w' ∧ Frame w w'
        ∧ published w' =
          published w ++ flat_map (sectionPaths (Site.Tmpl (site w0)))
                           (rangeMap E (Site.Sections (site w0))).
Proof using Hurl Hexec Hpub.
  intros Hf0 Hheads. unfold RenderLists. unfold bind at 1, get at 1.
  replace (Site.Sections (site w)) with (Site.Sections (site w0)) by (symmetry; apply Hf0).
  apply forErr_paths. intros [section data] w1 Hin Hf.
  apply renderSection_ok; [by eapply Frame_trans|].
  by apply (Hheads section), (rangeMap_elem E).
Qed.

(** X13.  When URLs parse, templates execute and the destination accepts
    everything, [RenderLists] returns no error and publishes for each
    section, in the order of the range: the section name as the path of
    the list, if the section's own layout or the default list layout
    exists, and the section name with ".xml" if there is a template
    "rss.xml". *)
Theorem RenderLists_paths (w : World) :
  headsLive (heap w) (Site.Sections (site w)) →
  ∃ w', RenderLists E w = Ret None w' ∧ Frame w w'
        ∧ published w' =
          published w ++ flat_map (sectionPaths (Site.Tmpl (site w)))
                           (rangeMap E (Site.Sections (site w))).
Proof using Hurl Hexec Hpub.
  intros Hheads. apply RenderLists_from; [apply Frame_refl|exact Hheads].
Qed.

Lemma renderTerm_ok (w0 w : World) (singular plural key : string) (o : list ptr) :
  Frame w0 w →
  (∃ p rest, o = p :: rest ∧ is_Some (heap w0 !! p)) →
  ∃ w', renderTerm E singular plural (key, o) w = Ret None w' ∧ Frame w w'
        ∧ published w' =
          published w ++ termPaths (Site.Tmpl (site w0)) singular plural (key, o).
Proof using Hurl Hexec Hpub.
  intros Hf (p & rest & Hdata & Hlive).
  assert (Hheap : heap w = heap w0) by apply Hf.
  assert (Htm : Site.Tmpl (site w) = Site.Tmpl (site w0)) by apply Hf.
  unfold renderTerm, termPaths. cbn [fst].
  unfold bind at 1, get at 1. unfold bind at 1. rewrite permalink_run.
  unfold bind at 1. rewrite permalink_run.
  destruct (firstDate_run o p rest w Hdata) as [date Hdate]; [by rewrite Hheap|].
  unfold bind at 1. rewrite Hdate.
  match goal with
  | |- context [render E (RNode ?n) ?out ["indexes/" +:+ singular +:+ ".html"]] =>
      destruct (render_ok (RNode n) out ["indexes/" +:+ singular +:+ ".html"] w I)
        as (w1 & Hr1 & Hf1 & Hp1)
  end.
  unfold orReturn at 1. unfold bind at 1. rewrite Hr1.
  assert (Htm1 : Site.Tmpl (site w1) = Site.Tmpl (site w0)).
  { destruct Hf1 as (_ & _ & _ & -> & _). exact Htm. }
  unfold bind at 1. rewrite hasTemplate_run, Htm1. rewrite Htm in Hp1.
  rewrite (pathIf_single _ "rss.xml") by done.
  destruct (bool_decide (is_Some (Site.Tmpl (site w0) !! "rss.xml"))) eqn:Hrss;
    cbv beta iota.
  - unfold bind at 1. rewrite permalink_run.
    match goal with
    | |- context [render E (RNode ?n) ?out ["rss.xml"]] =>
        destruct (render_ok (RNode n) out ["rss.xml"] w1 I) as (w2 & Hr2 & Hf2 & Hp2)
    end.
    rewrite (pathIf_single _ "rss.xml") in Hp2 by done. rewrite Htm1, Hrss in Hp2.
    unfold orReturn at 1. unfold bind at 1. rewrite Hr2.
    exists w2. split; [done|]. split; [by eapply Frame_trans|].
    by rewrite Hp2, Hp1, <- !app_assoc.
  - exists w1. split; [done|]. split; [done|]. by rewrite Hp1, app_nil_r.
Qed.

(** [RenderIndexes] somewhere in a run that began in [w0]. *)
Lemma RenderIndexes_from (w0 w : World) :
  Frame w0 w →
  (∀ plural idx, Site.Indexes (site w0) !! plural = Some idx → headsLive (heap w0) idx) →
  ∃ w', RenderIndexes E w = Ret None w' ∧ Frame w w'
        ∧ published w' =
          published w ++
          flat_map (λ field : string * string,
                      flat_map (termPaths (Site.Tmpl (site w0)) (fst field) (snd field))
                        (rangeMap E (default ∅ (Site.Indexes (site w0) !! snd field))))
            (rangeMap E (Config.Indexes (Site.Config (site w0)))).
Proof using Hurl Hexec Hpub.
  intros Hf0 Hheads. unfold RenderIndexes. unfold bind at 1, get at 1.
  replace (Site.Config (site w)) with (Site.Config (site w0)) by (symmetry; apply Hf0).
  apply forErr_paths. intros [singular plural] w1 _ Hf1. cbn [fst snd].
  unfold bind at 1, get at 1.
  assert (Hil : Site.Indexes (site w1) = Site.Indexes (site w0)).
  { destruct Hf1 as (_ & _ & _ & _ & -> & _). apply Hf0. }
  rewrite Hil.
  destruct (forErr_paths (renderTerm E singular plural)
              (termPaths (Site.Tmpl (site w0)) singular plural)
              (rangeMap E (default ∅ (Site.Indexes (site w0) !! plural))) w1)
    as (w2 & Hrun & Hf2 & Hp2).
  { intros [key o] w2 Hin Hf2. apply renderTerm_ok.
    - eapply Frame_trans; [|exact Hf2]. by eapply Frame_trans.
    - apply rangeMap_elem in Hin.
      destruct (Site.Indexes (site w0) !! plural) as [idx|] eqn:Hidx; simpl in Hin.
      + by apply (Hheads plural idx Hidx key).
      + by rewrite lookup_empty in Hin. }
  by exists w2.
Qed.

(** X14.  When URLs parse, templates execute and the destination accepts
    everything, [RenderIndexes] returns no error and publishes for each
    field and each key of its index, in the order of the ranges:
    plural/key.html if the template "indexes/" singular ".html" exists,
    and plural/key.xml if there is a template "rss.xml". *)
Theorem RenderIndexes_paths (w : World) :
  (∀ plural idx, Site.Indexes (site w) !! plural = Some idx → headsLive (heap w) idx) →
  ∃ w', RenderIndexes E w = Ret None w' ∧ Frame w w'
        ∧ published w' =
          published w ++
          flat_map (λ field : string * string,
                      flat_map (termPaths (Site.Tmpl (site w)) (fst field) (snd field))
                        (rangeMap E (default ∅ (Site.Indexes (site w) !! snd field))))
            (rangeMap E (Config.Indexes (Site.Config (site w)))).
Proof using Hurl Hexec Hpub.
  intros Hheads. apply RenderIndexes_from; [apply Frame_refl|exact Hheads].
Qed.

(** [RenderIndexesIndexes] somewhere in a run that began in [w0]. *)
Lemma RenderIndexesIndexes_from (w0 w : World) :
  Frame w0 w →
  ∃ w', RenderIndexesIndexes E w = Ret None w' ∧ Frame w w'
        ∧ published w' =
          published w ++
          (if bool_decide (is_Some (Site.Tmpl (site w0) !! "indexes/indexes.html"))
           then (λ field : string * string, snd field +:+ "/index.html")
                  <$> rangeMap E (Config.Indexes (Site.Config (site w0)))
           else [])
        ∧ (Site.Tmpl (site w0) !! "indexes/indexes.html" = None → w' = w).
Proof using Hurl Hexec Hpub.
  intros Hf0.
  replace (Site.Tmpl (site w0)) with (Site.Tmpl (site w)) by apply Hf0.
  replace (Site.Config (site w0)) with (Site.Config (site w)) by apply Hf0.
  clear w0 Hf0.
  unfold RenderIndexesIndexes. unfold bind at 1. rewrite hasTemplate_run.
  destruct (Site.Tmpl (site w) !! "indexes/indexes.html") as [text|] eqn:Hl.
  - rewrite bool_decide_true by (by eexists). unfold bind at 1, get at 1.
    destruct (forErr_paths (renderField E "indexes/indexes.html")
                (λ field : string * string, [snd field +:+ "/index.html"])
                (rangeMap E (Config.Indexes (Site.Config (site w)))) w)
      as (w' & Hrun & Hf & Hp).
    { intros [singular plural] w1 _ Hf1. unfold renderField.
      unfold bind at 1, get at 1. unfold bind at 1. rewrite permalink_run.
      match goal with
      | |- context [render E (RNode ?n) ?out ["indexes/indexes.html"]] =>
          destruct (render_ok (RNode n) out ["indexes/indexes.html"] w1 I)
            as (w2 & Hr2 & Hf2 & Hp2)
      end.
      exists w2. split; [done|]. split; [done|]. rewrite Hp2.
      rewrite (pathIf_single _ "indexes/indexes.html") by done.
      destruct Hf1 as (_ & _ & _ & -> & _).
      rewrite bool_decide_true; [done|]. rewrite Hl. by eexists. }
    exists w'. split; [done|]. split; [done|]. split; [|done].
    rewrite Hp. apply (f_equal (app (published w))).
    induction (rangeMap E _) as [|x l IH]; [done|].
    rewrite fmap_cons. cbn [flat_map app]. by f_equal.
  - rewrite bool_decide_false by (by intros [? ?]).
    exists w. split; [done|]. split; [apply Frame_refl|]. by rewrite app_nil_r.
Qed.

(** X15.  [RenderIndexesIndexes] does nothing when the template
    "indexes/indexes.html" is missing; when it is there, URLs parse,
    templates execute and the destination accepts everything, it returns
    no error and publishes plural/index.html for each field, in the order
    of the range. *)
Theorem RenderIndexesIndexes_paths (w : World) :
  ∃ w', RenderIndexesIndexes E w = Ret None w' ∧ Frame w w'
        ∧ published w' =
          published w ++
          (if bool_decide (is_Some (Site.Tmpl (site w) !! "indexes/indexes.html"))
           then (λ field : string * string, snd field +:+ "/index.html")
                  <$> rangeMap E (Config.Indexes (Site.Config (site w)))
           else [])
        ∧ (Site.Tmpl (site w) !! "indexes/indexes.html" = None → w' = w).
Proof using Hurl Hexec Hpub.
  apply RenderIndexesIndexes_from, Frame_refl.
Qed.

Lemma renderPage_ok (w0 w : World) (p : ptr) (pg : Page.t) :
  Frame w0 w → heap w0 !! p = Some pg → IsRenderable E pg = true →
  ∃ w', renderPage E p w = Ret None w' ∧ Frame w w'
        ∧ published w' = published w ++ pagePaths E (Site.Tmpl (site w0)) (heap w0) p.
Proof using Hexec Hpub.
  intros Hf Hpg Hren.
  assert (Hheap : heap w = heap w0) by apply Hf.
  assert (Htm : Site.Tmpl (site w) = Site.Tmpl (site w0)) by apply Hf.
  unfold renderPage, pagePaths. rewrite Hpg.
  unfold bind at 1. rewrite (deref_valid p w pg) by (by rewrite Hheap).
  rewrite Hren. cbn [negb].
  destruct (render_ok (RPage p) (TargetPath E pg)
              (Layout E pg ++ ["_default/single.html"]) w) as (w1 & Hr & Hf1 & Hp).
  { simpl. rewrite Hheap, Hpg. by eexists. }
  exists w1. split; [done|]. split; [done|]. by rewrite Hp, Htm.
Qed.

(** [RenderPages] somewhere in a run that began in [w0]. *)
Lemma RenderPages_from (w0 w : World) :
  Frame w0 w →
  (∀ p, p ∈ Site.Pages (site w0) →
        ∃ pg, heap w0 !! p = Some pg ∧ IsRenderable E pg = true) →
  ∃ w', RenderPages E w = Ret None w' ∧ Frame w w'
        ∧ published w' =
          published w ++ flat_map (pagePaths E (Site.Tmpl (site w0)) (heap w0))
                           (Site.Pages (site w0)).
Proof using Hexec Hpub.
  intros Hf0 Hpages. unfold RenderPages. unfold bind at 1, get at 1.
  replace (Site.Pages (site w)) with (Site.Pages (site w0)) by (symmetry; apply Hf0).
  apply forErr_paths. intros p w1 Hin Hf.
  destruct (Hpages p Hin) as (pg & Hpg & Hren).
  eapply renderPage_ok; [by eapply Frame_trans|done|done].
Qed.

(** X16.  When every page of the collection is in the heap and takes a
    layout, templates execute and the destination accepts everything,
    [RenderPages] returns no error and publishes, page after page, the
    target path of each page for which one of its own layouts or
    "_default/single.html" exists; a page without any is passed over. *)
Theorem RenderPages_paths (w : World) :
  (∀ p, p ∈ Site.Pages (site w) →
        ∃ pg, heap w !! p = Some pg ∧ IsRenderable E pg = true) →
  ∃ w', RenderPages E w = Ret None w' ∧ Frame w w'
        ∧ published w' =
          published w ++ flat_map (pagePaths E (Site.Tmpl (site w)) (heap w))
                           (Site.Pages (site w)).
Proof using Hexec Hpub.
  intros Hpages. apply RenderPages_from; [apply Frame_refl|exact Hpages].
Qed.

End Accepting.

Lemma bareEnv_UrlsParse : UrlsParse bareEnv.
Proof. intros u. reflexivity. Qed.

Lemma bareEnv_TemplatesRun : TemplatesRun bareEnv.
Proof. intros tm h layout d. reflexivity. Qed.

Lemma bareEnv_PublishAccepts : PublishAccepts bareEnv.
Proof. intros t path content. reflexivity. Qed.

Lemma RenderHomePage_paths_witness :
  ∃ w', RenderHomePage bareEnv builtWorld = Ret None w' ∧ Frame builtWorld w'
        ∧ published w' = ["/"; ".xml"].
Proof.
  apply (RenderHomePage_paths bareEnv bareEnv_UrlsParse bareEnv_TemplatesRun
           bareEnv_PublishAccepts builtWorld).
  intros p rest Hp. injection Hp as <- <-. by eexists.
Defined.

Lemma RenderLists_paths_witness :
  ∃ w', RenderLists bareEnv builtWorld = Ret None w' ∧ Frame builtWorld w'
        ∧ published w' = ["post"; "post.xml"].
Proof.
  apply (RenderLists_paths bareEnv bareEnv_UrlsParse bareEnv_TemplatesRun
           bareEnv_PublishAccepts builtWorld).
  intros key o Hk. change (({[ "post" := [1; 0] ]} : Index) !! key = Some o) in Hk.
  apply lookup_singleton_Some in Hk as [<- <-].
  eexists _, _. split; [reflexivity|]. by eexists.
Defined.

Lemma RenderIndexes_paths_witness :
  ∃ w', RenderIndexes bareEnv builtWorld = Ret None w' ∧ Frame builtWorld w'
        ∧ published w' = ["tags/go.html"; "tags/go.xml"].
Proof.
  apply (RenderIndexes_paths bareEnv bareEnv_UrlsParse bareEnv_TemplatesRun
           bareEnv_PublishAccepts builtWorld).
  intros plural idx Hidx key o Hk.
  change (({[ "tags" := {[ "go" := [1; 0] ]} ]} : IndexList) !! plural = Some idx) in Hidx.
  apply lookup_singleton_Some in Hidx as [<- <-].
  apply lookup_singleton_Some in Hk as [<- <-].
  eexists _, _. split; [reflexivity|]. by eexists.
Defined.

Lemma RenderIndexesIndexes_paths_witness :
  ∃ w', RenderIndexesIndexes bareEnv builtWorld = Ret None w' ∧ Frame builtWorld w'
        ∧ published w' = ["tags/index.html"]
        ∧ (Site.Tmpl (site builtWorld) !! "indexes/indexes.html" = None → w' = builtWorld).
Proof.
  apply (RenderIndexesIndexes_paths bareEnv bareEnv_UrlsParse bareEnv_TemplatesRun
           bareEnv_PublishAccepts builtWorld).
Defined.

Lemma RenderPages_paths_witness :
  ∃ w', RenderPages bareEnv builtWorld = Ret None w' ∧ Frame builtWorld w'
        ∧ published w' = ["bb.html"; "a.html"].
Proof.
  apply (RenderPages_paths bareEnv bareEnv_TemplatesRun bareEnv_PublishAccepts builtWorld).
  intros p Hp. simpl in Hp.
  repeat (apply elem_of_cons in Hp as [->|Hp]; [by eexists|]).
  by apply elem_of_nil in Hp.
Defined.

(** ** Parameter names and descriptions *)

Lemma inStringArray_true (arr : list string) (el : string) :
  inStringArray arr el = true ↔ el ∈ arr.
Proof.
  induction arr as [|v rest IH]; simpl.
  - split; [done|]. intros H. by apply elem_of_nil in H.
  - destruct (String.eqb v el) eqn:Heq.
    + apply String.eqb_eq in Heq as ->. split; [left|done].
    + apply String.eqb_neq in Heq. rewrite IH. split; [by right|].
      intros H. apply elem_of_cons in H as [->|H]; done.
Qed.

Lemma addKeys_elem (acc keys : list string) (k : string) :
  k ∈ addKeys acc keys ↔ k ∈ acc ∨ k ∈ keys.
Proof.
  unfold addKeys. revert acc. induction keys as [|x keys IH]; intros acc; simpl.
  - split; [by left|]. intros [H|H]; [done|]. by apply elem_of_nil in H.
  - rewrite IH. destruct (inStringArray acc x) eqn:Hx.
    + apply inStringArray_true in Hx. rewrite elem_of_cons. split.
      * intros [H|H]; [by left|by right; right].
      * intros [H|[->|H]]; [by left|by left|by right].
    + rewrite elem_of_app, list_elem_of_singleton, elem_of_cons. tauto.
Qed.

Lemma addKeys_NoDup (acc keys : list string) : NoDup acc → NoDup (addKeys acc keys).
Proof.
  unfold addKeys. revert acc. induction keys as [|x keys IH]; intros acc Hnd; [done|].
  simpl. apply IH. destruct (inStringArray acc x) eqn:Hx; [done|].
  apply NoDup_app. split; [done|]. split.
  - intros y Hy Hy'. apply list_elem_of_singleton in Hy' as ->.
    apply inStringArray_true in Hy. congruence.
  - apply NoDup_singleton.
Qed.

Lemma rangeMap_keys {V} (E : Env) (m : gmap string V) (k : string) :
  k ∈ fst <$> rangeMap E m → is_Some (m !! k).
Proof.
  rewrite list_elem_of_fmap. intros ([k' v] & -> & Hin).
  apply rangeMap_elem in Hin. by eexists.
Qed.

Lemma rangeMap_visits {V} (E : Env) (m : gmap string V) (k : string) :
  VisitsAll E → is_Some (m !! k) → k ∈ fst <$> rangeMap E m.
Proof.
  intros Hall [v Hv]. apply list_elem_of_fmap. exists (k, v). split; [done|].
  unfold rangeMap. apply list_elem_of_omap. exists k. split.
  - apply Hall. apply list_elem_of_fmap. exists (k, v). split; [done|].
    by apply elem_of_map_to_list.
  - by rewrite Hv.
Qed.

Lemma collectIndexes_run (E : Env) (pages : list ptr) (acc : list string) (w : World) :
  (∀ p, p ∈ pages → is_Some (heap w !! p)) → NoDup acc →
  ∃ l, collectIndexes E pages acc w = Ret l w
     ∧ NoDup l
     ∧ (∀ k, k ∈ l → k ∈ acc ∨ ∃ p pg, p ∈ pages ∧ heap w !! p = Some pg
                                      ∧ is_Some (Page.Params pg !! k))
     ∧ (∀ k, k ∈ acc → k ∈ l)
     ∧ (VisitsAll E → ∀ p pg k, p ∈ pages → heap w !! p = Some pg →
                                 is_Some (Page.Params pg !! k) → k ∈ l).
Proof.
  revert acc. induction pages as [|p pages IH]; intros acc Hlive Hnd.
  - exists acc. split; [done|]. split; [done|]. split; [by left|]. split; [done|].
    intros _ p pg k Hin. by apply elem_of_nil in Hin.
  - destruct (Hlive p) as [pg Hpg]; [left|].
    cbn [collectIndexes]. unfold bind at 1. rewrite (deref_valid _ _ _ Hpg).
    destruct (IH (addKeys acc (fst <$> rangeMap E (Page.Params pg))))
      as (l & Hrun & Hl & Hsound & Hacc & Hcompl).
    { intros q Hq. apply Hlive. by right. }
    { by apply addKeys_NoDup. }
    exists l. split; [done|]. split; [done|]. split; [|split].
    + intros k Hk. destruct (Hsound k Hk) as [Hk'|(q & qg & Hq & Hqg & Hpar)].
      * apply addKeys_elem in Hk' as [Hk'|Hk']; [by left|].
        right. exists p, pg. split; [left|]. split; [done|]. by eapply rangeMap_keys.
      * right. exists q, qg. split; [by right|]. done.
    + intros k Hk. apply Hacc, addKeys_elem. by left.
    + intros Hall q qg k Hq Hqg Hpar. apply elem_of_cons in Hq as [->|Hq].
      * apply Hacc, addKeys_elem. right. rewrite Hpg in Hqg. injection Hqg as <-.
        by apply rangeMap_visits.
      * by eapply Hcompl.
Qed.

(** X17.  Over pages that are in the heap, [possibleIndexes] changes
    nothing and returns a list without duplicates, every element of which
    is a parameter name of some page of the collection; when a range over
    a map visits every key, the list holds every such name. *)
Theorem possibleIndexes_names (E : Env) (w : World) :
  (∀ p, p ∈ Site.Pages (site w) → is_Some (heap w !! p)) →
  ∃ l, possibleIndexes E w = Ret l w
     ∧ NoDup l
     ∧ (∀ k, k ∈ l → ∃ p pg, p ∈ Site.Pages (site w) ∧ heap w !! p = Some pg
                            ∧ is_Some (Page.Params pg !! k))
     ∧ (VisitsAll E → ∀ p pg k, p ∈ Site.Pages (site w) → heap w !! p = Some pg →
                                 is_Some (Page.Params pg !! k) → k ∈ l).
Proof.
  intros Hlive. unfold possibleIndexes. unfold bind at 1, get at 1.
  destruct (collectIndexes_run E (Site.Pages (site w)) [] w Hlive (NoDup_nil_2))
    as (l & Hrun & Hnd & Hsound & _ & Hcompl).
  exists l. split; [done|]. split; [done|]. split; [|done].
  intros k Hk. destruct (Hsound k Hk) as [Hk'|Hk']; [|done].
  by apply elem_of_nil in Hk'.
Qed.

Lemma possibleIndexes_names_witness :
  ∃ l, possibleIndexes bareEnv builtWorld = Ret l builtWorld
     ∧ NoDup l
     ∧ (∀ k, k ∈ l → ∃ p pg, p ∈ Site.Pages (site builtWorld)
                            ∧ heap builtWorld !! p = Some pg
                            ∧ is_Some (Page.Params pg !! k))
     ∧ (VisitsAll bareEnv → ∀ p pg k, p ∈ Site.Pages (site builtWorld) →
                                 heap builtWorld !! p = Some pg →
                                 is_Some (Page.Params pg !! k) → k ∈ l).
Proof.
  apply (possibleIndexes_names bareEnv builtWorld).
  intros p Hp. simpl in Hp.
  repeat (apply elem_of_cons in Hp as [->|Hp]; [by eexists|]).
  by apply elem_of_nil in Hp.
Defined.

Lemma when_say_run (b : bool) (ev : Event) (w : World) :
  when b (say ev) w = Ret tt (if b then emit ev w else w).
Proof. by destruct b. Qed.

(** The lines [checkDescriptions] prints for the pages [l]. *)
Lemma checkDescriptions_over (l : list ptr) (w : World) :
  (∀ p, p ∈ l → is_Some (heap w !! p)) →
  forEach (λ p,
    do pg <- deref p;
    when (String.length (Page.Description pg) <? 60)%nat
      (say (EvStdout (Page.FileName pg +:+ " " +:+ nl)))) l w =
  Ret tt (mkWorld (site w) (heap w) (log w ++ flat_map (shortDescription (heap w)) l)).
Proof.
  revert w. induction l as [|p l IH]; intros w Hlive.
  - simpl. rewrite app_nil_r. by destruct w.
  - destruct (Hlive p) as [pg Hpg]; [left|].
    rewrite forEach_cons. unfold bind at 1. rewrite (deref_valid _ _ _ Hpg).
    cbn [flat_map]. unfold shortDescription at 1. rewrite Hpg.
    rewrite when_say_run.
    destruct (_ <? _)%nat.
    + rewrite IH by (intros q Hq; apply Hlive; by right).
      unfold emit. simpl. by rewrite <- app_assoc.
    + rewrite IH by (intros q Hq; apply Hlive; by right). done.
Qed.

(** X18.  Over pages that are in the heap, [checkDescriptions] prints,
    page after page, the file name followed by a space of every page
    whose description is shorter than 60 bytes, and changes nothing
    else. *)
Theorem checkDescriptions_prints (w : World) :
  (∀ p, p ∈ Site.Pages (site w) → is_Some (heap w !! p)) →
  checkDescriptions w =
  Ret tt (mkWorld (site w) (heap w)
            (log w ++ flat_map (shortDescription (heap w)) (Site.Pages (site w)))).
Proof.
  intros Hlive. unfold checkDescriptions. unfold bind at 1, get at 1.
  by apply checkDescriptions_over.
Qed.

Lemma checkDescriptions_prints_witness :
  checkDescriptions builtWorld =
  Ret tt (mkWorld (site builtWorld) (heap builtWorld)
            [EvStdout ("bb " +:+ nl); EvStdout ("a " +:+ nl)]).
Proof.
  apply (checkDescriptions_prints builtWorld).
  intros p Hp. simpl in Hp.
  repeat (apply elem_of_cons in Hp as [->|Hp]; [by eexists|]).
  by apply elem_of_nil in Hp.
Defined.

(** ** The source of a build *)

Lemma initialize_replaces_source (E : Env) (w : World) (src : option Input) :
  checkDirectories E (site w) = None →
  initialize E (set_site (Site.with_Source src) w) = initialize E w.
Proof.
  intros Hdirs.
  assert (Hdirs' : checkDirectories E (site (set_site (Site.with_Source src) w)) = None).
  { by destruct w as [[cfg pages tm il src0 secs info tgt al] h lg]. }
  unfold initialize. cbv beta iota delta [bind get]. rewrite Hdirs', Hdirs.
  by destruct w as [[cfg pages tm il src0 secs info tgt al] h lg].
Qed.

(** X19.  When the layout and the content directory exist, a build does
    not depend on the source the caller has put into the site:
    [initialize] replaces it by the content directory. *)
Theorem Build_replaces_source (E : Env) (w : World) (src : option Input) :
  checkDirectories E (site w) = None →
  Build E (set_site (Site.with_Source src) w) = Build E w.
Proof.
  intros Hdirs. unfold Build, orReturn, Process.
  cbv beta iota delta [bind]. by rewrite initialize_replaces_source.
Qed.

Lemma Build_replaces_source_witness :
  Build bareEnv suppliedWorld = Build bareEnv (newWorld (sampleConfig false false) None).
Proof.
  apply (Build_replaces_source bareEnv (newWorld (sampleConfig false false) None)
           (Some (SuppliedInput [sampleFile "hello" "mine"]))).
  reflexivity.
Defined.

(** ** The site's information on the pages *)

Lemma with_Site_twice (i : SiteInfo.t) (pg : Page.t) :
  Page.with_Site i (Page.with_Site i pg) = Page.with_Site i pg.
Proof. by destruct pg. Qed.

(** The last loop of [BuildSiteMeta], page by page. *)
Lemma forEach_with_Site_at (info : SiteInfo.t) (l : list ptr) (w : World) :
  (∀ p, p ∈ l → is_Some (heap w !! p)) →
  ∃ h', forEach (λ p, update p (Page.with_Site info)) l w =
          Ret tt (mkWorld (site w) h' (log w))
      ∧ ∀ p, h' !! p =
             (λ pg, if bool_decide (p ∈ l) then Page.with_Site info pg else pg)
               <$> heap w !! p.
Proof.
  revert w. induction l as [|p l IH]; intros w Hlive.
  - exists (heap w). split; [by destruct w|].
    intros p. rewrite bool_decide_false by apply not_elem_of_nil.
    by destruct (heap w !! p).
  - destruct (Hlive p) as [pg Hpg]; [left|].
    rewrite forEach_cons, (update_valid _ _ _ _ Hpg).
    destruct (IH (set_heap (λ h, <[p := Page.with_Site info pg]> h) w))
      as (h' & Hrun & Hat).
    { intros q Hq. simpl. apply lookup_lt_is_Some. rewrite length_insert.
      apply lookup_lt_is_Some. apply Hlive. by right. }
    exists h'. split; [exact Hrun|]. simpl in Hat.
    intros q. rewrite Hat. destruct (decide (q = p)) as [->|Hne].
    + rewrite list_lookup_insert_eq by (by eapply lookup_lt_Some).
      rewrite Hpg. simpl. rewrite (bool_decide_true (p ∈ p :: l)) by left.
      destruct (bool_decide (p ∈ l)); by rewrite ?with_Site_twice.
    + rewrite list_lookup_insert_ne by done.
      destruct (heap w !! q) as [qg|]; [|done]. simpl. f_equal.
      destruct (decide (q ∈ l)) as [Hin|Hout].
      * rewrite !bool_decide_true; [done|by right|done].
      * rewrite !bool_decide_false; [done| |done].
        intros Hq. apply elem_of_cons in Hq as [?|?]; done.
Qed.

(** X20.  Over a collection of pages that is not empty and whose pages
    are in the heap, [BuildSiteMeta] returns no error; the site's
    information then holds the ordered form of the indexes just built and
    the date of the first page as the last change, every page of the
    collection holds a copy of exactly this information, and the pages
    outside of the collection, such as the drafts that were left out,
    are as before. *)
Theorem BuildSiteMeta_page_info (E : Env) (w : World) (first : ptr) (rest : list ptr)
    (fpg : Page.t) :
  Site.Pages (site w) = first :: rest →
  (∀ p, p ∈ Site.Pages (site w) → is_Some (heap w !! p)) →
  heap w !! first = Some fpg →
  ∃ w', BuildSiteMeta E w = Ret None w'
      ∧ Site.Pages (site w') = Site.Pages (site w)
      ∧ Site.Info (site w') =
        SiteInfo.with_LastChange (Page.Date fpg)
          (SiteInfo.with_Indexes (BuildOrderedIndexList E (Site.Indexes (site w')))
             (Site.Info (site w)))
      ∧ ∀ p, heap w' !! p =
             (λ pg, if bool_decide (p ∈ Site.Pages (site w))
                    then Page.with_Site (Site.Info (site w')) pg else pg)
               <$> heap w !! p.
Proof.
  intros Hpages Hlive Hfirst. unfold BuildSiteMeta.
  unfold bind at 1. unfold modify at 1.
  unfold bind at 1. unfold get at 1.
  unfold bind at 1. rewrite forEach_buildIndex_from by exact Hlive.
  unfold bind at 1. rewrite forEach_addSection_from by exact Hlive.
  unfold bind at 1. unfold modify at 1.
  unfold bind at 1. unfold modify at 1.
  destruct w as [[cfg pages tm il src secs info tgt al] h lg].
  cbn [site heap log set_site withIndexes withSections verbose Site.Pages Site.Config
       Site.Info Site.Sections Site.Indexes Site.with_Sections Site.with_Indexes
       Site.with_Info] in *.
  subst pages.
  unfold bind at 1. erewrite deref_valid by exact Hfirst.
  unfold bind at 1. unfold modify at 1.
  unfold bind at 1. unfold get at 1.
  unfold bind at 1.
  match goal with
  | |- context [forEach (λ p, update p (Page.with_Site ?i)) ?l ?w0] =>
      destruct (forEach_with_Site_at i l w0) as (h' & Hrun & Hat)
  end.
  { exact Hlive. }
  rewrite Hrun. eexists. split; [reflexivity|]. split; [reflexivity|].
  split; [reflexivity|]. exact Hat.
Qed.

Lemma BuildSiteMeta_page_info_witness :
  ∃ w', BuildSiteMeta bareEnv scalarWorld = Ret None w'
      ∧ Site.Pages (site w') = Site.Pages (site scalarWorld)
      ∧ Site.Info (site w') =
        SiteInfo.with_LastChange 1
          (SiteInfo.with_Indexes (BuildOrderedIndexList bareEnv (Site.Indexes (site w')))
             (Site.Info (site scalarWorld)))
      ∧ ∀ p, heap w' !! p =
             (λ pg, if bool_decide (p ∈ Site.Pages (site scalarWorld))
                    then Page.with_Site (Site.Info (site w')) pg else pg)
               <$> heap scalarWorld !! p.
Proof.
  apply (BuildSiteMeta_page_info bareEnv scalarWorld 0 [1]
           (Page.with_file "post" "post" (samplePage "scalar" "a"))).
  - reflexivity.
  - intros p Hp. simpl in Hp.
    repeat (apply elem_of_cons in Hp as [->|Hp]; [by eexists|]).
    by apply elem_of_nil in Hp.
  - reflexivity.
Defined.

(** ** Pages that are their own template *)

(** X21.  A page that takes no layout is parsed as a template of its
    own, named "__" followed by its target path.  When it does not
    parse, the step of [RenderPages] returns the parser's error, and
    nothing is executed, printed or published; when it parses and
    executes, the template stays in the site's set, and the page is
    published at its target path: there is no way for such a page to be
    passed over for want of a layout. *)
Theorem renderPage_own_template (E : Env) (p : ptr) (pg : Page.t) (w : World) :
  heap w !! p = Some pg → IsRenderable E pg = false →
  let self := "__" +:+ TargetPath E pg in
  let tm := <[self := Page.Content pg]> (Site.Tmpl (site w)) in
  (∀ msg, ParseTemplate E self (Page.Content pg) = Some msg →
          ∃ w', renderPage E p w = Ret (Some msg) w'
              ∧ heap w' = heap w ∧ log w' = log w)
  ∧ (∀ output, ParseTemplate E self (Page.Content pg) = None →
       ExecuteTemplate E tm (heap w) self (RPage p) = (output, None) →
       ∃ w', renderPage E p w =
               Ret (TargetPublish E (targetOf E (site w)) (TargetPath E pg)
                      (fst (ApplyChain E (Config.BaseUrl (Site.Config (site w)))
                              (fst (RelPermalink E pg)) output))) w'
           ∧ Site.Tmpl (site w') = tm
           ∧ heap w' = heap w
           ∧ published w' = published w ++ [TargetPath E pg]).
Proof.
  intros Hpg Hraw self tm. split.
  - intros msg Hparse. unfold renderPage. unfold bind at 1.
    rewrite (deref_valid _ _ _ Hpg), Hraw. cbn [negb]. fold self. rewrite Hparse.
    by exists w.
  - intros output Hparse Hexec. unfold renderPage. unfold bind at 1.
    rewrite (deref_valid _ _ _ Hpg), Hraw. cbn [negb]. fold self. rewrite Hparse.
    unfold bind at 1, modify at 1.
    assert (Hself : self ≠ "") by (unfold self; by rewrite !append_cons).
    assert (Hfirst : findFirstLayout tm [self] = self).
    { cbn [findFirstLayout]. unfold tm. by rewrite lookup_insert_eq. }
    destruct w as [[cfg pages tm0 il src secs info tgt al] h lg].
    cbn [site heap log Site.Tmpl Site.Config] in *.
    change (set_site _ _)
      with (mkWorld (Site.mk cfg pages tm il src secs info tgt al) h lg).
    rewrite (render_run E (RPage p) (TargetPath E pg) [self]
               (mkWorld (Site.mk cfg pages tm il src secs info tgt al) h lg) output).
    + cbn [site heap log Site.Tmpl Site.Config navSection]. rewrite Hpg, Hfirst.
      eexists. split; [reflexivity|]. split; [reflexivity|]. split; [reflexivity|].
      rewrite !published_app. unfold published, announce, verbose. simpl.
      destruct (Config.Verbose cfg); simpl; by rewrite ?app_nil_r.
    + simpl. rewrite Hpg. by eexists.
    + cbn [site Site.Tmpl]. by rewrite Hfirst.
    + cbn [site Site.Tmpl heap]. by rewrite Hfirst.
Qed.

Lemma renderPage_own_template_witness :
  ∃ w', renderPage rawEnv 0 movedWorld = Ret None w'
      ∧ Site.Tmpl (site w') = {[ "__a.html" := "moved" ]}
      ∧ heap w' = heap movedWorld
      ∧ published w' = ["a.html"].
Proof.
  destruct (renderPage_own_template rawEnv 0 (samplePage "moved" "a") movedWorld
              eq_refl eq_refl) as [_ H].
  destruct (H "<__a.html>" eq_refl eq_refl) as (w' & Hrun & Htm & Hheap & Hpaths).
  exists w'. split; [exact Hrun|]. split; [exact Htm|]. split; [exact Hheap|exact Hpaths].
Defined.

(** ** The home page *)

(** X22.  [RenderHomePage] panics, before it renders anything, when the
    base URL of the configuration does not parse; no error is
    returned. *)
Theorem RenderHomePage_bad_base_url (E : Env) (w : World) (msg : string) :
  UrlParse E (Config.BaseUrl (Site.Config (site w))) = Some msg →
  RenderHomePage E w = Crash (PanicErr msg) w.
Proof.
  intros Hbad. unfold RenderHomePage, homeNode, permalink.
  cbv beta iota delta [bind get orReturn]. by rewrite Hbad.
Qed.

Lemma RenderHomePage_bad_base_url_witness :
  RenderHomePage badUrlEnv builtWorld = Crash (PanicErr "bad base") builtWorld.
Proof.
  apply (RenderHomePage_bad_base_url badUrlEnv builtWorld "bad base"). reflexivity.
Defined.

(** X23.  The node of the home page carries the title of the site, the
    date of the first page and, as "Pages", the first nine pages of the
    collection, or all of them when there are fewer. *)
Theorem homeNode_recent (E : Env) (w : World) (first : ptr) (rest : list ptr)
    (pg : Page.t) :
  UrlsParse E →
  Site.Pages (site w) = first :: rest → heap w !! first = Some pg →
  ∃ n, homeNode E w = Ret n w
     ∧ Node.Title n = SiteInfo.Title (Site.Info (site w))
     ∧ Node.Date n = Page.Date pg
     ∧ Node.Data n !! "Pages" = Some (DPages (take 9 (Site.Pages (site w)))).
Proof.
  intros Hurl Hpages Hpg. unfold homeNode. unfold bind at 1, get at 1.
  unfold bind at 1. rewrite (permalink_run E Hurl).
  unfold bind at 1. rewrite (permalink_run E Hurl).
  rewrite Hpages. unfold bind at 1. rewrite (deref_valid _ _ _ Hpg). rewrite <- Hpages.
  destruct (length (Site.Pages (site w)) <? 9)%nat eqn:Hlen.
  - eexists. split; [reflexivity|]. split; [reflexivity|]. split; [reflexivity|].
    cbn [Node.Data Node.set_Data]. rewrite lookup_insert_eq.
    apply Nat.ltb_lt in Hlen. rewrite take_ge by lia. done.
  - eexists. split; [reflexivity|]. split; [reflexivity|]. split; [reflexivity|].
    cbn [Node.Data Node.set_Data]. by rewrite lookup_insert_eq.
Qed.

Lemma homeNode_recent_witness :
  ∃ n, homeNode bareEnv tenPages = Ret n tenPages
     ∧ Node.Title n = SiteInfo.Title (Site.Info (site tenPages))
     ∧ Node.Date n = 1%Z
     ∧ Node.Data n !! "Pages" = Some (DPages [9; 8; 7; 6; 5; 4; 3; 2; 1]).
Proof.
  apply (homeNode_recent bareEnv tenPages 9 [8; 7; 6; 5; 4; 3; 2; 1; 0]
           (samplePage "hello" "j")).
  - intros u. reflexivity.
  - reflexivity.
  - reflexivity.
Defined.

(** ** Shortcodes *)

Lemma shortcodes_step (E : Env) (tm : Templates) (p : ptr) (pg : Page.t) (w : World) :
  heap w !! p = Some pg →
  (run update p (λ pg,
         Page.with_Content (ShortcodesHandle E (Page.Content pg) pg tm) pg);
   update p (λ pg,
         Page.with_Summary (ShortcodesHandle E (Page.Summary pg) pg tm) pg)) w =
  Ret tt (set_heap (λ h, <[p := shortcoded E tm pg]> h) w).
Proof.
  intros Hpg. unfold bind at 1. rewrite (update_valid _ _ _ _ Hpg).
  erewrite update_valid.
  2:{ simpl. apply list_lookup_insert_eq. by eapply lookup_lt_Some. }
  unfold set_heap. simpl. by rewrite list_insert_insert_eq.
Qed.

Lemma forEach_shortcodes (E : Env) (tm : Templates) (l : list ptr) (w : World) :
  NoDup l → (∀ p, p ∈ l → is_Some (heap w !! p)) →
  ∃ h', forEach (λ p,
          run update p (λ pg,
                Page.with_Content (ShortcodesHandle E (Page.Content pg) pg tm) pg);
          update p (λ pg,
                Page.with_Summary (ShortcodesHandle E (Page.Summary pg) pg tm) pg)) l w =
        Ret tt (mkWorld (site w) h' (log w))
      ∧ ∀ p, h' !! p =
             (λ pg, if bool_decide (p ∈ l) then shortcoded E tm pg else pg)
               <$> heap w !! p.
Proof.
  revert w. induction l as [|p l IH]; intros w Hnd Hlive.
  - exists (heap w). split; [by destruct w|].
    intros p. rewrite bool_decide_false by apply not_elem_of_nil.
    by destruct (heap w !! p).
  - destruct (Hlive p) as [pg Hpg]; [left|].
    apply NoDup_cons in Hnd as [Hp Hnd].
    rewrite forEach_cons. cbv beta. rewrite (shortcodes_step _ _ _ _ _ Hpg).
    destruct (IH (set_heap (λ h, <[p := shortcoded E tm pg]> h) w) Hnd)
      as (h' & Hrun & Hat).
    { intros q Hq. simpl. apply lookup_lt_is_Some. rewrite length_insert.
      apply lookup_lt_is_Some. apply Hlive. by right. }
    exists h'. split; [exact Hrun|]. simpl in Hat.
    intros q. rewrite Hat. destruct (decide (q = p)) as [->|Hne].
    + rewrite list_lookup_insert_eq by (by eapply lookup_lt_Some).
      rewrite Hpg. simpl. rewrite (bool_decide_true (p ∈ p :: l)) by left.
      by rewrite bool_decide_false.
    + rewrite list_lookup_insert_ne by done.
      destruct (heap w !! q) as [qg|]; [|done]. simpl. f_equal.
      destruct (decide (q ∈ l)) as [Hin|Hout].
      * rewrite !bool_decide_true; [done|by right|done].
      * rewrite !bool_decide_false; [done| |done].
        intros Hq. apply elem_of_cons in Hq as [?|?]; done.
Qed.

(** X24.  Over distinct pages that are in the heap, [ProcessShortcodes]
    expands the content and then the summary of every page of the
    collection once, the summary on the page that has the new content
    already; it touches no other page, nor the site, nor the trace. *)
Theorem ProcessShortcodes_pages (E : Env) (w : World) :
  DistinctLive w →
  ∃ h', ProcessShortcodes E w = Ret tt (mkWorld (site w) h' (log w))
      ∧ ∀ p, h' !! p =
             (λ pg, if bool_decide (p ∈ Site.Pages (site w))
                    then shortcoded E (Site.Tmpl (site w)) pg else pg)
               <$> heap w !! p.
Proof.
  intros [Hnd Hlive]. unfold ProcessShortcodes. unfold bind at 1, get at 1.
  by apply forEach_shortcodes.
Qed.

Lemma ProcessShortcodes_pages_witness :
  ∃ h', ProcessShortcodes bareEnv builtWorld =
          Ret tt (mkWorld (site builtWorld) h' (log builtWorld))
      ∧ ∀ p, h' !! p =
             (λ pg, if bool_decide (p ∈ Site.Pages (site builtWorld))
                    then shortcoded bareEnv (Site.Tmpl (site builtWorld)) pg else pg)
               <$> heap builtWorld !! p.
Proof.
  apply (ProcessShortcodes_pages bareEnv builtWorld). split.
  - apply (bool_decide_unpack _). reflexivity.
  - intros p Hp. simpl in Hp.
    repeat (apply elem_of_cons in Hp as [->|Hp]; [by eexists|]).
    by apply elem_of_nil in Hp.
Defined.

(** ** The paths of a whole [Render] *)

Lemma timerStep_run (step : string) (w : World) :
  timerStep step w = Ret tt (emit (EvTimer step) w).
Proof. reflexivity. Qed.

Lemma Frame_timer (w0 w : World) (step : string) :
  Frame w0 w → Frame w0 (emit (EvTimer step) w).
Proof. intros Hf. exact Hf. Qed.

Lemma published_timer (w : World) (step : string) :
  published (emit (EvTimer step) w) = published w.
Proof. unfold published, emit. simpl. rewrite omap_app. simpl. apply app_nil_r. Qed.

Lemma WriteAlias_frame (E : Env) (path plink : string) (w : World) :
  ∃ w', WriteAlias E path plink w = Ret (AliasPublish E (aliasOf E (site w)) path plink) w'
      ∧ Frame w w' ∧ published w' = published w.
Proof.
  unfold WriteAlias, initTarget, aliasOf, announce, verbose, published. monad_unfold.
  destruct w as [[cfg pages tm il src secs info [t|] [a|]] h lg]; simpl;
    destruct (Config.Verbose cfg); unfold emit, set_site; simpl;
    (eexists; split; [reflexivity|]; simpl; split; [by repeat split|];
     rewrite !omap_app; simpl; by rewrite ?app_nil_r).
Qed.

Lemma RenderAliases_frame (E : Env) (w : World) :
  AliasAccepts E →
  (∀ p, p ∈ Site.Pages (site w) →
        ∃ pg, heap w !! p = Some pg ∧ snd (PagePermalink E pg) = None) →
  ∃ w', RenderAliases E w = Ret None w' ∧ Frame w w' ∧ published w' = published w.
Proof.
  intros Halias Hok. unfold RenderAliases. unfold bind at 1, get at 1.
  match goal with
  | |- context [forErr ?body (Site.Pages (site w)) w] =>
      destruct (forErr_paths body (λ _, []) (Site.Pages (site w)) w)
        as (w' & Hrun & Hf & Hp)
  end.
  - intros p w1 Hin Hf1. destruct (Hok p Hin) as (pg & Hpg & Hlink).
    unfold bind at 1. rewrite (deref_valid p w1 pg).
    2:{ destruct Hf1 as (-> & _). exact Hpg. }
    match goal with
    | |- context [forErr ?body (Page.Aliases pg) w1] =>
        destruct (forErr_paths body (λ _, []) (Page.Aliases pg) w1)
          as (w2 & Hrun & Hf & Hp)
    end.
    + intros a w2 _ Hf2. destruct (PagePermalink E pg) as [plink err].
      simpl in Hlink. subst err.
      destruct (WriteAlias_frame E a plink w2) as (w3 & Hrun & Hf3 & Hp3).
      rewrite Halias in Hrun. exists w3. by rewrite app_nil_r.
    + exists w2. split; [done|]. split; [done|].
      by rewrite Hp, flat_map_nil.
  - exists w'. split; [done|]. split; [done|].
    by rewrite Hp, flat_map_nil, app_nil_r.
Qed.

Lemma length_shortcodeHeap (E : Env) (tm : Templates) (l : list ptr) (h : list Page.t) :
  length (shortcodeHeap E tm l h) = length h.
Proof.
  unfold shortcodeHeap. revert h. induction l as [|p l IH]; intros h; [done|].
  simpl. rewrite IH. destruct (h !! p); [apply length_insert|done].
Qed.

Lemma forEach_shortcodes_heap (E : Env) (tm : Templates) (l : list ptr) (w : World) :
  (∀ p, p ∈ l → is_Some (heap w !! p)) →
  forEach (λ p,
    run update p (λ pg,
          Page.with_Content (ShortcodesHandle E (Page.Content pg) pg tm) pg);
    update p (λ pg,
          Page.with_Summary (ShortcodesHandle E (Page.Summary pg) pg tm) pg)) l w =
  Ret tt (mkWorld (site w) (shortcodeHeap E tm l (heap w)) (log w)).
Proof.
  revert w. induction l as [|p l IH]; intros w Hlive.
  - by destruct w.
  - destruct (Hlive p) as [pg Hpg]; [left|].
    rewrite forEach_cons. cbv beta. rewrite (shortcodes_step _ _ _ _ _ Hpg).
    rewrite IH.
    + unfold shortcodeHeap. simpl. by rewrite Hpg.
    + intros q Hq. simpl. apply lookup_lt_is_Some. rewrite length_insert.
      apply lookup_lt_is_Some. apply Hlive. by right.
Qed.

Section WholeRender.
Context (E : Env).
Hypothesis Hurl : UrlsParse E.
Hypothesis Hexec : TemplatesRun E.
Hypothesis Hpub : PublishAccepts E.
Hypothesis Halias : AliasAccepts E.
Hypothesis Hren : ∀ pg, IsRenderable E pg = true.

(** X25.  When nothing fails (URLs parse, templates execute, every page
    takes a layout and has a permalink, both publishers accept
    everything) and the pages and the first page of every collection
    are in the heap, [Render] returns no error and has published, in
    this order and nothing else: the pages of the keys of the indexes,
    the indexes of the indexes, the lists of the sections, the pages, and
    the home page with its feed and its 404 page.  Of the site only the
    target and the alias publisher may have changed. *)
Theorem Render_paths (w : World) :
  (∀ p, p ∈ Site.Pages (site w) →
        ∃ pg, heap w !! p = Some pg ∧ snd (PagePermalink E pg) = None) →
  headsLive (heap w) (Site.Sections (site w)) →
  (∀ plural idx, Site.Indexes (site w) !! plural = Some idx → headsLive (heap w) idx) →
  ∃ w', Render E w = Ret None w'
      ∧ heap w' = shortcodeHeap E (Site.Tmpl (site w)) (Site.Pages (site w)) (heap w)
      ∧ Frame (mkWorld (site w) (heap w') (log w)) w'
      ∧ published w' = published w ++ renderPaths E (site w) (heap w').
Proof using All.
  intros Hpages Hsecs Hidx.
  destruct (RenderAliases_frame E w Halias Hpages) as (w1 & R1 & F1 & P1).
  unfold Render. unfold orReturn at 1. unfold bind at 1. rewrite R1.
  unfold bind at 1. rewrite timerStep_run.
  pose proof (forEach_shortcodes_heap E (Site.Tmpl (site w1)) (Site.Pages (site w1))
                (emit (EvTimer "render and write aliases") w1)) as R2.
  set (h2 := shortcodeHeap E (Site.Tmpl (site w1)) (Site.Pages (site w1)) (heap w1)).
  assert (L2 : length h2 = length (heap w1)) by apply length_shortcodeHeap.
  assert (E2 : h2 = shortcodeHeap E (Site.Tmpl (site w)) (Site.Pages (site w)) (heap w)).
  { unfold h2. by destruct F1 as (-> & _ & -> & -> & _). }
  unfold bind at 1. unfold ProcessShortcodes. unfold bind at 1, get at 1.
  cbn [emit site heap] in R2 |- *. fold h2 in R2. rewrite R2.
  2:{ intros p Hp. destruct F1 as (-> & _ & Hpg & _).
      rewrite Hpg in Hp. destruct (Hpages p Hp) as (pg & -> & _). by eexists. }
  unfold bind at 1. rewrite timerStep_run.
  unfold bind at 1. rewrite timerStep_run.
  match goal with
  | |- context [orReturn (RenderIndexes E) _ ?w0] => set (w2 := w0)
  end.
  assert (S2 : site w2 = site w1) by reflexivity.
  assert (H2 : heap w2 = h2) by reflexivity.
  assert (P2 : published w2 = published w).
  { unfold w2. rewrite !published_timer. rewrite <- P1.
    unfold published. cbn [log emit]. rewrite omap_app. simpl. apply app_nil_r. }
  assert (Hlen : length (heap w2) = length (heap w)).
  { rewrite H2, L2. by destruct F1 as (-> & _). }
  assert (Hlive : ∀ p, is_Some (heap w !! p) → is_Some (heap w2 !! p)).
  { intros p Hp. apply lookup_lt_is_Some. rewrite Hlen. by apply lookup_lt_is_Some. }
  assert (Fs : Site.Config (site w2) = Site.Config (site w)
             ∧ Site.Pages (site w2) = Site.Pages (site w)
             ∧ Site.Tmpl (site w2) = Site.Tmpl (site w)
             ∧ Site.Indexes (site w2) = Site.Indexes (site w)
             ∧ Site.Sections (site w2) = Site.Sections (site w)
             ∧ Site.Info (site w2) = Site.Info (site w)).
  { rewrite S2. apply F1. }
  destruct Fs as (Fcfg & Fpages & Ftm & Fil & Fsecs & Finfo).
  clearbody w2. clear R1 R2.
  (* the indexes *)
  destruct (RenderIndexes_from E Hurl Hexec Hpub w2 w2 (Frame_refl w2))
    as (w3 & R3 & F3 & P3).
  { intros plural idx Hl key o Ho. rewrite Fil in Hl.
    destruct (Hidx plural idx Hl key o Ho) as (p & rest & -> & Hp).
    exists p, rest. split; [done|]. by apply Hlive. }
  unfold orReturn at 1. unfold bind at 1. rewrite R3.
  unfold bind at 1. rewrite timerStep_run.
  (* the indexes of the indexes *)
  destruct (RenderIndexesIndexes_from E Hurl Hexec Hpub w2
              (emit (EvTimer "render and write indexes") w3))
    as (w4 & R4 & F4 & P4 & _).
  { by apply Frame_timer. }
  unfold bind at 1. rewrite R4.
  unfold bind at 1. rewrite timerStep_run.
  (* the sections *)
  destruct (RenderLists_from E Hurl Hexec Hpub w2
              (emit (EvTimer "render & write index indexes") w4))
    as (w5 & R5 & F5 & P5).
  { apply Frame_timer. eapply Frame_trans; [|exact F4]. by apply Frame_timer. }
  { intros key o Ho. rewrite Fsecs in Ho.
    destruct (Hsecs key o Ho) as (p & rest & -> & Hp).
    exists p, rest. split; [done|]. by apply Hlive. }
  unfold orReturn at 1. unfold bind at 1. rewrite R5.
  unfold bind at 1. rewrite timerStep_run.
  assert (F25 : Frame w2 w5).
  { eapply Frame_trans; [|exact F5]. apply Frame_timer.
    eapply Frame_trans; [|exact F4]. by apply Frame_timer. }
  (* the pages *)
  destruct (RenderPages_from E Hexec Hpub w2
              (emit (EvTimer "render and write lists") w5))
    as (w6 & R6 & F6 & P6).
  { by apply Frame_timer. }
  { intros p Hp. rewrite Fpages in Hp. destruct (Hpages p Hp) as (pg & Hpg & _).
    destruct (Hlive p) as [pg2 Hpg2]; [by eexists|]. exists pg2. by split. }
  unfold orReturn at 1. unfold bind at 1. rewrite R6.
  unfold bind at 1. rewrite timerStep_run.
  assert (F26 : Frame w2 w6).
  { eapply Frame_trans; [|exact F6]. by apply Frame_timer. }
  (* the home page *)
  destruct (RenderHomePage_from E Hurl Hexec Hpub w2
              (emit (EvTimer "render and write pages") w6))
    as (w7 & R7 & F7 & P7).
  { by apply Frame_timer. }
  { intros first rest Hfr. rewrite Fpages in Hfr. apply Hlive.
    destruct (Hpages first) as (pg & -> & _); [rewrite Hfr; left|]. by eexists. }
  unfold orReturn at 1. unfold bind at 1. rewrite R7.
  unfold bind at 1. rewrite timerStep_run.
  assert (F27 : Frame w2 w7).
  { eapply Frame_trans; [|exact F7]. by apply Frame_timer. }
  eexists. split; [reflexivity|].
  assert (Hh7 : heap w7 = heap w2) by apply F27.
  split; [by rewrite <- E2, <- H2|]. split.
  - destruct F27 as (Hh & Hc & Hp & Ht & Hi & Hs & Hn).
    unfold Frame, emit. cbn [site heap log]. rewrite Hc, Hp, Ht, Hi, Hs, Hn.
    by repeat split.
  - rewrite published_timer, P7, published_timer, P6, published_timer, P5,
      published_timer, P4, published_timer, P3, P2.
    unfold renderPaths. cbn [emit heap]. rewrite Hh7.
    rewrite Fcfg, Fpages, Ftm, Fil, Fsecs. by rewrite <- !app_assoc.
Qed.

End WholeRender.

Lemma Render_paths_witness :
  ∃ w', Render bareEnv builtWorld = Ret None w'
      ∧ heap w' = heap builtWorld
      ∧ Frame (mkWorld (site builtWorld) (heap w') (log builtWorld)) w'
      ∧ published w' =
        ["tags/go.html"; "tags/go.xml"; "tags/index.html"; "post"; "post.xml";
         "bb.html"; "a.html"; "/"; ".xml"].
Proof.
  destruct (Render_paths bareEnv bareEnv_UrlsParse bareEnv_TemplatesRun
              bareEnv_PublishAccepts (λ a path plink, eq_refl) (λ pg, eq_refl) builtWorld)
    as (w' & Hrun & Hheap & Hframe & Hpaths).
  - intros p Hp. simpl in Hp.
    repeat (apply elem_of_cons in Hp as [->|Hp]; [by eexists|]).
    by apply elem_of_nil in Hp.
  - intros key o Hk. change (({[ "post" := [1; 0] ]} : Index) !! key = Some o) in Hk.
    apply lookup_singleton_Some in Hk as [<- <-].
    eexists _, _. split; [reflexivity|]. by eexists.
  - intros plural idx Hidx key o Hk.
    change (({[ "tags" := {[ "go" := [1; 0] ]} ]} : IndexList) !! plural = Some idx) in Hidx.
    apply lookup_singleton_Some in Hidx as [<- <-].
    apply lookup_singleton_Some in Hk as [<- <-].
    eexists _, _. split; [reflexivity|]. by eexists.
  - exists w'. split; [exact Hrun|]. split; [exact Hheap|]. split; [exact Hframe|].
    rewrite Hpaths, Hheap. reflexivity.
Defined.

(** ** The neighbours after [Process] *)

(** X26.  When sorting permutes, [Process] over a site of distinct live
    pages never panics, and when it returns no error every page of the
    sorted collection has the page after it as [Next] and the page before
    it as [Prev]: [BuildSiteMeta], which runs after [setupPrevNext],
    keeps the links. *)
Theorem Process_links (E : Env) (w : World) :
  SortPermutes E → DistinctLive w →
  ∃ e w', Process E w = Ret e w' ∧ (e = None → Linked w').
Proof.
  intros Hsort Hdl.
  destruct (initialize_keeps E w) as (e0 & w0 & R0 & _ & Hp0 & _ & Hh0 & _).
  unfold Process. unfold bind at 1. rewrite R0.
  unfold bind at 1. unfold prepTemplates, modify at 1.
  unfold bind at 1. rewrite timerStep_run.
  match goal with
  | |- context [orReturn (CreatePages E) _ ?w0] => set (w1 := w0)
  end.
  assert (Hdl1 : DistinctLive w1).
  { unfold DistinctLive, w1. destruct w0 as [[cfg pages tm il src secs info tgt al] h lg].
    simpl in *. subst. exact Hdl. }
  pose proof (CreatePages_DistinctLive E w1 Hsort Hdl1) as Hc.
  unfold orReturn at 1. unfold bind at 1.
  destruct (CreatePages E w1) as [[msg|] w2|p w2]; simpl in Hc; [| |done].
  { eexists _, _. split; [reflexivity|]. discriminate. }
  destruct Hc as [Hnd Hlive]. set (pages := Site.Pages (site w2)) in *.
  unfold bind at 1. unfold setupPrevNext. unfold bind at 1, get at 1. fold pages.
  destruct (forEach_linkPage pages (imap pair pages) w2) as (h3 & R3 & Hin3 & _).
  { by rewrite snd_imap_pair. }
  { intros i p Hip. apply elem_of_imap_pair in Hip. split.
    - by eapply lookup_lt_Some.
    - apply Hlive. by eapply list_elem_of_lookup_2. }
  rewrite R3. unfold bind at 1. rewrite timerStep_run.
  assert (Hat3 : ∀ i p, pages !! i = Some p →
            ∃ pg, h3 !! p = Some (linked pages i pg)).
  { intros i p Hip. destruct (Hlive p) as [pg Hpg]; [by eapply list_elem_of_lookup_2|].
    exists pg. rewrite (Hin3 i p); [by rewrite Hpg|]. by apply elem_of_imap_pair. }
  match goal with
  | |- context [orReturn (BuildSiteMeta E) _ ?w0] => set (w3 := w0)
  end.
  destruct (BuildSiteMeta_run E w3) as (h4 & R4 & _ & Hat4 & _).
  { intros p Hp. apply list_elem_of_lookup in Hp as [i Hi].
    destruct (Hat3 i p Hi) as [pg Hpg]. exists (linked pages i pg). exact Hpg. }
  unfold orReturn at 1. unfold bind at 1. rewrite R4.
  unfold bind at 1. rewrite timerStep_run.
  eexists _, _. split; [reflexivity|]. intros _ i p q Hp Hq.
  change (pages !! i = Some p) in Hp. change (pages !! S i = Some q) in Hq.
  change (Page.Next <$> h4 !! p = Some (Some q) ∧ Page.Prev <$> h4 !! q = Some (Some p)).
  destruct (Hat4 p) as [ip Hp4]. destruct (Hat4 q) as [iq Hq4].
  destruct (Hat3 i p Hp) as [pg Hpg]. destruct (Hat3 (S i) q Hq) as [qg Hqg].
  change (heap w3) with h3 in Hp4, Hq4.
  rewrite Hp4, Hq4, Hpg, Hqg. cbn [fmap option_fmap option_map].
  apply lookup_lt_Some in Hq as Hlt.
  replace (Page.Next (Page.with_Site ip (linked pages i pg)))
    with (Page.Next (linked pages i pg)) by (by destruct (linked pages i pg)).
  replace (Page.Prev (Page.with_Site iq (linked pages (S i) qg)))
    with (Page.Prev (linked pages (S i) qg)) by (by destruct (linked pages (S i) qg)).
  rewrite Next_linked, Prev_linked.
  replace (i <? length pages - 1)%nat with true by (symmetry; apply Nat.ltb_lt; lia).
  replace (i + 1)%nat with (S i) by lia.
  replace (S i - 1)%nat with i by lia.
  by rewrite Hp, Hq.
Qed.

Lemma Process_links_witness :
  ∃ e w', Process threePostsEnv (newWorld (sampleConfig false false) None) = Ret e w'
        ∧ (e = None → Linked w').
Proof.
  apply (Process_links threePostsEnv (newWorld (sampleConfig false false) None)).
  - apply sampleEnv_SortPermutes.
  - split; [apply NoDup_nil_2|]. intros p Hp. by apply elem_of_nil in Hp.
Defined.

(** ** What [BuildSiteMeta] never does *)

(** X27.  [BuildSiteMeta] never returns an error: whenever it returns,
    it returns none, so that the check of its result in [Process] never
    fires. *)
Theorem BuildSiteMeta_no_error (E : Env) (w : World) :
  match BuildSiteMeta E w with
  | Ret e _ => e = None
  | Crash _ _ => True
  end.
Proof.
  unfold BuildSiteMeta. cbv beta iota delta [bind modify get ret].
  repeat match goal with
         | |- context [forEach ?body ?l ?w0] =>
             destruct (forEach body l w0); cbv beta iota; [|exact I]
         | |- context [deref ?p ?w0] =>
             destruct (deref p w0); cbv beta iota; [|exact I]
         | |- context [match ?l with [] => _ | _ :: _ => _ end] => destruct l
         end;
    done.
Qed.

(** X28.  [BuildSiteMeta] builds from nothing: the indexes and the
    sections the site had before have no part in what it returns or
    leaves behind. *)
Theorem BuildSiteMeta_rebuilds (E : Env) (w : World) (il : IndexList) (secs : Index) :
  BuildSiteMeta E (set_site (λ s, Site.with_Sections secs (Site.with_Indexes il s)) w) =
  BuildSiteMeta E w.
Proof.
  unfold BuildSiteMeta. unfold bind at 1 8. unfold modify at 1 6.
  by destruct w as [[cfg pages tm il0 src secs0 info tgt al] h lg].
Qed.
